(** * ServiceBusAdministrationClient: a shallow embedding

    Source: sdk/servicebus/azure-servicebus/azure/servicebus/management/
    _management_client.py.

    The client is a thin layer of control flow around collaborators that live
    in other modules (_utils, _models, _generated, _handle_response_error,
    _base_handler, _common.constants).  Python objects live in a store
    indexed by locations, so that aliasing and copying are visible; every
    operation is a computation over that store which also produces the list
    of the outside interactions that the client code performed itself (its
    own calls of [get_token] for supplementary tokens, and the requests it
    handed to the generated client), in order.

    Not embedded: the construction of the HTTP pipeline in [__init__] and
    [_build_pipeline], the context-manager methods and [close].  The
    pipeline carries an authentication policy on the credential; it runs
    inside the generated client, which is seen from the outside here, so
    the tokens that this policy obtains for a request appear in no trace.
    The parser of connection strings is an argument of
    [from_connection_string]. *)

From Stdlib Require Import ZArith Ascii String.
From stdpp Require Import gmap strings list fin_maps relations.

Open Scope string_scope.
Open Scope list_scope.

(** ** Python values and objects *)

Abbreviation loc := positive.

Inductive pyclass :=
| QueueProperties | QueueRuntimeProperties
| TopicProperties | TopicRuntimeProperties
| SubscriptionProperties | SubscriptionRuntimeProperties
| RuleProperties | NamespaceProperties
| TrueRuleFilter | CorrelationRuleFilter | SqlRuleFilter | SqlRuleAction
| AuthorizationRule
| PyDict | PyList.

Global Instance pyclass_eq_dec : EqDecision pyclass.
Proof. solve_decision. Defined.

Inductive pyval :=
| PNone
| PBool (b : bool)
| PInt (z : Z)
| PStr (s : string)
| PTimedelta (seconds : Z)
| PRef (l : loc).

Global Instance pyval_eq_dec : EqDecision pyval.
Proof. solve_decision. Defined.

(** An object is its class and its attributes (for a dict: its items, for a
    list: its elements under their indices), in insertion order. *)
Record pyobj := { o_class : pyclass; o_slots : list (string * pyval) }.

Global Instance pyobj_eq_dec : EqDecision pyobj.
Proof. solve_decision. Defined.

Abbreviation heap := (gmap loc pyobj).

Fixpoint getattr (slots : list (string * pyval)) (k : string) : option pyval :=
  match slots with
  | [] => None
  | (k', v) :: rest => if decide (k' = k) then Some v else getattr rest k
  end.

(** Python truthiness of the values the client tests with [if x:] and
    [if not x:]. *)
Definition truthy_str (s : option string) : bool :=
  match s with
  | Some s => negb (String.eqb s "")
  | None => false
  end.

Definition truthy_int (n : option Z) : bool :=
  match n with
  | Some n => negb (n =? 0)%Z
  | None => false
  end.

(** ** Exceptions *)

Inductive exn :=
| TypeError (msg : string)
| ValueError (msg : string)
| AttributeError (msg : string)
| UnboundLocalError (var : string)
| RecursionError
| ResourceNotFoundError (msg : string)
| HttpResponseError (status : Z)
| ServiceError (kind : string).

Global Instance exn_eq_dec : EqDecision exn.
Proof. solve_decision. Defined.

Inductive result (A : Type) :=
| Ok (a : A)
| Raise (e : exn).
Arguments Ok {A} a.
Arguments Raise {A} e.

(** ** Wire-level data *)

(** xml.etree.ElementTree elements. *)
#[local] Set Warnings "-register-all".
Inductive ElementTree :=
| Element (tag : string) (attrib : list (string * string)) (text : string)
    (children : list ElementTree).

(** The generated description models (QueueDescription, TopicDescription,
    SubscriptionDescription, RuleDescription, NamespaceProperties).  The
    client itself reads two attributes only. *)
Record description := {
  forward_to : option string;
  forward_dead_lettered_messages_to : option string;
  d_fields : list (string * pyval)
}.

(** A decoded Atom entry: [entry.title] and [entry.content]; the content
    object holds one description ([content.queue_description] and the
    like). *)
Record entry := {
  title : string;
  content : option description
}.

Inductive entry_class :=
| QueueDescriptionEntry | TopicDescriptionEntry | SubscriptionDescriptionEntry
| RuleDescriptionEntry | NamespacePropertiesEntry.

Inductive MatchConditions :=
| Unconditionally | IfNotModified | IfModified | IfPresent | IfMissing.

Global Instance MatchConditions_eq_dec : EqDecision MatchConditions.
Proof. solve_decision. Defined.

(** The keyword dictionary that every operation threads to the generated
    client: the [headers] entry, which the client reads and writes, and the
    rest. *)
Record kwargs := {
  kw_headers : option (gmap string string);
  kw_other : gmap string pyval
}.

Definition no_kwargs : kwargs := {| kw_headers := None; kw_other := ∅ |}.

(** ** The generated client, seen from the outside *)

Inductive operation_group := entity_ops | subscription_ops | rule_ops | namespace_ops.
Inductive verb := GET | PUT | DELETE.

(** One call into [self._impl]: which operation, the name arguments, the
    body, [enrich], the [match_condition] keyword when the client passes it
    itself, and the keywords passed along. *)
Record request := {
  rq_group : operation_group;
  rq_verb : verb;
  rq_names : list string;
  rq_body : option ElementTree;
  rq_enrich : option bool;
  rq_match_condition : option MatchConditions;
  rq_kwargs : kwargs
}.

Inductive credential_class :=
| ServiceBusSharedKeyCredential
| ServiceBusSASTokenCredential
| TokenCredential.

Record credential := {
  cred_class : credential_class;
  get_token : string -> result string
}.

(** isinstance(credential, (ServiceBusSASTokenCredential,
    ServiceBusSharedKeyCredential)) *)
Definition is_sas_or_shared_key (c : credential) : bool :=
  match cred_class c with
  | ServiceBusSharedKeyCredential | ServiceBusSASTokenCredential => true
  | TokenCredential => false
  end.

Record client := {
  fully_qualified_namespace : string;
  _credential : credential;
  _impl : request -> result ElementTree
}.

(** ** Computations *)

(** What the client code itself does towards the outside: a call of
    [self._credential.get_token] made by the client (the supplementary
    tokens of [_create_forward_to_header_tokens]) and a call into the
    generated client.  What the generated client does with the credential
    on its own is not recorded. *)
Inductive event :=
| EvToken (scope : string) (ok : bool)
| EvRequest (guarded : bool) (r : request).

Record outcome (A : Type) := {
  out_result : result A;
  out_heap : heap;
  out_trace : list event
}.
Arguments out_result {A} o.
Arguments out_heap {A} o.
Arguments out_trace {A} o.

Definition M (A : Type) : Type := heap -> outcome A.

Definition ret {A} (a : A) : M A :=
  fun h => {| out_result := Ok a; out_heap := h; out_trace := [] |}.

Definition raise {A} (e : exn) : M A :=
  fun h => {| out_result := Raise e; out_heap := h; out_trace := [] |}.

Definition bind {A B} (m : M A) (k : A -> M B) : M B :=
  fun h =>
    let o := m h in
    match out_result o with
    | Ok a =>
        let o' := k a (out_heap o) in
        {| out_result := out_result o';
           out_heap := out_heap o';
           out_trace := out_trace o ++ out_trace o' |}
    | Raise e =>
        {| out_result := Raise e; out_heap := out_heap o; out_trace := out_trace o |}
    end.

Notation "'let*' x ':=' m 'in' k" := (bind m (fun x => k))
  (at level 10, x pattern, m at level 100, k at level 200).
Notation "m ';;' k" := (bind m (fun _ => k))
  (at level 100, k at level 200, right associativity).

(** A step that only touches the store. *)
Definition lift_heap {A} (f : heap -> result A * heap) : M A :=
  fun h => let '(r, h') := f h in
           {| out_result := r; out_heap := h'; out_trace := [] |}.

(** Raise the validator's exception, if it has one. *)
Definition check (v : option exn) : M unit :=
  match v with
  | Some e => raise e
  | None => ret tt
  end.

(** Object allocation. *)
Definition alloc (o : pyobj) : M loc :=
  lift_heap (fun h => let l := fresh (dom h) in (Ok l, <[l := o]> h)).

Definition deref (l : loc) : M pyobj :=
  lift_heap (fun h =>
    match h !! l with
    | Some o => (Ok o, h)
    | None => (Raise (AttributeError "dangling reference"), h)
    end).

(** A call into the generated client.  The client is seen from the
    outside: [_impl] answers a request or raises.  The pipeline behind it,
    which [_build_pipeline] equips with an authentication policy on the
    same credential, is part of the generated client; the tokens that this
    policy obtains for the request itself are not events of the trace. *)
Definition call (c : client) (r : request) : M ElementTree :=
  fun h => {| out_result := _impl c r; out_heap := h;
              out_trace := [EvRequest false r] |}.

(** [credential.get_token(scope).token] *)
Definition acquire_token (cr : credential) (scope : string) : M string :=
  fun h =>
    match get_token cr scope with
    | Ok t => {| out_result := Ok t; out_heap := h;
                 out_trace := [EvToken scope true] |}
    | Raise e => {| out_result := Raise e; out_heap := h;
                    out_trace := [EvToken scope false] |}
    end.

Definition enter_guard (ev : event) : event :=
  match ev with
  | EvRequest _ r => EvRequest true r
  | EvToken s ok => EvToken s ok
  end.

(** ** Call-site keyword arguments

    The keyword-only parameters of the three [create_*] operations that have
    them; every one defaults to [None]. *)

Module QueueKw.
Record t := {
  authorization_rules : pyval;
  auto_delete_on_idle : pyval;
  dead_lettering_on_message_expiration : pyval;
  default_message_time_to_live : pyval;
  duplicate_detection_history_time_window : pyval;
  enable_batched_operations : pyval;
  enable_express : pyval;
  enable_partitioning : pyval;
  lock_duration : pyval;
  max_delivery_count : pyval;
  max_size_in_megabytes : pyval;
  requires_duplicate_detection : pyval;
  requires_session : pyval;
  forward_to : option string;
  user_metadata : pyval;
  forward_dead_lettered_messages_to : option string;
  max_message_size_in_kilobytes : pyval
}.
Definition defaults : t :=
  Build_t PNone PNone PNone PNone PNone PNone PNone PNone PNone PNone PNone
          PNone PNone None PNone None PNone.
End QueueKw.

Module TopicKw.
Record t := {
  default_message_time_to_live : pyval;
  max_size_in_megabytes : pyval;
  requires_duplicate_detection : pyval;
  duplicate_detection_history_time_window : pyval;
  enable_batched_operations : pyval;
  size_in_bytes : pyval;
  filtering_messages_before_publishing : pyval;
  authorization_rules : pyval;
  support_ordering : pyval;
  auto_delete_on_idle : pyval;
  enable_partitioning : pyval;
  enable_express : pyval;
  user_metadata : pyval;
  max_message_size_in_kilobytes : pyval
}.
Definition defaults : t :=
  Build_t PNone PNone PNone PNone PNone PNone PNone PNone PNone PNone PNone
          PNone PNone PNone.
End TopicKw.

Module SubscriptionKw.
Record t := {
  lock_duration : pyval;
  requires_session : pyval;
  default_message_time_to_live : pyval;
  dead_lettering_on_message_expiration : pyval;
  dead_lettering_on_filter_evaluation_exceptions : pyval;
  max_delivery_count : pyval;
  enable_batched_operations : pyval;
  forward_to : option string;
  user_metadata : pyval;
  forward_dead_lettered_messages_to : option string;
  auto_delete_on_idle : pyval
}.
Definition defaults : t :=
  Build_t PNone PNone PNone PNone PNone PNone PNone None PNone None PNone.
End SubscriptionKw.

Definition of_optional_str (s : option string) : pyval :=
  match s with
  | Some s => PStr s
  | None => PNone
  end.

(** [kwargs.pop(key, None)] *)
Definition kwargs_pop (key : string) (kw : kwargs) : pyval * kwargs :=
  (default PNone (kw_other kw !! key),
   {| kw_headers := kw_headers kw; kw_other := delete key (kw_other kw) |}).

(** [kwargs["headers"] = kwargs.get("headers", {})] *)
Definition kwargs_ensure_headers (kw : kwargs) : kwargs :=
  {| kw_headers := Some (default ∅ (kw_headers kw)); kw_other := kw_other kw |}.

(** [kwargs["headers"][header] = token] *)
Definition kwargs_set_header (header token : string) (kw : kwargs) : kwargs :=
  {| kw_headers := Some (<[header := token]> (default ∅ (kw_headers kw)));
     kw_other := kw_other kw |}.

Definition header_of (kw : kwargs) (header : string) : option string :=
  default ∅ (kw_headers kw) !! header.

(** ** Collaborators from other modules *)

Inductive body_class :=
| CreateQueueBody | CreateTopicBody | CreateSubscriptionBody | CreateRuleBody.

(** What [_parse_conn_str] returns: endpoint, shared_access_key_name,
    shared_access_key, entity_path, token, token_expiry, emulator. *)
Record conn_str_parts := {
  cs_endpoint : string;
  cs_shared_access_key_name : option string;
  cs_shared_access_key : option string;
  cs_entity_path : option string;
  cs_token : option string;
  cs_token_expiry : option Z;
  cs_emulator : bool
}.

(** The functions and constants that the client imports from modules outside
    the sources under study.  The development is parametric in them. *)
Class Collaborators := {
  (* .._common.constants *)
  JWT_TOKEN_SCOPE : string;
  SUPPLEMENTARY_AUTHORIZATION_HEADER : string;
  DEAD_LETTER_SUPPLEMENTARY_AUTHORIZATION_HEADER : string;
  (* ._utils: each validator returns the exception it raises, if any; the
     second argument of the first is [display_name] when it is passed *)
  _validate_entity_name_type : string -> option string -> option exn;
  _validate_topic_and_subscription_types : string -> string -> option exn;
  _validate_topic_subscription_and_rule_types :
    string -> string -> string -> option exn;
  is_absolute_path : string -> bool;
  rooted_path : string -> string -> string;
  serialize_rule_key_values : ElementTree -> heap -> loc -> ElementTree;
  deserialize_rule_key_values : ElementTree -> loc -> heap -> heap;
  (* ._models: [obj._to_internal_entity(namespace, kwargs)] may change the
     store and pops the keywords it uses; [cls._from_internal_entity(name,
     description)] builds a new object *)
  _to_internal_entity :
    pyclass -> loc -> option string -> option kwargs -> heap ->
    result (description * kwargs) * heap;
  _from_internal_entity : pyclass -> string -> description -> pyobj;
  (* ._generated.models *)
  serialize : body_class -> description -> ElementTree;
  deserialize : entry_class -> ElementTree -> entry;
  (* ._handle_response_error: what the context manager re-raises for an
     exception leaving its block *)
  translate_error : exn -> exn
}.

(** Modelled from the spec: [_normalize_entity_path_to_full_path_if_needed]
    of ._utils, which is not among the sources.  Section 3: forward-to
    values are normalized to an absolute resource path rooted at the
    namespace: a bare entity name is expanded, an already-absolute path is
    passed through unchanged.  What an absolute path is, and how a name is
    rooted at a namespace, are the collaborators [is_absolute_path] and
    [rooted_path]; an absent value stays absent. *)
Definition _normalize_entity_path_to_full_path_if_needed {C : Collaborators}
    (entity_path : option string) (fully_qualified_namespace : string)
  : option string :=
  match entity_path with
  | None => None
  | Some p =>
      if is_absolute_path p then Some p
      else Some (rooted_path fully_qualified_namespace p)
  end.

(** [copy.deepcopy]: a fresh object for every object reached from the value,
    to the depth the interpreter's recursion limit allows. *)
Definition recursion_limit : nat := 1000.

(** The attributes of an object, copied one after the other with [copy]. *)
Fixpoint copy_slots (copy : pyval -> heap -> option (pyval * heap))
    (slots : list (string * pyval)) (h : heap)
  : option (list (string * pyval) * heap) :=
  match slots with
  | [] => Some ([], h)
  | (k, v) :: rest =>
      match copy v h with
      | None => None
      | Some (v', h1) =>
          match copy_slots copy rest h1 with
          | None => None
          | Some (rest', h2) => Some ((k, v') :: rest', h2)
          end
      end
  end.

Fixpoint deepcopy (fuel : nat) (v : pyval) (h : heap) : option (pyval * heap) :=
  match v with
  | PRef l =>
      match fuel with
      | O => None
      | S n =>
          match h !! l with
          | None => None
          | Some o =>
              match copy_slots (deepcopy n) (o_slots o) h with
              | None => None
              | Some (slots', h1) =>
                  let l' := fresh (dom h1) in
                  Some (PRef l',
                        <[l' := {| o_class := o_class o; o_slots := slots' |}]> h1)
              end
          end
      end
  | _ => Some (v, h)
  end.

Definition deepcopy_obj (l : loc) : M loc :=
  lift_heap (fun h =>
    match deepcopy recursion_limit (PRef l) h with
    | Some (PRef l', h') => (Ok l', h')
    | _ => (Raise RecursionError, h)
    end).

(** Modelled from the spec: [create_properties_from_dict_if_needed] of
    ._utils, which is not among the sources.  Section 9: callers may pass a
    plain mapping of field to value in place of a typed entity object; a
    mapping goes through an explicit constructor, so that the rest of the
    engine only handles the typed form.  A typed object is returned as it
    is. *)
Definition create_properties_from_dict_if_needed
    (properties : loc) (sb_resource_type : pyclass) : M loc :=
  let* o := deref properties in
  if decide (o_class o = PyDict)
  then alloc {| o_class := sb_resource_type; o_slots := o_slots o |}
  else ret properties.

(** [obj.name], which the generated client takes as a string. *)
Definition name_of (l : loc) : M string :=
  let* o := deref l in
  match getattr (o_slots o) "name" with
  | Some (PStr s) => ret s
  | Some _ => raise (TypeError "name must be a string")
  | None => raise (AttributeError "name")
  end.

(** ** Lazy listings

    [ItemPaged(get_next, extract_data)]: the two closures are built from the
    paging templates of ._utils and run only when the sequence is iterated,
    so building the sequence makes no request.  What the closures hold:
    the list operation of the generated client, its name arguments, the
    caller's keywords and the class of the items. *)
Inductive entity_type := ENTITY_TYPE_QUEUES | ENTITY_TYPE_TOPICS.

Inductive list_operation :=
| list_entities_of (t : entity_type)
| list_subscriptions_of (topic_name : string)
| list_rules_of (topic_name subscription_name : string).

Record ItemPaged := {
  paged_fetch : list_operation;
  paged_kwargs : kwargs;
  paged_item : pyclass
}.

(** ** Definition-time state

    A default argument is evaluated once, when the [def] statement runs:
    [filter=TrueRuleFilter()] in the signature of [create_rule] builds one
    object, kept in the function's keyword defaults. *)
Record kwdefaults := { create_rule_filter : loc }.

Definition new_TrueRuleFilter : pyobj :=
  {| o_class := TrueRuleFilter; o_slots := [] |}.

Definition exec_class_body : M kwdefaults :=
  let* filter := alloc new_TrueRuleFilter in
  ret {| create_rule_filter := filter |}.

(** ** ServiceBusAdministrationClient *)

Section ServiceBusAdministrationClient.
Context {C : Collaborators}.
Variable self : client.
Variable defaults : kwdefaults.

(** [with _handle_response_error(): body]: the requests of the body are made
    inside the block, and an exception leaving it is re-raised translated. *)
Definition _handle_response_error {A} (body : M A) : M A :=
  fun h =>
    let o := body h in
    {| out_result := match out_result o with
                     | Ok a => Ok a
                     | Raise e => Raise (translate_error e)
                     end;
       out_heap := out_heap o;
       out_trace := map enter_guard (out_trace o) |}.

(** [enrich] is a named parameter of the three [_get_*_element] helpers, so
    a caller's [enrich] keyword binds to it instead of staying in
    [kwargs]. *)
Definition bind_enrich (kw : kwargs) : pyval * kwargs :=
  match kw_other kw !! "enrich" with
  | Some v => (v, {| kw_headers := kw_headers kw;
                     kw_other := delete "enrich" (kw_other kw) |})
  | None => (PBool false, kw)
  end.

Definition enrich_flag (v : pyval) : option bool :=
  match v with
  | PBool b => Some b
  | _ => None
  end.

(** A call [f(..., keyword=value, **kwargs)] is a TypeError when [kwargs]
    has that keyword too; otherwise the request is made. *)
Definition call_passing (keyword : string) (r : request) : M ElementTree :=
  match kw_other (rq_kwargs r) !! keyword with
  | Some _ =>
      raise (TypeError ("got multiple values for keyword argument '"
                          +:+ keyword +:+ "'"))
  | None => call self r
  end.

Definition _get_entity_element (entity_name : string) (kw : kwargs)
  : M ElementTree :=
  let '(enrich, kw) := bind_enrich kw in
  check (_validate_entity_name_type entity_name None);;
  _handle_response_error
    (call self {| rq_group := entity_ops; rq_verb := GET;
                  rq_names := [entity_name]; rq_body := None;
                  rq_enrich := enrich_flag enrich;
                  rq_match_condition := None; rq_kwargs := kw |}).

Definition _get_subscription_element (topic_name subscription_name : string)
    (kw : kwargs) : M ElementTree :=
  let '(enrich, kw) := bind_enrich kw in
  check (_validate_topic_and_subscription_types topic_name subscription_name);;
  _handle_response_error
    (call self {| rq_group := subscription_ops; rq_verb := GET;
                  rq_names := [topic_name; subscription_name]; rq_body := None;
                  rq_enrich := enrich_flag enrich;
                  rq_match_condition := None; rq_kwargs := kw |}).

Definition _get_rule_element (topic_name subscription_name rule_name : string)
    (kw : kwargs) : M ElementTree :=
  check (_validate_topic_subscription_and_rule_types
           topic_name subscription_name rule_name);;
  _handle_response_error
    (call_passing "enrich"
       {| rq_group := rule_ops; rq_verb := GET;
          rq_names := [topic_name; subscription_name; rule_name];
          rq_body := None; rq_enrich := Some false;
          rq_match_condition := None; rq_kwargs := kw |}).

(** The inner function of [_create_forward_to_header_tokens]. *)
Definition _populate_header_within_kwargs (uri header : string) (kw : kwargs)
  : M kwargs :=
  let uri := if negb (is_sas_or_shared_key (_credential self))
             then JWT_TOKEN_SCOPE else uri in
  let* token := acquire_token (_credential self) uri in
  let token := if negb (is_sas_or_shared_key (_credential self))
               then "Bearer " +:+ token else token in
  ret (kwargs_set_header header token kw).

Definition _create_forward_to_header_tokens (entity : description) (kw : kwargs)
  : M kwargs :=
  let kw := kwargs_ensure_headers kw in
  let* kw :=
    match forward_to entity with
    | Some uri =>
        if truthy_str (Some uri)
        then _populate_header_within_kwargs
               uri SUPPLEMENTARY_AUTHORIZATION_HEADER kw
        else ret kw
    | None => ret kw
    end in
  match forward_dead_lettered_messages_to entity with
  | Some uri =>
      if truthy_str (Some uri)
      then _populate_header_within_kwargs
             uri DEAD_LETTER_SUPPLEMENTARY_AUTHORIZATION_HEADER kw
      else ret kw
  | None => ret kw
  end.

(** *** from_connection_string *)

Inductive credential_init :=
| NewSASTokenCredential (token : option string) (expiry : option Z)
| NewSharedKeyCredential (policy key : option string).

(** The arguments of [cls(endpoint, credential, api_version=..., **kwargs)]. *)
Record client_init := {
  init_fully_qualified_namespace : string;
  init_credential : credential_init;
  init_use_tls : bool
}.

(** [endpoint[endpoint.index("//") + 2 :]] when ["//" in endpoint] *)
Definition strip_scheme (endpoint : string) : string :=
  match String.index 0 "//" endpoint with
  | Some i => String.substring (i + 2) (String.length endpoint - (i + 2)) endpoint
  | None => endpoint
  end.

(** [_parse_conn_str] is a function of .._base_handler, which is not among
    the sources, and connection-string parsing is outside the design
    document: the parser is an argument here, and nothing is assumed of
    what it accepts or returns. *)
Definition from_connection_string
    (_parse_conn_str : string -> result conn_str_parts) (conn_str : string)
  : result client_init :=
  match _parse_conn_str conn_str with
  | Raise e => Raise e
  | Ok p =>
      let use_tls := negb (cs_emulator p) in
      (* the local [credential] is bound in two of the three branches *)
      let credential : option credential_init :=
        if truthy_str (cs_token p) && truthy_int (cs_token_expiry p)
        then Some (NewSASTokenCredential (cs_token p) (cs_token_expiry p))
        else if truthy_str (cs_shared_access_key_name p)
                && truthy_str (cs_shared_access_key p)
        then Some (NewSharedKeyCredential (cs_shared_access_key_name p)
                     (cs_shared_access_key p))
        else None in
      let endpoint := strip_scheme (cs_endpoint p) in
      match credential with
      | None => Raise (UnboundLocalError "credential")
      | Some credential =>
          Ok {| init_fully_qualified_namespace := endpoint;
                init_credential := credential;
                init_use_tls := use_tls |}
      end
  end.

(** *** Queues *)

Definition get_queue (queue_name : string) (kw : kwargs) : M loc :=
  let* entry_ele := _get_entity_element queue_name kw in
  let entry := deserialize QueueDescriptionEntry entry_ele in
  match content entry with
  | None =>
      raise (ResourceNotFoundError ("Queue '" +:+ queue_name +:+ "' does not exist"))
  | Some queue_description =>
      alloc (_from_internal_entity QueueProperties queue_name queue_description)
  end.

Definition get_queue_runtime_properties (queue_name : string) (kw : kwargs)
  : M loc :=
  let* entry_ele := _get_entity_element queue_name kw in
  let entry := deserialize QueueDescriptionEntry entry_ele in
  match content entry with
  | None =>
      raise (ResourceNotFoundError ("Queue " +:+ queue_name +:+ " does not exist"))
  | Some queue_description =>
      alloc (_from_internal_entity QueueRuntimeProperties queue_name
               queue_description)
  end.

(** [QueueProperties(queue_name, authorization_rules=..., ...)] as
    [create_queue] calls it: an object holding the arguments. *)
Definition new_QueueProperties (queue_name : string) (a : QueueKw.t)
    (status : pyval) (forward_to forward_dead_lettered_messages_to : option string)
  : pyobj :=
  {| o_class := QueueProperties;
     o_slots :=
       [ ("name", PStr queue_name);
         ("authorization_rules", QueueKw.authorization_rules a);
         ("auto_delete_on_idle", QueueKw.auto_delete_on_idle a);
         ("dead_lettering_on_message_expiration",
           QueueKw.dead_lettering_on_message_expiration a);
         ("default_message_time_to_live", QueueKw.default_message_time_to_live a);
         ("duplicate_detection_history_time_window",
           QueueKw.duplicate_detection_history_time_window a);
         ("availability_status", PNone);
         ("enable_batched_operations", QueueKw.enable_batched_operations a);
         ("enable_express", QueueKw.enable_express a);
         ("enable_partitioning", QueueKw.enable_partitioning a);
         ("lock_duration", QueueKw.lock_duration a);
         ("max_delivery_count", QueueKw.max_delivery_count a);
         ("max_size_in_megabytes", QueueKw.max_size_in_megabytes a);
         ("requires_duplicate_detection", QueueKw.requires_duplicate_detection a);
         ("requires_session", QueueKw.requires_session a);
         ("status", status);
         ("forward_to", of_optional_str forward_to);
         ("forward_dead_lettered_messages_to",
           of_optional_str forward_dead_lettered_messages_to);
         ("user_metadata", QueueKw.user_metadata a);
         ("max_message_size_in_kilobytes",
           QueueKw.max_message_size_in_kilobytes a) ] |}.

(** [entry.content.x_description] after [cast]: a missing content is an
    attribute error on [None]. *)
Definition content_of (e : entry) : M description :=
  match content e with
  | Some d => ret d
  | None => raise (AttributeError "'NoneType' object has no attribute")
  end.

Definition create_queue (queue_name : string) (a : QueueKw.t) (kw : kwargs)
  : M loc :=
  let forward_to :=
    _normalize_entity_path_to_full_path_if_needed
      (QueueKw.forward_to a) (fully_qualified_namespace self) in
  let forward_dead_lettered_messages_to :=
    _normalize_entity_path_to_full_path_if_needed
      (QueueKw.forward_dead_lettered_messages_to a)
      (fully_qualified_namespace self) in
  let '(status, kw) := kwargs_pop "status" kw in
  let* queue := alloc (new_QueueProperties queue_name a status forward_to
                         forward_dead_lettered_messages_to) in
  let* (to_create, _) :=
    lift_heap (_to_internal_entity QueueProperties queue
                 (Some (fully_qualified_namespace self)) None) in
  let request_body := serialize CreateQueueBody to_create in
  let* kw := _create_forward_to_header_tokens to_create kw in
  let* entry_ele :=
    _handle_response_error
      (call self {| rq_group := entity_ops; rq_verb := PUT;
                    rq_names := [queue_name]; rq_body := Some request_body;
                    rq_enrich := None; rq_match_condition := None;
                    rq_kwargs := kw |}) in
  let entry := deserialize QueueDescriptionEntry entry_ele in
  let* queue_description := content_of entry in
  alloc (_from_internal_entity QueueProperties queue_name queue_description).

Definition update_queue (queue : loc) (kw : kwargs) : M unit :=
  (* we should not mutate the input, making a copy first for update *)
  let* queue := create_properties_from_dict_if_needed queue QueueProperties in
  let* queue := deepcopy_obj queue in
  let* (to_update, kw) :=
    lift_heap (_to_internal_entity QueueProperties queue
                 (Some (fully_qualified_namespace self)) (Some kw)) in
  let request_body := serialize CreateQueueBody to_update in
  let* kw := _create_forward_to_header_tokens to_update kw in
  _handle_response_error
    (let* name := name_of queue in
     call_passing "match_condition" {| rq_group := entity_ops; rq_verb := PUT;
                        rq_names := [name]; rq_body := Some request_body;
                        rq_enrich := None;
                        rq_match_condition := Some IfPresent;
                        rq_kwargs := kw |});;
  ret tt.

Definition delete_queue (queue_name : string) (kw : kwargs) : M unit :=
  check (_validate_entity_name_type queue_name None);;
  if negb (truthy_str (Some queue_name))
  then raise (ValueError "queue_name must not be None or empty")
  else
    _handle_response_error
      (call self {| rq_group := entity_ops; rq_verb := DELETE;
                    rq_names := [queue_name]; rq_body := None;
                    rq_enrich := None; rq_match_condition := None;
                    rq_kwargs := kw |});;
    ret tt.

(** *** Topics *)

Definition get_topic (topic_name : string) (kw : kwargs) : M loc :=
  let* entry_ele := _get_entity_element topic_name kw in
  let entry := deserialize TopicDescriptionEntry entry_ele in
  match content entry with
  | None =>
      raise (ResourceNotFoundError ("Topic '" +:+ topic_name +:+ "' does not exist"))
  | Some topic_description =>
      alloc (_from_internal_entity TopicProperties topic_name topic_description)
  end.

Definition get_topic_runtime_properties (topic_name : string) (kw : kwargs)
  : M loc :=
  let* entry_ele := _get_entity_element topic_name kw in
  let entry := deserialize TopicDescriptionEntry entry_ele in
  match content entry with
  | None =>
      raise (ResourceNotFoundError ("Topic " +:+ topic_name +:+ " does not exist"))
  | Some topic_description =>
      alloc (_from_internal_entity TopicRuntimeProperties topic_name
               topic_description)
  end.

(** [TopicProperties(topic_name, ..., **kwargs)] as [create_topic] calls it;
    the remaining string-keyed keywords of the caller come last. *)
Definition new_TopicProperties (topic_name : string) (a : TopicKw.t)
    (status : pyval) (kw : kwargs) : pyobj :=
  {| o_class := TopicProperties;
     o_slots :=
       [ ("name", PStr topic_name);
         ("default_message_time_to_live", TopicKw.default_message_time_to_live a);
         ("max_size_in_megabytes", TopicKw.max_size_in_megabytes a);
         ("requires_duplicate_detection", TopicKw.requires_duplicate_detection a);
         ("duplicate_detection_history_time_window",
           TopicKw.duplicate_detection_history_time_window a);
         ("enable_batched_operations", TopicKw.enable_batched_operations a);
         ("size_in_bytes", TopicKw.size_in_bytes a);
         ("authorization_rules", TopicKw.authorization_rules a);
         ("filtering_messages_before_publishing",
           TopicKw.filtering_messages_before_publishing a);
         ("status", status);
         ("support_ordering", TopicKw.support_ordering a);
         ("auto_delete_on_idle", TopicKw.auto_delete_on_idle a);
         ("enable_partitioning", TopicKw.enable_partitioning a);
         ("availability_status", PNone);
         ("enable_express", TopicKw.enable_express a);
         ("user_metadata", TopicKw.user_metadata a);
         ("max_message_size_in_kilobytes",
           TopicKw.max_message_size_in_kilobytes a) ]
       ++ map_to_list (kw_other kw) |}.

Definition create_topic (topic_name : string) (a : TopicKw.t) (kw : kwargs)
  : M loc :=
  let '(status, kw) := kwargs_pop "status" kw in
  let* topic := alloc (new_TopicProperties topic_name a status kw) in
  let* (to_create, _) :=
    lift_heap (_to_internal_entity TopicProperties topic None None) in
  let request_body := serialize CreateTopicBody to_create in
  let* entry_ele :=
    _handle_response_error
      (call self {| rq_group := entity_ops; rq_verb := PUT;
                    rq_names := [topic_name]; rq_body := Some request_body;
                    rq_enrich := None; rq_match_condition := None;
                    rq_kwargs := kw |}) in
  let entry := deserialize TopicDescriptionEntry entry_ele in
  let* topic_description := content_of entry in
  alloc (_from_internal_entity TopicProperties topic_name topic_description).

Definition update_topic (topic : loc) (kw : kwargs) : M unit :=
  (* we should not mutate the input, making a copy first for update *)
  let* topic := create_properties_from_dict_if_needed topic TopicProperties in
  let* topic := deepcopy_obj topic in
  let* (to_update, kw) :=
    lift_heap (_to_internal_entity TopicProperties topic None (Some kw)) in
  let request_body := serialize CreateTopicBody to_update in
  _handle_response_error
    (let* name := name_of topic in
     call_passing "match_condition" {| rq_group := entity_ops; rq_verb := PUT;
                        rq_names := [name]; rq_body := Some request_body;
                        rq_enrich := None;
                        rq_match_condition := Some IfPresent;
                        rq_kwargs := kw |});;
  ret tt.

Definition delete_topic (topic_name : string) (kw : kwargs) : M unit :=
  check (_validate_entity_name_type topic_name None);;
  call self {| rq_group := entity_ops; rq_verb := DELETE;
               rq_names := [topic_name]; rq_body := None;
               rq_enrich := None; rq_match_condition := None;
               rq_kwargs := kw |};;
  ret tt.

(** *** Subscriptions *)

Definition subscription_not_found (topic_name subscription_name : string) : exn :=
  ResourceNotFoundError
    ("Subscription('Topic: " +:+ subscription_name +:+ ", Subscription: "
       +:+ topic_name +:+ "') does not exist").

Definition get_subscription (topic_name subscription_name : string)
    (kw : kwargs) : M loc :=
  let* entry_ele := _get_subscription_element topic_name subscription_name kw in
  let entry := deserialize SubscriptionDescriptionEntry entry_ele in
  match content entry with
  | None => raise (subscription_not_found topic_name subscription_name)
  | Some subscription_description =>
      alloc (_from_internal_entity SubscriptionProperties subscription_name
               subscription_description)
  end.

Definition get_subscription_runtime_properties
    (topic_name subscription_name : string) (kw : kwargs) : M loc :=
  let* entry_ele := _get_subscription_element topic_name subscription_name kw in
  let entry := deserialize SubscriptionDescriptionEntry entry_ele in
  match content entry with
  | None => raise (subscription_not_found topic_name subscription_name)
  | Some subscription_description =>
      alloc (_from_internal_entity SubscriptionRuntimeProperties
               subscription_name subscription_description)
  end.

(** [SubscriptionProperties(subscription_name, lock_duration=..., ...)] as
    [create_subscription] calls it. *)
Definition new_SubscriptionProperties (subscription_name : string)
    (a : SubscriptionKw.t) (status : pyval)
    (forward_to forward_dead_lettered_messages_to : option string) : pyobj :=
  {| o_class := SubscriptionProperties;
     o_slots :=
       [ ("name", PStr subscription_name);
         ("lock_duration", SubscriptionKw.lock_duration a);
         ("requires_session", SubscriptionKw.requires_session a);
         ("default_message_time_to_live",
           SubscriptionKw.default_message_time_to_live a);
         ("dead_lettering_on_message_expiration",
           SubscriptionKw.dead_lettering_on_message_expiration a);
         ("dead_lettering_on_filter_evaluation_exceptions",
           SubscriptionKw.dead_lettering_on_filter_evaluation_exceptions a);
         ("max_delivery_count", SubscriptionKw.max_delivery_count a);
         ("enable_batched_operations", SubscriptionKw.enable_batched_operations a);
         ("status", status);
         ("forward_to", of_optional_str forward_to);
         ("user_metadata", SubscriptionKw.user_metadata a);
         ("forward_dead_lettered_messages_to",
           of_optional_str forward_dead_lettered_messages_to);
         ("auto_delete_on_idle", SubscriptionKw.auto_delete_on_idle a);
         ("availability_status", PNone) ] |}.

Definition create_subscription (topic_name subscription_name : string)
    (a : SubscriptionKw.t) (kw : kwargs) : M loc :=
  check (_validate_entity_name_type topic_name (Some "topic_name"));;
  let forward_to :=
    _normalize_entity_path_to_full_path_if_needed
      (SubscriptionKw.forward_to a) (fully_qualified_namespace self) in
  let forward_dead_lettered_messages_to :=
    _normalize_entity_path_to_full_path_if_needed
      (SubscriptionKw.forward_dead_lettered_messages_to a)
      (fully_qualified_namespace self) in
  let '(status, kw) := kwargs_pop "status" kw in
  let* subscription :=
    alloc (new_SubscriptionProperties subscription_name a status forward_to
             forward_dead_lettered_messages_to) in
  let* (to_create, _) :=
    lift_heap (_to_internal_entity SubscriptionProperties subscription
                 (Some (fully_qualified_namespace self)) None) in
  let request_body := serialize CreateSubscriptionBody to_create in
  let* kw := _create_forward_to_header_tokens to_create kw in
  let* entry_ele :=
    _handle_response_error
      (call self {| rq_group := subscription_ops; rq_verb := PUT;
                    rq_names := [topic_name; subscription_name];
                    rq_body := Some request_body;
                    rq_enrich := None; rq_match_condition := None;
                    rq_kwargs := kw |}) in
  let entry := deserialize SubscriptionDescriptionEntry entry_ele in
  let* subscription_description := content_of entry in
  alloc (_from_internal_entity SubscriptionProperties subscription_name
           subscription_description).

Definition update_subscription (topic_name : string) (subscription : loc)
    (kw : kwargs) : M unit :=
  check (_validate_entity_name_type topic_name (Some "topic_name"));;
  (* we should not mutate the input, making a copy first for update *)
  let* subscription :=
    create_properties_from_dict_if_needed subscription SubscriptionProperties in
  let* subscription := deepcopy_obj subscription in
  let* (to_update, kw) :=
    lift_heap (_to_internal_entity SubscriptionProperties subscription
                 (Some (fully_qualified_namespace self)) (Some kw)) in
  let request_body := serialize CreateSubscriptionBody to_update in
  let* kw := _create_forward_to_header_tokens to_update kw in
  _handle_response_error
    (let* name := name_of subscription in
     call_passing "match_condition" {| rq_group := subscription_ops; rq_verb := PUT;
                        rq_names := [topic_name; name];
                        rq_body := Some request_body;
                        rq_enrich := None;
                        rq_match_condition := Some IfPresent;
                        rq_kwargs := kw |});;
  ret tt.

Definition delete_subscription (topic_name subscription_name : string)
    (kw : kwargs) : M unit :=
  check (_validate_topic_and_subscription_types topic_name subscription_name);;
  call self {| rq_group := subscription_ops; rq_verb := DELETE;
               rq_names := [topic_name; subscription_name]; rq_body := None;
               rq_enrich := None; rq_match_condition := None;
               rq_kwargs := kw |};;
  ret tt.

(** *** Rules *)

Definition rule_not_found (topic_name subscription_name rule_name : string) : exn :=
  ResourceNotFoundError
    ("Rule('Topic: " +:+ subscription_name +:+ ", Subscription: " +:+ topic_name
       +:+ ", Rule " +:+ rule_name +:+ "') does not exist").

Definition get_rule (topic_name subscription_name rule_name : string)
    (kw : kwargs) : M loc :=
  let* entry_ele :=
    _get_rule_element topic_name subscription_name rule_name kw in
  let entry := deserialize RuleDescriptionEntry entry_ele in
  match content entry with
  | None => raise (rule_not_found topic_name subscription_name rule_name)
  | Some rule =>
      let* rule_description :=
        alloc (_from_internal_entity RuleProperties rule_name rule) in
      lift_heap (fun h =>
        (Ok tt, deserialize_rule_key_values entry_ele rule_description h));;
      ret rule_description
  end.

(** [RuleProperties(rule_name, filter=filter, action=action,
    created_at_utc=None)] *)
Definition new_RuleProperties (rule_name : string) (filter action : pyval)
  : pyobj :=
  {| o_class := RuleProperties;
     o_slots := [ ("name", PStr rule_name); ("filter", filter);
                  ("action", action); ("created_at_utc", PNone) ] |}.

(** Binding of the keyword-only parameter [filter]: the caller's argument,
    or else the object that the [def] statement built. *)
Definition bind_filter (filter : option pyval) : pyval :=
  match filter with
  | Some v => v
  | None => PRef (create_rule_filter defaults)
  end.

Definition create_rule (topic_name subscription_name rule_name : string)
    (filter : option pyval) (action : pyval) (kw : kwargs) : M loc :=
  let filter := bind_filter filter in
  check (_validate_topic_and_subscription_types topic_name subscription_name);;
  let* rule := alloc (new_RuleProperties rule_name filter action) in
  let* (to_create, _) :=
    lift_heap (_to_internal_entity RuleProperties rule None None) in
  let request_body := serialize CreateRuleBody to_create in
  let* request_body :=
    lift_heap (fun h => (Ok (serialize_rule_key_values request_body h rule), h)) in
  let* entry_ele :=
    _handle_response_error
      (call self {| rq_group := rule_ops; rq_verb := PUT;
                    rq_names := [topic_name; subscription_name; rule_name];
                    rq_body := Some request_body;
                    rq_enrich := None; rq_match_condition := None;
                    rq_kwargs := kw |}) in
  let entry := deserialize RuleDescriptionEntry entry_ele in
  let* rule_description := content_of entry in
  let* result :=
    alloc (_from_internal_entity RuleProperties rule_name rule_description) in
  lift_heap (fun h => (Ok tt, deserialize_rule_key_values entry_ele result h));;
  ret result.

Definition update_rule (topic_name subscription_name : string) (rule : loc)
    (kw : kwargs) : M unit :=
  check (_validate_topic_and_subscription_types topic_name subscription_name);;
  (* we should not mutate the input, making a copy first for update *)
  let* rule := create_properties_from_dict_if_needed rule RuleProperties in
  let* rule := deepcopy_obj rule in
  let* (to_update, kw) :=
    lift_heap (_to_internal_entity RuleProperties rule None (Some kw)) in
  let request_body := serialize CreateRuleBody to_update in
  let* request_body :=
    lift_heap (fun h => (Ok (serialize_rule_key_values request_body h rule), h)) in
  _handle_response_error
    (let* name := name_of rule in
     call_passing "match_condition" {| rq_group := rule_ops; rq_verb := PUT;
                        rq_names := [topic_name; subscription_name; name];
                        rq_body := Some request_body;
                        rq_enrich := None;
                        rq_match_condition := Some IfPresent;
                        rq_kwargs := kw |});;
  ret tt.

Definition delete_rule (topic_name subscription_name rule_name : string)
    (kw : kwargs) : M unit :=
  check (_validate_topic_subscription_and_rule_types
           topic_name subscription_name rule_name);;
  call self {| rq_group := rule_ops; rq_verb := DELETE;
               rq_names := [topic_name; subscription_name; rule_name];
               rq_body := None; rq_enrich := None;
               rq_match_condition := None; rq_kwargs := kw |};;
  ret tt.

(** *** Listings *)

Definition list_queues (kw : kwargs) : M ItemPaged :=
  ret {| paged_fetch := list_entities_of ENTITY_TYPE_QUEUES;
         paged_kwargs := kw; paged_item := QueueProperties |}.

Definition list_queues_runtime_properties (kw : kwargs) : M ItemPaged :=
  ret {| paged_fetch := list_entities_of ENTITY_TYPE_QUEUES;
         paged_kwargs := kw; paged_item := QueueRuntimeProperties |}.

Definition list_topics (kw : kwargs) : M ItemPaged :=
  ret {| paged_fetch := list_entities_of ENTITY_TYPE_TOPICS;
         paged_kwargs := kw; paged_item := TopicProperties |}.

Definition list_topics_runtime_properties (kw : kwargs) : M ItemPaged :=
  ret {| paged_fetch := list_entities_of ENTITY_TYPE_TOPICS;
         paged_kwargs := kw; paged_item := TopicRuntimeProperties |}.

Definition list_subscriptions (topic_name : string) (kw : kwargs) : M ItemPaged :=
  check (_validate_entity_name_type topic_name None);;
  ret {| paged_fetch := list_subscriptions_of topic_name;
         paged_kwargs := kw; paged_item := SubscriptionProperties |}.

Definition list_subscriptions_runtime_properties (topic_name : string)
    (kw : kwargs) : M ItemPaged :=
  check (_validate_entity_name_type topic_name None);;
  ret {| paged_fetch := list_subscriptions_of topic_name;
         paged_kwargs := kw; paged_item := SubscriptionRuntimeProperties |}.

Definition list_rules (topic_name subscription_name : string) (kw : kwargs)
  : M ItemPaged :=
  check (_validate_topic_and_subscription_types topic_name subscription_name);;
  ret {| paged_fetch := list_rules_of topic_name subscription_name;
         paged_kwargs := kw; paged_item := RuleProperties |}.

(** *** Namespace *)

Definition get_namespace_properties (kw : kwargs) : M loc :=
  let* entry_el :=
    call self {| rq_group := namespace_ops; rq_verb := GET;
                 rq_names := []; rq_body := None; rq_enrich := None;
                 rq_match_condition := None; rq_kwargs := kw |} in
  let namespace_entry := deserialize NamespacePropertiesEntry entry_el in
  let* namespace_properties := content_of namespace_entry in
  alloc (_from_internal_entity NamespaceProperties (title namespace_entry)
           namespace_properties).

End ServiceBusAdministrationClient.

(** ** Reachability in the store, and the footprint of the model layer *)

(** The references among a list of attributes. *)
Definition slot_refs (slots : list (string * pyval)) : list loc :=
  omap (fun kv => match kv.2 with PRef l => Some l | _ => None end) slots.

(** The objects that an object refers to. *)
Definition refs_of (o : pyobj) : list loc := slot_refs (o_slots o).

Definition points_to (h : heap) (l l' : loc) : Prop :=
  exists o, h !! l = Some o /\ l' ∈ refs_of o.

Definition reachable (h : heap) : loc -> loc -> Prop := rtc (points_to h).

(** [obj._to_internal_entity(...)] is a method of the properties object: it
    writes to [obj] and to what [obj] refers to, and to nothing else that
    exists already. *)
Definition to_internal_entity_writes_self_only {C : Collaborators} : Prop :=
  forall cls l ns kw (h : heap) l',
    l' ∈ dom h -> ~ reachable h l l' ->
    (_to_internal_entity cls l ns kw h).2 !! l' = h !! l'.

(** Objects that did not exist in [h0] refer only to objects that did not
    exist in [h0]. *)
Definition fresh_closed (h0 h : heap) : Prop :=
  forall l o l', l ∉ dom h0 -> h !! l = Some o -> l' ∈ refs_of o -> l' ∉ dom h0.

(** What copying a value into a store that extends [h0] guarantees: the
    store only grows, new objects refer to new objects, and a copied
    reference is new. *)
Definition copy_ok (h0 : heap) (copy : pyval -> heap -> option (pyval * heap))
  : Prop :=
  forall v h v' h',
    dom h0 ⊆ dom h -> fresh_closed h0 h -> copy v h = Some (v', h') ->
    h ⊆ h' /\ fresh_closed h0 h' /\ (forall l', v' = PRef l' -> l' ∉ dom h0).

(** The objects below a value nest at most [n] deep. *)
Fixpoint depth_le (h : heap) (n : nat) (v : pyval) : Prop :=
  match v with
  | PRef l =>
      match n with
      | O => False
      | S n' =>
          exists o, h !! l = Some o
                    /\ Forall (fun kv => depth_le h n' kv.2) (o_slots o)
      end
  | _ => True
  end.

(** ** Reading traces *)

Definition is_token (ev : event) : bool :=
  match ev with EvToken _ _ => true | EvRequest _ _ => false end.

Definition is_request (ev : event) : bool :=
  match ev with EvToken _ _ => false | EvRequest _ _ => true end.

Definition requests_of (tr : list event) : list request :=
  omap (fun ev => match ev with EvRequest _ r => Some r | _ => None end) tr.

(** Every request of the trace satisfies [P]. *)
Definition all_requests (P : bool -> request -> Prop) (tr : list event) : Prop :=
  Forall (fun ev => match ev with
                    | EvRequest g r => P g r
                    | EvToken _ _ => True
                    end) tr.



(** An operation that stops before it reaches the service or the
    credential: it raises [e], records nothing and leaves the store as it
    was. *)
Definition rejected_locally {A} (m : M A) (h : heap) (e : exn) : Prop :=
  out_result (m h) = Raise e /\ out_trace (m h) = [] /\ out_heap (m h) = h.

(** Only token acquisitions, and after a failed one an exception. *)
Definition token_phase {A} (o : outcome A) : Prop :=
  forallb is_token (out_trace o) = true
  /\ (forall scope, In (EvToken scope false) (out_trace o) ->
                    exists e, out_result o = Raise e).

(** Only requests. *)
Definition request_phase {A} (o : outcome A) : Prop :=
  forallb is_request (out_trace o) = true.

(** The claim that a default filter is never shared, read on a store: two
    distinct rule objects never hold the same filter object. *)
Definition filters_never_shared (h : heap) : Prop :=
  forall l1 l2 o1 o2 f,
    l1 <> l2 ->
    h !! l1 = Some o1 -> o_class o1 = RuleProperties ->
    h !! l2 = Some o2 -> o_class o2 = RuleProperties ->
    getattr (o_slots o1) "filter" = Some (PRef f) ->
    getattr (o_slots o2) "filter" <> Some (PRef f).

(** ** A concrete environment

    One choice of collaborators, service and credential, on which the
    operations can be run.  The validators check the type of a name, as
    their names say, so they accept every string; the constants are the
    values of the service; the translation of errors follows sections 4.3
    and 7 of the design: not-found becomes NotFound, precondition-failed
    becomes Conflict, any other status a transport failure. *)
Module Demo.

Definition contains_scheme (p : string) : bool :=
  match String.index 0 "://" p with
  | Some _ => true
  | None => false
  end.

Definition slot_str (slots : list (string * pyval)) (k : string) : option string :=
  match getattr slots k with
  | Some (PStr s) => Some s
  | _ => None
  end.

(** Reads the two forward targets of the object, remembers on the object
    that it was converted, and leaves the keywords as they are. *)
Definition to_internal (cls : pyclass) (l : loc) (ns : option string)
    (kw : option kwargs) (h : heap) : result (description * kwargs) * heap :=
  match h !! l with
  | None => (Raise (AttributeError "dangling reference"), h)
  | Some o =>
      (Ok ({| forward_to := slot_str (o_slots o) "forward_to";
              forward_dead_lettered_messages_to :=
                slot_str (o_slots o) "forward_dead_lettered_messages_to";
              d_fields := o_slots o |},
           default no_kwargs kw),
       <[l := {| o_class := o_class o;
                 o_slots := o_slots o ++ [("_internal", PBool true)] |}]> h)
  end.

Definition translate (e : exn) : exn :=
  match e with
  | HttpResponseError 404 => ResourceNotFoundError "not found"
  | HttpResponseError 412 => ServiceError "Conflict"
  | HttpResponseError _ => ServiceError "TransportFailure"
  | e => e
  end.

Definition encode (b : body_class) (d : description) : ElementTree :=
  Element "entry" []
    "" [Element "content" [] (default "" (forward_to d)) []].

Definition decode (c : entry_class) (e : ElementTree) : entry :=
  match e with
  | Element _ _ t (Element _ _ target _ :: _) =>
      {| title := t;
         content := Some {| forward_to := Some target;
                            forward_dead_lettered_messages_to := None;
                            d_fields := [] |} |}
  | Element _ _ t [] => {| title := t; content := None |}
  end.

Definition collaborators : Collaborators := {|
  JWT_TOKEN_SCOPE := "https://servicebus.azure.net//.default";
  SUPPLEMENTARY_AUTHORIZATION_HEADER := "ServiceBusSupplementaryAuthorization";
  DEAD_LETTER_SUPPLEMENTARY_AUTHORIZATION_HEADER :=
    "ServiceBusDlqSupplementaryAuthorization";
  _validate_entity_name_type := fun _ _ => None;
  _validate_topic_and_subscription_types := fun _ _ => None;
  _validate_topic_subscription_and_rule_types := fun _ _ _ => None;
  is_absolute_path := contains_scheme;
  rooted_path := fun ns p => "sb://" +:+ ns +:+ "/" +:+ p;
  serialize_rule_key_values := fun body _ _ => body;
  deserialize_rule_key_values := fun _ _ h => h;
  _to_internal_entity := to_internal;
  _from_internal_entity := fun cls name d =>
    {| o_class := cls; o_slots := ("name", PStr name) :: d_fields d |};
  serialize := encode;
  deserialize := decode;
  translate_error := translate
|}.

(** A credential that issues a token for every scope, and one that fails. *)
Definition shared_key : credential :=
  {| cred_class := ServiceBusSharedKeyCredential;
     get_token := fun scope => Ok ("sig:" +:+ scope) |}.

Definition aad : credential :=
  {| cred_class := TokenCredential;
     get_token := fun scope => Ok "jwt" |}.

Definition failing : credential :=
  {| cred_class := TokenCredential;
     get_token := fun scope => Raise (ServiceError "AuthorizationFailure") |}.

(** A namespace without entities: every read answers an entry without
    content, every deletion is a 404, every write echoes an entry. *)
Definition empty_namespace (r : request) : result ElementTree :=
  match rq_verb r with
  | GET => Ok (Element "entry" [] "" [])
  | DELETE => Raise (HttpResponseError 404)
  | PUT => Ok (Element "entry" [] "" [Element "content" [] "" []])
  end.

Definition admin (cr : credential) : client :=
  {| fully_qualified_namespace := "ns.servicebus.windows.net";
     _credential := cr;
     _impl := empty_namespace |}.

(** The store and the keyword defaults once the class body has run. *)
Definition loaded : outcome kwdefaults := exec_class_body ∅.

Definition kwdefaults0 : kwdefaults :=
  match out_result loaded with
  | Ok d => d
  | Raise _ => {| create_rule_filter := 1%positive |}
  end.

Definition heap0 : heap := out_heap loaded.

End Demo.

(** The same environment with validators that reject the empty name. *)
Module Strict.

Definition non_empty (name : string) : option exn :=
  if String.eqb name "" then Some (ValueError "name must not be empty") else None.

Definition collaborators : Collaborators := {|
  JWT_TOKEN_SCOPE := JWT_TOKEN_SCOPE (Collaborators := Demo.collaborators);
  SUPPLEMENTARY_AUTHORIZATION_HEADER :=
    SUPPLEMENTARY_AUTHORIZATION_HEADER (Collaborators := Demo.collaborators);
  DEAD_LETTER_SUPPLEMENTARY_AUTHORIZATION_HEADER :=
    DEAD_LETTER_SUPPLEMENTARY_AUTHORIZATION_HEADER
      (Collaborators := Demo.collaborators);
  _validate_entity_name_type := fun name _ => non_empty name;
  _validate_topic_and_subscription_types := fun topic subscription =>
    match non_empty topic with
    | Some e => Some e
    | None => non_empty subscription
    end;
  _validate_topic_subscription_and_rule_types := fun topic subscription rule =>
    match non_empty topic with
    | Some e => Some e
    | None => match non_empty subscription with
              | Some e => Some e
              | None => non_empty rule
              end
    end;
  is_absolute_path := Demo.contains_scheme;
  rooted_path := fun ns p => "sb://" +:+ ns +:+ "/" +:+ p;
  serialize_rule_key_values := fun body _ _ => body;
  deserialize_rule_key_values := fun _ _ h => h;
  _to_internal_entity := Demo.to_internal;
  _from_internal_entity := fun cls name d =>
    {| o_class := cls; o_slots := ("name", PStr name) :: d_fields d |};
  serialize := Demo.encode;
  deserialize := Demo.decode;
  translate_error := Demo.translate
|}.

End Strict.

(** Two rules created one after the other, neither with a filter argument,
    once the class body has run. *)
Definition two_default_rules : outcome loc :=
  bind (create_rule (C := Demo.collaborators) (Demo.admin Demo.aad)
          Demo.kwdefaults0 "t" "s" "r1" None PNone no_kwargs)
       (fun _ => create_rule (C := Demo.collaborators) (Demo.admin Demo.aad)
                   Demo.kwdefaults0 "t" "s" "r2" None PNone no_kwargs)
       Demo.heap0.

(** A store with an entity that holds a list of authorization rules, as a
    caller would have it after [get_queue]. *)
Definition caller_store : heap :=
  {[ 1%positive := {| o_class := QueueProperties;
                      o_slots := [("name", PStr "q");
                                  ("authorization_rules", PRef 2%positive);
                                  ("max_delivery_count", PInt 10)] |};
     2%positive := {| o_class := PyList;
                      o_slots := [("0", PRef 3%positive)] |};
     3%positive := {| o_class := AuthorizationRule;
                      o_slots := [("key_name", PStr "root")] |} ]}.

(** ** Reading outcomes *)

(** When the service raised [e] on a request of the operation, the operation
    raises [f e]. *)
Definition surfaces {A} (self : client) (f : exn -> exn) (o : outcome A) : Prop :=
  forall g r e,
    In (EvRequest g r) (out_trace o) -> _impl self r = Raise e ->
    out_result o = Raise (f e).

(** No request at all. *)
Definition quiet {A} (o : outcome A) : Prop := requests_of (out_trace o) = [].

(** A failed token acquisition is the exception of the operation. *)
Definition token_failure_surfaces {A} (cr : credential) (o : outcome A) : Prop :=
  forall scope,
    In (EvToken scope false) (out_trace o) ->
    exists e, get_token cr scope = Raise e /\ out_result o = Raise e.

(** At most one request. *)
Definition at_most_one_request {A} (o : outcome A) : Prop :=
  length (requests_of (out_trace o)) <= 1.

(** When the service answered a request of the operation with an entry
    without content, the operation raises the attribute error of reading
    the description from [None]. *)
Definition fails_on_missing_content {A} (self : client)
    (decode : ElementTree -> entry) (o : outcome A) : Prop :=
  forall g r ele,
    In (EvRequest g r) (out_trace o) -> _impl self r = Ok ele ->
    content (decode ele) = None ->
    out_result o = Raise (AttributeError "'NoneType' object has no attribute").

(** A namespace with one queue, "orders", whose service acknowledges writes
    and deletions with an entry without content. *)
Module Populated.

Definition service (r : request) : result ElementTree :=
  match rq_verb r, rq_names r with
  | GET, ["orders"] =>
      Ok (Element "entry" [] "orders" [Element "content" [] "" []])
  | _, _ => Ok (Element "entry" [] "" [])
  end.

Definition admin (cr : credential) : client :=
  {| fully_qualified_namespace := "ns.servicebus.windows.net";
     _credential := cr;
     _impl := service |}.

End Populated.

(** The keywords forwarded with a request do not hold [keyword]. *)
Definition without_keyword (keyword : string) (_ : bool) (r : request) : Prop :=
  kw_other (rq_kwargs r) !! keyword = None.

(** A request to the operation group [g] with the verb [v] for the names
    [names]; it has a body exactly when it is a PUT. *)
Definition routed (g : operation_group) (v : verb) (names : list string)
    (_ : bool) (r : request) : Prop :=
  rq_group r = g /\ rq_verb r = v /\ rq_names r = names
  /\ (is_Some (rq_body r) <-> v = PUT).

(** The same for the entity of an update, whose own name is read from the
    object: the names of the parents come first. *)
Definition routed_below (g : operation_group) (parents : list string)
    (guarded : bool) (r : request) : Prop :=
  exists name, routed g PUT (parents ++ [name]) guarded r.

(** An operation that returned has made exactly one request, and the
    service answered it. *)
Definition answered_once {A} (self : client) (o : outcome A) : Prop :=
  forall a, out_result o = Ok a ->
    exists r ele, requests_of (out_trace o) = [r] /\ _impl self r = Ok ele.

(** The result of an operation that returned is the object that [build]
    makes of the title and the description of the entry with which the
    service answered a request of the operation. *)
Definition returns_built {C : Collaborators} (self : client)
    (cls : entry_class) (build : string -> description -> pyobj)
    (o : outcome loc) : Prop :=
  forall l, out_result o = Ok l ->
    exists g r ele d,
      In (EvRequest g r) (out_trace o) /\ _impl self r = Ok ele
      /\ content (deserialize cls ele) = Some d
      /\ out_heap o !! l = Some (build (title (deserialize cls ele)) d).










(** The keywords of a queue that forwards to the bare name "target". *)
Definition forwarding_to_target : QueueKw.t :=
  {| QueueKw.authorization_rules := PNone;
     QueueKw.auto_delete_on_idle := PNone;
     QueueKw.dead_lettering_on_message_expiration := PNone;
     QueueKw.default_message_time_to_live := PNone;
     QueueKw.duplicate_detection_history_time_window := PNone;
     QueueKw.enable_batched_operations := PNone;
     QueueKw.enable_express := PNone;
     QueueKw.enable_partitioning := PNone;
     QueueKw.lock_duration := PNone;
     QueueKw.max_delivery_count := PNone;
     QueueKw.max_size_in_megabytes := PNone;
     QueueKw.requires_duplicate_detection := PNone;
     QueueKw.requires_session := PNone;
     QueueKw.forward_to := Some "target";
     QueueKw.user_metadata := PNone;
     QueueKw.forward_dead_lettered_messages_to := None;
     QueueKw.max_message_size_in_kilobytes := PNone |}.


(** * Properties *)

(** ** Traces of the building blocks *)

Section TraceLemmas.
Context {C : Collaborators}.
Variable self : client.
Variable P : bool -> request -> Prop.

Lemma all_requests_nil : all_requests P [].
Proof. constructor. Qed.

Lemma all_requests_app tr1 tr2 :
  all_requests P tr1 -> all_requests P tr2 -> all_requests P (tr1 ++ tr2).
Proof. apply Forall_app_2. Qed.

Lemma all_requests_ret {A} (a : A) h : all_requests P (out_trace (ret a h)).
Proof. constructor. Qed.

Lemma all_requests_raise {A} e h : all_requests P (out_trace (raise (A := A) e h)).
Proof. constructor. Qed.

Lemma all_requests_lift_heap {A} (f : heap -> result A * heap) h :
  all_requests P (out_trace (lift_heap f h)).
Proof. unfold lift_heap. destruct (f h). constructor. Qed.

Lemma all_requests_check v h : all_requests P (out_trace (check v h)).
Proof. destruct v; constructor. Qed.

Lemma all_requests_alloc o h : all_requests P (out_trace (alloc o h)).
Proof. apply all_requests_lift_heap. Qed.

Lemma all_requests_deref l h : all_requests P (out_trace (deref l h)).
Proof. apply all_requests_lift_heap. Qed.

Lemma all_requests_deepcopy_obj l h :
  all_requests P (out_trace (deepcopy_obj l h)).
Proof. apply all_requests_lift_heap. Qed.

Lemma all_requests_bind {A B} (m : M A) (k : A -> M B) h :
  all_requests P (out_trace (m h)) ->
  (forall a h', all_requests P (out_trace (k a h'))) ->
  all_requests P (out_trace (bind m k h)).
Proof.
  intros Hm Hk. unfold bind.
  destruct (out_result (m h)); simpl; [|done].
  apply all_requests_app; [done | apply Hk].
Qed.

Lemma all_requests_create_properties l cls h :
  all_requests P (out_trace (create_properties_from_dict_if_needed l cls h)).
Proof.
  unfold create_properties_from_dict_if_needed.
  apply all_requests_bind; [apply all_requests_deref |].
  intros o h'. destruct (decide _);
    [apply all_requests_alloc | apply all_requests_ret].
Qed.

Lemma all_requests_name_of l h : all_requests P (out_trace (name_of l h)).
Proof.
  unfold name_of. apply all_requests_bind; [apply all_requests_deref |].
  intros o h'. destruct (getattr _ _) as [[]|];
    first [apply all_requests_ret | apply all_requests_raise].
Qed.

Lemma all_requests_content_of e h : all_requests P (out_trace (content_of e h)).
Proof.
  unfold content_of. destruct (content e);
    [apply all_requests_ret | apply all_requests_raise].
Qed.

Lemma all_requests_acquire_token cr scope h :
  all_requests P (out_trace (acquire_token cr scope h)).
Proof.
  unfold acquire_token. destruct (get_token cr scope); repeat constructor.
Qed.

Lemma all_requests_call r h :
  P false r -> all_requests P (out_trace (call self r h)).
Proof. intros Hr. repeat constructor. exact Hr. Qed.

Lemma all_requests_call_passing keyword r h :
  P false r -> all_requests P (out_trace (call_passing self keyword r h)).
Proof.
  intros Hr. unfold call_passing.
  destruct (kw_other (rq_kwargs r) !! keyword);
    [constructor | by apply all_requests_call].
Qed.

Lemma all_requests_populate uri header kw h :
  all_requests P (out_trace (_populate_header_within_kwargs self uri header kw h)).
Proof.
  unfold _populate_header_within_kwargs.
  apply all_requests_bind; [apply all_requests_acquire_token |].
  intros; apply all_requests_ret.
Qed.

Lemma all_requests_forward_tokens entity kw h :
  all_requests P (out_trace (_create_forward_to_header_tokens self entity kw h)).
Proof.
  unfold _create_forward_to_header_tokens.
  apply all_requests_bind.
  - destruct (forward_to entity); [|apply all_requests_ret].
    destruct (truthy_str _);
      [apply all_requests_populate | apply all_requests_ret].
  - intros kw' h'.
    destruct (forward_dead_lettered_messages_to entity); [|apply all_requests_ret].
    destruct (truthy_str _);
      [apply all_requests_populate | apply all_requests_ret].
Qed.

End TraceLemmas.

(** Inside the guard every request is recorded as guarded. *)
Lemma all_requests_guard {C : Collaborators} {A} (P : bool -> request -> Prop)
    (m : M A) h :
  all_requests (fun _ r => P true r) (out_trace (m h)) ->
  all_requests P (out_trace (_handle_response_error m h)).
Proof.
  unfold _handle_response_error, all_requests; simpl.
  rewrite Forall_map. intros Hm. eapply Forall_impl; [exact Hm |]. by intros [].
Qed.

(** Walks through an operation, one statement at a time. *)
Ltac trace_step :=
  first
    [ apply all_requests_nil
    | apply all_requests_ret
    | apply all_requests_raise
    | apply all_requests_check
    | apply all_requests_alloc
    | apply all_requests_deref
    | apply all_requests_deepcopy_obj
    | apply all_requests_create_properties
    | apply all_requests_name_of
    | apply all_requests_content_of
    | apply all_requests_lift_heap
    | apply all_requests_acquire_token
    | apply all_requests_forward_tokens
    | apply all_requests_guard
    | apply all_requests_call_passing; reflexivity
    | apply all_requests_call; reflexivity
    | apply all_requests_bind; [| intros ? ?]
    | match goal with
      | |- all_requests _ (out_trace ((let '(_, _) := ?p in _) _)) => destruct p
      | |- all_requests _ (out_trace (match ?x with _ => _ end _)) => destruct x
      end ].

Ltac trace_steps := repeat (cbv beta iota zeta delta [kwargs_pop]; trace_step).

(** ** Results of sequenced steps *)

Lemma bind_result_Ok {A B} (m : M A) (k : A -> M B) (h : heap) (a : A) :
  out_result (m h) = Ok a ->
  out_result (bind m k h) = out_result (k a (out_heap (m h))).
Proof. intros Hm. unfold bind. by rewrite Hm. Qed.

Lemma bind_result_Raise {A B} (m : M A) (k : A -> M B) (h : heap) (e : exn) :
  out_result (m h) = Raise e ->
  out_result (bind m k h) = Raise e.
Proof. intros Hm. unfold bind. by rewrite Hm. Qed.

Lemma bind_trace_Ok {A B} (m : M A) (k : A -> M B) (h : heap) (a : A) :
  out_result (m h) = Ok a ->
  out_trace (bind m k h) = out_trace (m h) ++ out_trace (k a (out_heap (m h))).
Proof. intros Hm. unfold bind. by rewrite Hm. Qed.

Lemma bind_trace_Raise {A B} (m : M A) (k : A -> M B) (h : heap) (e : exn) :
  out_result (m h) = Raise e ->
  out_trace (bind m k h) = out_trace (m h).
Proof. intros Hm. unfold bind. by rewrite Hm. Qed.

Lemma bind_heap_Ok {A B} (m : M A) (k : A -> M B) (h : heap) (a : A) :
  out_result (m h) = Ok a ->
  out_heap (bind m k h) = out_heap (k a (out_heap (m h))).
Proof. intros Hm. unfold bind. by rewrite Hm. Qed.

Lemma bind_heap_Raise {A B} (m : M A) (k : A -> M B) (h : heap) (e : exn) :
  out_result (m h) = Raise e ->
  out_heap (bind m k h) = out_heap (m h).
Proof. intros Hm. unfold bind. by rewrite Hm. Qed.

(** ** Reads of entities that do not exist *)

Section Reads.
Context {C : Collaborators}.
Variable self : client.

(** C2.  When the element that a get operation fetched decodes to an entry
    without content, the operation raises [ResourceNotFoundError] and
    returns no value: [get_queue], [get_queue_runtime_properties],
    [get_topic], [get_subscription] and [get_rule], for every name. *)
Theorem get_without_content_raises_not_found :
  forall (queue_name topic_name subscription_name rule_name : string)
         (kw : kwargs) (h : heap),
    (forall ele,
        out_result (_get_entity_element self queue_name kw h) = Ok ele ->
        content (deserialize QueueDescriptionEntry ele) = None ->
        out_result (get_queue self queue_name kw h)
        = Raise (ResourceNotFoundError
                   ("Queue '" +:+ queue_name +:+ "' does not exist"))
        /\ out_result (get_queue_runtime_properties self queue_name kw h)
           = Raise (ResourceNotFoundError
                      ("Queue " +:+ queue_name +:+ " does not exist")))
    /\ (forall ele,
        out_result (_get_entity_element self topic_name kw h) = Ok ele ->
        content (deserialize TopicDescriptionEntry ele) = None ->
        out_result (get_topic self topic_name kw h)
        = Raise (ResourceNotFoundError
                   ("Topic '" +:+ topic_name +:+ "' does not exist")))
    /\ (forall ele,
        out_result (_get_subscription_element self topic_name subscription_name
                      kw h) = Ok ele ->
        content (deserialize SubscriptionDescriptionEntry ele) = None ->
        out_result (get_subscription self topic_name subscription_name kw h)
        = Raise (subscription_not_found topic_name subscription_name))
    /\ (forall ele,
        out_result (_get_rule_element self topic_name subscription_name
                      rule_name kw h) = Ok ele ->
        content (deserialize RuleDescriptionEntry ele) = None ->
        out_result (get_rule self topic_name subscription_name rule_name kw h)
        = Raise (rule_not_found topic_name subscription_name rule_name)).
Proof.
  intros. split; [| split; [| split]]; intros ele Hfetch Hcontent; [split | | |].
  - unfold get_queue. rewrite (bind_result_Ok _ _ _ _ Hfetch).
    cbv beta zeta. by rewrite Hcontent.
  - unfold get_queue_runtime_properties. rewrite (bind_result_Ok _ _ _ _ Hfetch).
    cbv beta zeta. by rewrite Hcontent.
  - unfold get_topic. rewrite (bind_result_Ok _ _ _ _ Hfetch).
    cbv beta zeta. by rewrite Hcontent.
  - unfold get_subscription. rewrite (bind_result_Ok _ _ _ _ Hfetch).
    cbv beta zeta. by rewrite Hcontent.
  - unfold get_rule. rewrite (bind_result_Ok _ _ _ _ Hfetch).
    cbv beta zeta. by rewrite Hcontent.
Qed.

End Reads.

(** On a namespace without entities, reading the queue "does-not-exist". *)
Lemma get_without_content_raises_not_found_witness :
  out_result (get_queue (C := Demo.collaborators) (Demo.admin Demo.aad)
                "does-not-exist" no_kwargs ∅)
  = Raise (ResourceNotFoundError "Queue 'does-not-exist' does not exist").
Proof.
  apply (proj1 (get_without_content_raises_not_found
                  (C := Demo.collaborators) (Demo.admin Demo.aad)
                  "does-not-exist" "t" "s" "r" no_kwargs ∅)
           (Element "entry" [] "" []));
    reflexivity.
Defined.

(** ** The guard around remote calls *)

(** C3.  Deleting the topic "does-not-exist" on a namespace without
    entities: the service answers 404, the request was made outside
    [_handle_response_error], and the caller receives the transport error
    as it is; the same deletion of a queue goes through the guard and
    surfaces as the translated error. *)
Theorem delete_topic_calls_outside_guard :
  let request :=
    {| rq_group := entity_ops; rq_verb := DELETE;
       rq_names := ["does-not-exist"]; rq_body := None; rq_enrich := None;
       rq_match_condition := None; rq_kwargs := no_kwargs |} in
  let topic :=
    delete_topic (C := Demo.collaborators) (Demo.admin Demo.aad)
      "does-not-exist" no_kwargs ∅ in
  let queue :=
    delete_queue (C := Demo.collaborators) (Demo.admin Demo.aad)
      "does-not-exist" no_kwargs ∅ in
  out_result topic = Raise (HttpResponseError 404)
  /\ out_trace topic = [EvRequest false request]
  /\ out_result queue = Raise (Demo.translate (HttpResponseError 404))
  /\ out_trace queue = [EvRequest true request].
Proof. repeat split. Qed.

(** The four operations that call the generated client directly never make
    a guarded request, in any environment. *)
Lemma unguarded_operations {C : Collaborators} (self : client)
    (topic_name subscription_name rule_name : string) (kw : kwargs) (h : heap) :
  let unguarded := fun (g : bool) (_ : request) => g = false in
  all_requests unguarded (out_trace (delete_topic self topic_name kw h))
  /\ all_requests unguarded
       (out_trace (delete_subscription self topic_name subscription_name kw h))
  /\ all_requests unguarded
       (out_trace (delete_rule self topic_name subscription_name rule_name kw h))
  /\ all_requests unguarded (out_trace (get_namespace_properties self kw h)).
Proof.
  intros; repeat split.
  - unfold delete_topic. trace_steps.
  - unfold delete_subscription. trace_steps.
  - unfold delete_rule. trace_steps.
  - unfold get_namespace_properties. trace_steps.
Qed.

(** An exception of the service leaves these operations untranslated. *)
Lemma delete_topic_raises_untranslated {C : Collaborators} (self : client)
    (topic_name : string) (kw : kwargs) (h : heap) (r : request) (e : exn) :
  _validate_entity_name_type topic_name None = None ->
  r = {| rq_group := entity_ops; rq_verb := DELETE; rq_names := [topic_name];
         rq_body := None; rq_enrich := None; rq_match_condition := None;
         rq_kwargs := kw |} ->
  _impl self r = Raise e ->
  out_result (delete_topic self topic_name kw h) = Raise e.
Proof.
  intros Hv -> He. unfold delete_topic, bind, check, call. rewrite Hv. simpl.
  by rewrite He.
Qed.

(** ** Validation of names *)

(** C7, as stated, fails: with validators that reject the empty name,
    [create_queue] on the empty name is not stopped locally; the PUT request
    for it reaches the service. *)
Lemma create_queue_empty_name_reaches_service :
  let o := create_queue (C := Strict.collaborators) (Demo.admin Demo.aad)
             "" QueueKw.defaults no_kwargs ∅ in
  _validate_entity_name_type (Collaborators := Strict.collaborators) "" None
    = Some (ValueError "name must not be empty")
  /\ (forall e, ~ rejected_locally
                    (create_queue (C := Strict.collaborators)
                       (Demo.admin Demo.aad) "" QueueKw.defaults no_kwargs) ∅ e)
  /\ map rq_names (requests_of (out_trace o)) = [[""]].
Proof.
  split; [reflexivity |]. split; [| reflexivity].
  intros e (_ & Htrace & _). vm_compute in Htrace. discriminate.
Qed.

Lemma rejected_bind {A B} (m : M A) (k : A -> M B) (h : heap) (e : exn) :
  rejected_locally m h e -> rejected_locally (bind m k) h e.
Proof.
  intros (Hr & Ht & Hh). unfold rejected_locally.
  rewrite (bind_result_Raise _ _ _ _ Hr), (bind_trace_Raise _ _ _ _ Hr),
    (bind_heap_Raise _ _ _ _ Hr). done.
Qed.

Lemma rejected_check (v : option exn) (h : heap) (e : exn) :
  v = Some e -> rejected_locally (check v) h e.
Proof. intros ->. done. Qed.

Lemma rejected_check_bind {A} (v : option exn) (k : unit -> M A) (h : heap)
    (e : exn) :
  v = Some e -> rejected_locally (bind (check v) k) h e.
Proof. intros Hv. by apply rejected_bind, rejected_check. Qed.

Section Validation.
Context {C : Collaborators}.
Variable self : client.
Variable defaults : kwdefaults.

Lemma rejected_get_entity_element name kw h e :
  _validate_entity_name_type name None = Some e ->
  rejected_locally (_get_entity_element self name kw) h e.
Proof.
  intros Hv. unfold _get_entity_element. destruct (bind_enrich kw).
  by apply rejected_check_bind.
Qed.

Lemma rejected_get_subscription_element topic_name subscription_name kw h e :
  _validate_topic_and_subscription_types topic_name subscription_name = Some e ->
  rejected_locally
    (_get_subscription_element self topic_name subscription_name kw) h e.
Proof.
  intros Hv. unfold _get_subscription_element. destruct (bind_enrich kw).
  by apply rejected_check_bind.
Qed.

(** C7, amended.  A name that the validator of an operation rejects stops
    the operation locally: it raises the validator's exception, no token is
    acquired and no request is made.  This holds for the entity name of the
    get operations, [delete_queue], [delete_topic] and the two listings of
    subscriptions; for the topic name of [create_subscription] and
    [update_subscription]; for the topic and subscription names of the
    subscription reads, [delete_subscription], [create_rule], [update_rule]
    and [list_rules]; and for the three names of [get_rule] and
    [delete_rule].  [delete_queue] is stopped locally on the empty name as
    well. *)
Theorem rejected_name_stops_operation :
  forall (name topic_name subscription_name rule_name : string) (entity : loc)
         (a : SubscriptionKw.t) (filter : option pyval) (action : pyval)
         (kw : kwargs) (h : heap),
    (forall e,
        _validate_entity_name_type name None = Some e ->
        rejected_locally (get_queue self name kw) h e
        /\ rejected_locally (get_queue_runtime_properties self name kw) h e
        /\ rejected_locally (get_topic self name kw) h e
        /\ rejected_locally (get_topic_runtime_properties self name kw) h e
        /\ rejected_locally (delete_queue self name kw) h e
        /\ rejected_locally (delete_topic self name kw) h e
        /\ rejected_locally (list_subscriptions name kw) h e
        /\ rejected_locally
             (list_subscriptions_runtime_properties name kw) h e)
    /\ (forall e,
        _validate_entity_name_type topic_name (Some "topic_name") = Some e ->
        rejected_locally
          (create_subscription self topic_name subscription_name a kw) h e
        /\ rejected_locally (update_subscription self topic_name entity kw) h e)
    /\ (forall e,
        _validate_topic_and_subscription_types topic_name subscription_name
          = Some e ->
        rejected_locally
          (get_subscription self topic_name subscription_name kw) h e
        /\ rejected_locally
             (get_subscription_runtime_properties self topic_name
                subscription_name kw) h e
        /\ rejected_locally
             (delete_subscription self topic_name subscription_name kw) h e
        /\ rejected_locally
             (create_rule self defaults topic_name subscription_name rule_name
                filter action kw) h e
        /\ rejected_locally
             (update_rule self topic_name subscription_name entity kw) h e
        /\ rejected_locally
             (list_rules topic_name subscription_name kw) h e)
    /\ (forall e,
        _validate_topic_subscription_and_rule_types topic_name
          subscription_name rule_name = Some e ->
        rejected_locally
          (get_rule self topic_name subscription_name rule_name kw) h e
        /\ rejected_locally
             (delete_rule self topic_name subscription_name rule_name kw) h e)
    /\ (exists e, rejected_locally (delete_queue self "" kw) h e).
Proof.
  intros. split; [| split; [| split; [| split]]].
  - intros e Hv.
    repeat match goal with |- rejected_locally _ _ _ /\ _ => split end;
      first [ by apply rejected_bind, rejected_get_entity_element
            | by apply rejected_check_bind ].
  - intros e Hv. split; by apply rejected_check_bind.
  - intros e Hv.
    repeat match goal with |- rejected_locally _ _ _ /\ _ => split end;
      first [ by apply rejected_bind, rejected_get_subscription_element
            | by apply rejected_check_bind ].
  - intros e Hv. split; [apply rejected_bind |]; by apply rejected_check_bind.
  - destruct (_validate_entity_name_type "" None) as [e|] eqn:Hv.
    + exists e. by apply rejected_check_bind.
    + eexists. unfold delete_queue, rejected_locally, bind, check.
      rewrite Hv. simpl. done.
Qed.

End Validation.

(** With validators that reject the empty name, deleting the queue or the
    topic of that name stops before the service is reached. *)
Lemma rejected_name_stops_operation_witness :
  rejected_locally
    (delete_queue (C := Strict.collaborators) (Demo.admin Demo.aad) "" no_kwargs)
    ∅ (ValueError "name must not be empty").
Proof.
  apply (proj1 (rejected_name_stops_operation (C := Strict.collaborators)
                  (Demo.admin Demo.aad) Demo.kwdefaults0
                  "" "t" "s" "r" 1%positive SubscriptionKw.defaults None PNone
                  no_kwargs ∅)
           (ValueError "name must not be empty")).
  reflexivity.
Defined.

(** ** Supplementary tokens for forward targets *)

Section ForwardTokens.
Context {C : Collaborators}.
Variable self : client.

Lemma populate_header_outcome (uri header : string) (kw : kwargs) (h : heap) :
  _populate_header_within_kwargs self uri header kw h
  = let sas := is_sas_or_shared_key (_credential self) in
    let scope := if sas then uri else JWT_TOKEN_SCOPE in
    match get_token (_credential self) scope with
    | Ok t =>
        {| out_result :=
             Ok (kwargs_set_header header (if sas then t else "Bearer " +:+ t) kw);
           out_heap := h; out_trace := [EvToken scope true] |}
    | Raise e =>
        {| out_result := Raise e; out_heap := h;
           out_trace := [EvToken scope false] |}
    end.
Proof.
  unfold _populate_header_within_kwargs, bind, acquire_token, ret.
  destruct (is_sas_or_shared_key (_credential self)); simpl;
    destruct (get_token _ _); reflexivity.
Qed.

Lemma truthy_str_Some (s : string) : s <> "" -> truthy_str (Some s) = true.
Proof.
  intros Hs. unfold truthy_str. destruct (String.eqb_spec s ""); done.
Qed.

(** One [if entity.target:] statement of [_create_forward_to_header_tokens]. *)
Lemma forward_step_absent (target : option string) (header : string)
    (kw : kwargs) :
  truthy_str target = false ->
  match target with
  | Some uri =>
      if truthy_str (Some uri)
      then _populate_header_within_kwargs self uri header kw
      else ret kw
  | None => ret kw
  end = ret kw.
Proof. intros Ht. destruct target; [by rewrite Ht | done]. Qed.

Lemma forward_step_present (target : option string) (uri header : string)
    (kw : kwargs) :
  target = Some uri -> uri <> "" ->
  match target with
  | Some uri =>
      if truthy_str (Some uri)
      then _populate_header_within_kwargs self uri header kw
      else ret kw
  | None => ret kw
  end = _populate_header_within_kwargs self uri header kw.
Proof. intros -> Hne. by rewrite (truthy_str_Some _ Hne). Qed.

Lemma header_of_set_eq (header token : string) (kw : kwargs) :
  header_of (kwargs_set_header header token kw) header = Some token.
Proof. unfold header_of, kwargs_set_header; simpl. apply lookup_insert_eq. Qed.

Lemma header_of_set_ne (header header' token : string) (kw : kwargs) :
  header <> header' ->
  header_of (kwargs_set_header header token kw) header' = header_of kw header'.
Proof.
  intros Hne. unfold header_of, kwargs_set_header; simpl.
  by apply lookup_insert_ne.
Qed.

(** C4.  What [_create_forward_to_header_tokens] does for an entity with a
    forward target, a dead-letter forward target, or both.  With a
    shared-key or SAS credential ([sas = true]) the token is acquired for
    the target itself and the header holds the token as it is; with any
    other credential the scope is [JWT_TOKEN_SCOPE] and the header holds
    "Bearer " followed by the token.  With both targets there are two
    acquisitions and two headers, neither of which overwrites the other. *)
Theorem forward_to_header_tokens :
  forall (entity : description) (kw : kwargs) (h : heap) (sas : bool),
    is_sas_or_shared_key (_credential self) = sas ->
    let scope := fun uri : string => if sas then uri else JWT_TOKEN_SCOPE in
    let value := fun token : string => if sas then token else "Bearer " +:+ token in
    let kw0 := kwargs_ensure_headers kw in
    let o := _create_forward_to_header_tokens self entity kw h in
    (forall target token,
        forward_to entity = Some target -> target <> "" ->
        truthy_str (forward_dead_lettered_messages_to entity) = false ->
        get_token (_credential self) (scope target) = Ok token ->
        out_trace o = [EvToken (scope target) true]
        /\ out_result o
           = Ok (kwargs_set_header SUPPLEMENTARY_AUTHORIZATION_HEADER
                   (value token) kw0))
    /\ (forall target token,
        truthy_str (forward_to entity) = false ->
        forward_dead_lettered_messages_to entity = Some target -> target <> "" ->
        get_token (_credential self) (scope target) = Ok token ->
        out_trace o = [EvToken (scope target) true]
        /\ out_result o
           = Ok (kwargs_set_header DEAD_LETTER_SUPPLEMENTARY_AUTHORIZATION_HEADER
                   (value token) kw0))
    /\ (forall target dl_target token dl_token,
        forward_to entity = Some target -> target <> "" ->
        forward_dead_lettered_messages_to entity = Some dl_target ->
        dl_target <> "" ->
        get_token (_credential self) (scope target) = Ok token ->
        get_token (_credential self) (scope dl_target) = Ok dl_token ->
        out_trace o = [EvToken (scope target) true; EvToken (scope dl_target) true]
        /\ exists kw',
            out_result o = Ok kw'
            /\ header_of kw' DEAD_LETTER_SUPPLEMENTARY_AUTHORIZATION_HEADER
               = Some (value dl_token)
            /\ (SUPPLEMENTARY_AUTHORIZATION_HEADER
                  <> DEAD_LETTER_SUPPLEMENTARY_AUTHORIZATION_HEADER ->
                header_of kw' SUPPLEMENTARY_AUTHORIZATION_HEADER
                = Some (value token))).
Proof.
  intros entity kw h sas Hsas scope value kw0 o.
  subst o scope value kw0. unfold _create_forward_to_header_tokens.
  split; [| split].
  - intros target token Hf Hne Hd Htok.
    rewrite Hf, (truthy_str_Some _ Hne).
    unfold bind. rewrite populate_header_outcome, Hsas. cbv zeta.
    rewrite Htok. cbn [out_result out_heap out_trace].
    rewrite (forward_step_absent _ _ _ Hd). done.
  - intros target token Hf Hd Hne Htok.
    rewrite (forward_step_absent _ _ _ Hf).
    unfold bind. cbn [ret out_result out_heap out_trace].
    rewrite (forward_step_present _ _ _ _ Hd Hne).
    rewrite populate_header_outcome, Hsas. cbv zeta. by rewrite Htok.
  - intros target dl_target token dl_token Hf Hne Hd Hdne Htok Hdtok.
    rewrite (forward_step_present _ _ _ _ Hf Hne).
    unfold bind. rewrite populate_header_outcome, Hsas. cbv zeta.
    rewrite Htok. cbn [out_result out_heap out_trace].
    rewrite (forward_step_present _ _ _ _ Hd Hdne).
    rewrite populate_header_outcome, Hsas. cbv zeta. rewrite Hdtok.
    cbn [out_result out_heap out_trace].
    split; [done |]. eexists; split; [done |]. split.
    + apply header_of_set_eq.
    + intros Hdistinct. rewrite header_of_set_ne by done.
      apply header_of_set_eq.
Qed.

End ForwardTokens.

(** A queue description that forwards to one queue and dead-letters to
    another, with a shared-key credential: two tokens, one per target, and
    two headers. *)
Lemma forward_to_header_tokens_witness :
  let entity := {| forward_to := Some "sb://ns/a";
                   forward_dead_lettered_messages_to := Some "sb://ns/b";
                   d_fields := [] |} in
  out_trace (_create_forward_to_header_tokens (C := Demo.collaborators)
               (Demo.admin Demo.shared_key) entity no_kwargs ∅)
  = [EvToken "sb://ns/a" true; EvToken "sb://ns/b" true].
Proof.
  intros entity.
  apply (proj2 (proj2 (forward_to_header_tokens (C := Demo.collaborators)
                         (Demo.admin Demo.shared_key) entity no_kwargs ∅ true
                         eq_refl))
           "sb://ns/a" "sb://ns/b" "sig:sb://ns/a" "sig:sb://ns/b");
    done.
Defined.

(** ** Order of token acquisition and mutation *)

Section RequestPhase.
Context {C : Collaborators}.
Variable self : client.




Lemma request_phase_bind {A B} (m : M A) (k : A -> M B) h :
  request_phase (m h) -> (forall a h', request_phase (k a h')) ->
  request_phase (bind m k h).
Proof.
  unfold request_phase, bind. intros Hm Hk.
  destruct (out_result (m h)); simpl; [| done].
  rewrite forallb_app, Hm. apply Hk.
Qed.

Lemma request_phase_call r h : request_phase (call self r h).
Proof. done. Qed.

Lemma request_phase_call_passing keyword r h :
  request_phase (call_passing self keyword r h).
Proof.
  unfold call_passing. by destruct (kw_other (rq_kwargs r) !! _).
Qed.



Lemma request_phase_guard {A} (m : M A) h :
  request_phase (m h) -> request_phase (_handle_response_error m h).
Proof.
  unfold request_phase, _handle_response_error; simpl.
  rewrite !forallb_forall. intros Hm ev [ev' [<- Hin]]%in_map_iff.
  specialize (Hm _ Hin). by destruct ev'.
Qed.

End RequestPhase.



Section TokenOrder.
Context {C : Collaborators}.
Variable self : client.

Lemma token_phase_ret {A} (a : A) h : token_phase (ret a h).
Proof. split; [done | intros ? []]. Qed.

Lemma token_phase_populate uri header kw h :
  token_phase (_populate_header_within_kwargs self uri header kw h).
Proof.
  rewrite populate_header_outcome. cbv zeta.
  destruct (get_token _ _); split; try done; simpl.
  - intros scope [[=] | []].
  - intros scope _. by eexists.
Qed.

Lemma token_phase_bind {A B} (m : M A) (k : A -> M B) h :
  token_phase (m h) -> (forall a h', token_phase (k a h')) ->
  token_phase (bind m k h).
Proof.
  intros [Hm1 Hm2] Hk. unfold token_phase, bind.
  destruct (out_result (m h)) as [a|e] eqn:Hr; simpl.
  - destruct (Hk a (out_heap (m h))) as [Hk1 Hk2]. split.
    + by rewrite forallb_app, Hm1, Hk1.
    + intros scope [Hin | Hin]%in_app_iff.
      * destruct (Hm2 _ Hin) as [e He]. congruence.
      * by apply Hk2 in Hin.
  - split; [done |]. intros. by eexists.
Qed.

Lemma token_phase_forward_tokens entity kw h :
  token_phase (_create_forward_to_header_tokens self entity kw h).
Proof.
  unfold _create_forward_to_header_tokens. apply token_phase_bind.
  - destruct (forward_to entity); [| apply token_phase_ret].
    destruct (truthy_str _);
      [apply token_phase_populate | apply token_phase_ret].
  - intros kw' h'.
    destruct (forward_dead_lettered_messages_to entity); [| apply token_phase_ret].
    destruct (truthy_str _);
      [apply token_phase_populate | apply token_phase_ret].
Qed.

Lemma requests_of_tokens tr : forallb is_token tr = true -> requests_of tr = [].
Proof.
  induction tr as [| [] tr IH]; simpl; [done | | done].
  intros Htr. unfold requests_of in *. simpl. by apply IH.
Qed.



Lemma lift_heap_silent {A} (f : heap -> result A * heap) h :
  out_trace (lift_heap f h) = [].
Proof. unfold lift_heap. by destruct (f h). Qed.

Lemma check_silent v h : out_trace (check v h) = [].
Proof. by destruct v. Qed.

Lemma create_properties_silent l cls h :
  out_trace (create_properties_from_dict_if_needed l cls h) = [].
Proof.
  unfold create_properties_from_dict_if_needed, bind.
  pose proof (lift_heap_silent (A := pyobj)) as Hs.
  unfold deref. destruct (out_result (lift_heap _ h)) eqn:Hr; rewrite Hs; [| done].
  simpl. destruct (decide _); [apply lift_heap_silent | done].
Qed.


End TokenOrder.

(** Creating a queue that forwards to "target": with a credential that
    issues tokens, one acquisition and then the PUT; with a credential that
    fails, the acquisition and nothing else. *)
Example create_queue_forwarding_trace :
  let qa := {| QueueKw.authorization_rules := PNone;
               QueueKw.auto_delete_on_idle := PNone;
               QueueKw.dead_lettering_on_message_expiration := PNone;
               QueueKw.default_message_time_to_live := PNone;
               QueueKw.duplicate_detection_history_time_window := PNone;
               QueueKw.enable_batched_operations := PNone;
               QueueKw.enable_express := PNone;
               QueueKw.enable_partitioning := PNone;
               QueueKw.lock_duration := PNone;
               QueueKw.max_delivery_count := PNone;
               QueueKw.max_size_in_megabytes := PNone;
               QueueKw.requires_duplicate_detection := PNone;
               QueueKw.requires_session := PNone;
               QueueKw.forward_to := Some "target";
               QueueKw.user_metadata := PNone;
               QueueKw.forward_dead_lettered_messages_to := None;
               QueueKw.max_message_size_in_kilobytes := PNone |} in
  map is_token
    (out_trace (create_queue (C := Demo.collaborators)
                  (Demo.admin Demo.shared_key) "q" qa no_kwargs ∅))
  = [true; false]
  /\ out_trace (create_queue (C := Demo.collaborators)
                  (Demo.admin Demo.failing) "q" qa no_kwargs ∅)
     = [EvToken "https://servicebus.azure.net//.default" false].
Proof. split; reflexivity. Qed.

(** ** Clients from connection strings *)

Section ConnectionStrings.
Variable _parse_conn_str : string -> result conn_str_parts.

(** [from_connection_string] validates nothing itself: what the parser
    raises is raised, and parts that the parser returns with neither a
    token with an expiry nor a key name with a key leave the local
    [credential] unbound, so that its use in the constructor call is an
    [UnboundLocalError].  Which connection strings the parser answers in
    which way is not decided here. *)
Lemma from_connection_string_parser_error (conn_str : string) (e : exn) :
  _parse_conn_str conn_str = Raise e ->
  from_connection_string _parse_conn_str conn_str = Raise e.
Proof. intros Hparse. unfold from_connection_string. by rewrite Hparse. Qed.

Lemma from_connection_string_unbound_credential (conn_str : string)
    (p : conn_str_parts) :
  _parse_conn_str conn_str = Ok p ->
  truthy_str (cs_token p) && truthy_int (cs_token_expiry p) = false ->
  truthy_str (cs_shared_access_key_name p)
    && truthy_str (cs_shared_access_key p) = false ->
  from_connection_string _parse_conn_str conn_str
  = Raise (UnboundLocalError "credential").
Proof.
  intros Hparse Hsas Hkey. unfold from_connection_string.
  rewrite Hparse. cbv zeta. by rewrite Hsas, Hkey.
Qed.

(** In the two recognised cases a client is built. *)
Lemma from_connection_string_bound_credential (conn_str : string)
    (p : conn_str_parts) :
  _parse_conn_str conn_str = Ok p ->
  truthy_str (cs_token p) && truthy_int (cs_token_expiry p)
    || truthy_str (cs_shared_access_key_name p)
         && truthy_str (cs_shared_access_key p) = true ->
  exists init, from_connection_string _parse_conn_str conn_str = Ok init
               /\ init_fully_qualified_namespace init
                  = strip_scheme (cs_endpoint p)
               /\ init_use_tls init = negb (cs_emulator p).
Proof.
  intros Hparse Hcases. unfold from_connection_string.
  rewrite Hparse. cbv zeta.
  destruct (truthy_str (cs_token p) && truthy_int (cs_token_expiry p));
    [by eexists |].
  simpl in Hcases. rewrite Hcases. by eexists.
Qed.

End ConnectionStrings.

(** ** Requests and the steps before them *)

Lemma in_trace_bind {A B} (m : M A) (k : A -> M B) (h : heap) (ev : event) :
  In ev (out_trace (bind m k h)) ->
  In ev (out_trace (m h))
  \/ exists a, out_result (m h) = Ok a
               /\ In ev (out_trace (k a (out_heap (m h)))).
Proof.
  unfold bind. destruct (out_result (m h)) as [a|e]; simpl.
  - intros [Hin | Hin]%in_app_iff; [by left | right; by exists a].
  - by left.
Qed.

Lemma in_trace_guard {C : Collaborators} {A} (m : M A) (h : heap) (g : bool)
    (r : request) :
  In (EvRequest g r) (out_trace (_handle_response_error m h)) ->
  g = true /\ exists g', In (EvRequest g' r) (out_trace (m h)).
Proof.
  unfold _handle_response_error; simpl.
  intros [[] [Heq Hin]]%in_map_iff; [done |].
  simpl in Heq. injection Heq as <- <-. split; [done | by eexists].
Qed.

Lemma alloc_outcome (o : pyobj) (h : heap) :
  alloc o h = {| out_result := Ok (fresh (dom h));
                 out_heap := <[fresh (dom h) := o]> h;
                 out_trace := [] |}.
Proof. reflexivity. Qed.

Lemma not_in_token_phase {A} (o : outcome A) (g : bool) (r : request) :
  token_phase o -> ~ In (EvRequest g r) (out_trace o).
Proof.
  intros [Htok _] Hin. rewrite forallb_forall in Htok. by apply Htok in Hin.
Qed.

Lemma in_trace_lift_heap {A} (f : heap -> result A * heap) h ev :
  ~ In ev (out_trace (lift_heap f h)).
Proof. rewrite lift_heap_silent. intros []. Qed.

Lemma in_trace_content_of e h ev : ~ In ev (out_trace (content_of e h)).
Proof. unfold content_of. destruct (content e); intros []. Qed.

Lemma check_heap v h : out_heap (check v h) = h.
Proof. by destruct v. Qed.

Lemma lift_heap_result {A} (f : heap -> result A * heap) h :
  out_result (lift_heap f h) = (f h).1 /\ out_heap (lift_heap f h) = (f h).2.
Proof. unfold lift_heap. by destruct (f h). Qed.

(** ** Forward targets are normalized before serialization *)

Section Normalization.
Context {C : Collaborators}.
Variable self : client.

(** The one request of a create operation, after its tokens: the guarded
    PUT followed by decoding and construction of the result. *)
Lemma in_trace_put_then_decode (r0 : request) (cls : entry_class)
    (k : ElementTree -> description -> M loc) (h : heap) (g : bool)
    (r : request) :
  (forall ele d h' ev, ~ In ev (out_trace (k ele d h'))) ->
  In (EvRequest g r)
     (out_trace
        (bind (_handle_response_error (call self r0))
           (fun entry_ele =>
              bind (content_of (deserialize cls entry_ele)) (k entry_ele)) h)) ->
  g = true /\ r = r0.
Proof.
  intros Hk [Hin | (ele & _ & Hin)]%in_trace_bind.
  - apply in_trace_guard in Hin as [-> [g' Hin]]. simpl in Hin.
    destruct Hin as [[= _ ->] | []]. done.
  - apply in_trace_bind in Hin as [Hin | (d & _ & Hin)].
    + by apply in_trace_content_of in Hin.
    + by apply Hk in Hin.
Qed.

(** The body of every request of [create_queue] and [create_subscription]
    is the serialization of the description converted from the properties
    object that holds the normalized forward targets. *)
Lemma create_bodies_from_normalized_targets :
  forall (queue_name topic_name subscription_name : string)
         (qa : QueueKw.t) (sa : SubscriptionKw.t) (kw : kwargs) (h : heap),
    let ns := fully_qualified_namespace self in
    let normalize := fun p => _normalize_entity_path_to_full_path_if_needed p ns in
    let l := fresh (dom h) in
    let queue :=
      new_QueueProperties queue_name qa (kwargs_pop "status" kw).1
        (normalize (QueueKw.forward_to qa))
        (normalize (QueueKw.forward_dead_lettered_messages_to qa)) in
    let subscription :=
      new_SubscriptionProperties subscription_name sa (kwargs_pop "status" kw).1
        (normalize (SubscriptionKw.forward_to sa))
        (normalize (SubscriptionKw.forward_dead_lettered_messages_to sa)) in
    (forall g r,
           In (EvRequest g r)
              (out_trace (create_queue self queue_name qa kw h)) ->
           exists d k h',
             _to_internal_entity QueueProperties l (Some ns) None
               (<[l := queue]> h) = (Ok (d, k), h')
             /\ rq_body r = Some (serialize CreateQueueBody d))
    /\ (forall g r,
           In (EvRequest g r)
              (out_trace (create_subscription self topic_name subscription_name
                            sa kw h)) ->
           exists d k h',
             _to_internal_entity SubscriptionProperties l (Some ns) None
               (<[l := subscription]> h) = (Ok (d, k), h')
             /\ rq_body r = Some (serialize CreateSubscriptionBody d)).
Proof.
  intros. subst normalize. split.
  - intros g r. unfold create_queue. cbv beta iota zeta delta [kwargs_pop].
    intros [Hin | (l' & Hl' & Hin)]%in_trace_bind;
      [destruct (in_trace_lift_heap _ _ _ Hin) |].
    rewrite alloc_outcome in Hl', Hin. simpl in Hl', Hin.
    injection Hl' as <-.
    apply in_trace_bind in Hin as [Hin | ([d k] & Hconv & Hin)];
      [destruct (in_trace_lift_heap _ _ _ Hin) |].
    apply in_trace_bind in Hin as [Hin | (kw' & _ & Hin)];
      [by apply not_in_token_phase in Hin;
         [| apply token_phase_forward_tokens] |].
    apply (in_trace_put_then_decode _ _ (fun _ d => alloc _)) in Hin
      as [-> ->]; [| intros ? ? ? ?; apply in_trace_lift_heap].
    pose proof (lift_heap_result
                  (_to_internal_entity QueueProperties (fresh (dom h))
                     (Some (fully_qualified_namespace self)) None)
                  (<[fresh (dom h) := queue]> h)) as [Hres _].
    subst queue l ns. simpl in *. rewrite Hconv in Hres.
    destruct (_to_internal_entity _ _ _ _ _) as [res h'] eqn:Heq.
    simpl in Hres. subst res. by exists d, k, h'.
  - intros g r. unfold create_subscription.
    cbv beta iota zeta delta [kwargs_pop].
    intros [Hin | ([] & _ & Hin)]%in_trace_bind;
      [by rewrite check_silent in Hin |].
    apply in_trace_bind in Hin as [Hin | (l' & Hl' & Hin)];
      [destruct (in_trace_lift_heap _ _ _ Hin) |].
    rewrite check_heap in Hl', Hin.
    rewrite alloc_outcome in Hl', Hin. simpl in Hl', Hin.
    injection Hl' as <-.
    apply in_trace_bind in Hin as [Hin | ([d k] & Hconv & Hin)];
      [destruct (in_trace_lift_heap _ _ _ Hin) |].
    apply in_trace_bind in Hin as [Hin | (kw' & _ & Hin)];
      [by apply not_in_token_phase in Hin;
         [| apply token_phase_forward_tokens] |].
    apply (in_trace_put_then_decode _ _ (fun _ d => alloc _)) in Hin
      as [-> ->]; [| intros ? ? ? ?; apply in_trace_lift_heap].
    pose proof (lift_heap_result
                  (_to_internal_entity SubscriptionProperties (fresh (dom h))
                     (Some (fully_qualified_namespace self)) None)
                  (<[fresh (dom h) := subscription]> h)) as [Hres _].
    subst subscription l ns. simpl in *. rewrite Hconv in Hres.
    destruct (_to_internal_entity _ _ _ _ _) as [res h'] eqn:Heq.
    simpl in Hres. subst res. by exists d, k, h'.
Qed.

End Normalization.

(** ** The default filter of create_rule *)

(** C9, as stated, fails: the two rules built by two calls without a filter
    argument hold the same filter object. *)
Lemma create_rule_default_filter_is_shared :
  ~ filters_never_shared (out_heap two_default_rules).
Proof.
  intros Hfresh.
  eapply (Hfresh 2%positive 4%positive _ _ 1%positive); try reflexivity.
  done.
Qed.

Section DefaultFilter.
Context {C : Collaborators}.
Variable self : client.
Variable defaults : kwdefaults.

(** The body of every request of a [create_rule] without a filter argument
    is derived from the rule object that holds the object kept in the
    keyword defaults of the function. *)
Lemma create_rule_body_from_default_filter :
  forall (topic_name subscription_name rule_name : string) (action : pyval)
         (kw : kwargs) (h : heap),
    let l := fresh (dom h) in
    let filter := PRef (create_rule_filter defaults) in
    let rule := new_RuleProperties rule_name filter action in
    (forall g r,
           In (EvRequest g r)
              (out_trace (create_rule self defaults topic_name subscription_name
                            rule_name None action kw h)) ->
           exists d k h',
             _to_internal_entity RuleProperties l None None (<[l := rule]> h)
             = (Ok (d, k), h')
             /\ rq_body r
                = Some (serialize_rule_key_values
                          (serialize CreateRuleBody d) h' l)).
Proof.
  intros topic_name subscription_name rule_name action kw h l filter rule g r.
  unfold create_rule. cbv beta iota zeta.
  intros [Hin | ([] & _ & Hin)]%in_trace_bind;
    [by rewrite check_silent in Hin |].
    rewrite check_heap in Hin.
    apply in_trace_bind in Hin as [Hin | (l' & Hl' & Hin)];
      [destruct (in_trace_lift_heap _ _ _ Hin) |].
    rewrite alloc_outcome in Hl', Hin. simpl in Hl', Hin.
    injection Hl' as <-.
    apply in_trace_bind in Hin as [Hin | ([d k] & Hconv & Hin)];
      [destruct (in_trace_lift_heap _ _ _ Hin) |].
    pose proof (lift_heap_result
                  (_to_internal_entity RuleProperties (fresh (dom h)) None None)
                  (<[fresh (dom h) := rule]> h)) as [Hres Hheap].
    subst rule filter l. rewrite Hconv in Hres.
    destruct (_to_internal_entity _ _ _ _ _) as [res h'] eqn:Heq.
    simpl in Hres, Hheap. subst res. rewrite Hheap in Hin.
    apply in_trace_bind in Hin as [Hin | (body & Hbody & Hin)];
      [destruct (in_trace_lift_heap _ _ _ Hin) |].
    cbn in Hbody. injection Hbody as <-.
    cbn [lift_heap out_heap] in Hin.
    apply (in_trace_put_then_decode _ _ _
             (fun ele d =>
                bind (alloc (_from_internal_entity RuleProperties rule_name d))
                  (fun result =>
                     bind (lift_heap (fun h =>
                             (Ok tt, deserialize_rule_key_values ele result h)))
                          (fun _ => ret result)))) in Hin as [-> ->].
    + by exists d, k, h'.
    + clear. intros ele d' h'' ev
        [Hev | (? & _ & [Hev | (? & _ & [])]%in_trace_bind)]%in_trace_bind;
        by destruct (in_trace_lift_heap _ _ _ Hev).
Qed.

End DefaultFilter.

(** ** Deep copies *)

Section DeepCopy.
Variable h0 : heap.

Lemma fresh_closed_refl : fresh_closed h0 h0.
Proof.
  intros l o l' Hl Ho. exfalso. apply Hl, elem_of_dom. by eexists.
Qed.

Lemma fresh_closed_insert (h : heap) (l : loc) (o : pyobj) :
  fresh_closed h0 h ->
  (forall l', l' ∈ refs_of o -> l' ∉ dom h0) ->
  fresh_closed h0 (<[l := o]> h).
Proof.
  intros Hc Ho l1 o1 l' Hl1 Hlook Hin.
  destruct (decide (l = l1)) as [<- | Hne].
  - rewrite lookup_insert_eq in Hlook. injection Hlook as <-. by apply Ho.
  - rewrite lookup_insert_ne in Hlook by done. by eapply Hc.
Qed.

Lemma copy_slots_ok (copy : pyval -> heap -> option (pyval * heap)) :
  copy_ok h0 copy ->
  forall slots h slots' h',
    dom h0 ⊆ dom h -> fresh_closed h0 h ->
    copy_slots copy slots h = Some (slots', h') ->
    h ⊆ h' /\ fresh_closed h0 h'
    /\ (forall l, l ∈ slot_refs slots' -> l ∉ dom h0).
Proof.
  intros Hcopy. induction slots as [| [k v] rest IH];
    intros h slots' h' Hdom Hclosed Hrun; simpl in Hrun.
  - injection Hrun as <- <-. split; [done |]. split; [done |].
    intros l Hl. by apply elem_of_nil in Hl.
  - destruct (copy v h) as [[v' h1] |] eqn:Hv; [| done].
    destruct (copy_slots copy rest h1) as [[rest' h2] |] eqn:Hrest; [| done].
    injection Hrun as <- <-.
    destruct (Hcopy _ _ _ _ Hdom Hclosed Hv) as (Hsub1 & Hclosed1 & Hv').
    assert (dom h0 ⊆ dom h1) as Hdom1.
    { etrans; [exact Hdom | by apply subseteq_dom]. }
    destruct (IH _ _ _ Hdom1 Hclosed1 Hrest) as (Hsub2 & Hclosed2 & Hrest').
    split; [by etrans |]. split; [done |].
    intros l. unfold slot_refs. simpl.
    destruct v'; simpl; try apply Hrest'.
    intros [-> | Hl]%elem_of_cons; [by apply Hv' | by apply Hrest'].
Qed.

Lemma deepcopy_ok (fuel : nat) : copy_ok h0 (deepcopy fuel).
Proof.
  induction fuel as [| n IH]; intros v h v' h' Hdom Hclosed Hrun.
  - destruct v; simpl in Hrun; try done; injection Hrun as <- <-; done.
  - destruct v; simpl in Hrun;
      try (injection Hrun as <- <-; done).
    destruct (h !! l) as [o |] eqn:Ho; [| done].
    destruct (copy_slots (deepcopy n) (o_slots o) h) as [[slots' h1] |] eqn:Hs;
      [| done].
    injection Hrun as <- <-.
    destruct (copy_slots_ok _ IH _ _ _ _ Hdom Hclosed Hs)
      as (Hsub & Hclosed1 & Hrefs).
    assert (fresh (dom h1) ∉ dom h1) as Hfresh by apply is_fresh.
    assert (dom h0 ⊆ dom h1) as Hdom1.
    { etrans; [exact Hdom | by apply subseteq_dom]. }
    split; [| split].
    + etrans; [exact Hsub |]. apply insert_subseteq.
      by apply not_elem_of_dom.
    + by apply fresh_closed_insert.
    + intros l' [= <-]. intros Hin. by apply Hfresh, Hdom1.
Qed.

Lemma fresh_closed_reachable (h : heap) (l l' : loc) :
  fresh_closed h0 h -> l ∉ dom h0 -> reachable h l l' -> l' ∉ dom h0.
Proof.
  intros Hc Hl Hreach. induction Hreach as [| l l1 l2 (o & Ho & Hin) _ IH];
    [done |].
  apply IH. by eapply Hc.
Qed.

End DeepCopy.

(** A deep copy leaves every object of the store as it was, and nothing
    that existed before can be reached from the copy. *)
Lemma deepcopy_obj_spec (l : loc) (h : heap) :
  h ⊆ out_heap (deepcopy_obj l h)
  /\ (forall l' l'',
         out_result (deepcopy_obj l h) = Ok l' ->
         reachable (out_heap (deepcopy_obj l h)) l' l'' ->
         l'' ∉ dom h).
Proof.
  unfold deepcopy_obj, lift_heap.
  destruct (deepcopy recursion_limit (PRef l) h) as [[v h'] |] eqn:Hcopy;
    [| by split].
  destruct (deepcopy_ok h recursion_limit _ _ _ _
              (reflexivity _) (fresh_closed_refl h) Hcopy)
    as (Hsub & Hclosed & Hv).
  destruct v; try by split.
  split; [done |]. cbn. intros l' l'' [= <-] Hreach.
  eapply fresh_closed_reachable; [exact Hclosed | by apply Hv | exact Hreach].
Qed.

(** ** Updates work on a copy *)

Section HeapUnchanged.
Context {C : Collaborators}.
Variable self : client.

Lemma heap_unchanged_bind {A B} (m : M A) (k : A -> M B) h :
  out_heap (m h) = h -> (forall a h', out_heap (k a h') = h') ->
  out_heap (bind m k h) = h.
Proof.
  intros Hm Hk. unfold bind. destruct (out_result (m h)); simpl; [| done].
  by rewrite Hk.
Qed.

Lemma heap_unchanged_deref l h : out_heap (deref l h) = h.
Proof. unfold deref, lift_heap. by destruct (h !! l). Qed.

Lemma heap_unchanged_name_of l h : out_heap (name_of l h) = h.
Proof.
  unfold name_of. apply heap_unchanged_bind; [apply heap_unchanged_deref |].
  intros o h'. by destruct (getattr _ _) as [[]|].
Qed.

Lemma heap_unchanged_call_passing keyword r h :
  out_heap (call_passing self keyword r h) = h.
Proof. unfold call_passing. by destruct (kw_other (rq_kwargs r) !! _). Qed.

Lemma heap_unchanged_guard {A} (m : M A) h :
  out_heap (m h) = h -> out_heap (_handle_response_error m h) = h.
Proof. done. Qed.

Lemma heap_unchanged_populate uri header kw h :
  out_heap (_populate_header_within_kwargs self uri header kw h) = h.
Proof.
  rewrite populate_header_outcome. cbv zeta. by destruct (get_token _ _).
Qed.

Lemma heap_unchanged_forward_tokens entity kw h :
  out_heap (_create_forward_to_header_tokens self entity kw h) = h.
Proof.
  unfold _create_forward_to_header_tokens. apply heap_unchanged_bind.
  - destruct (forward_to entity); [| done].
    destruct (truthy_str _); [apply heap_unchanged_populate | done].
  - intros kw' h'.
    destruct (forward_dead_lettered_messages_to entity); [| done].
    destruct (truthy_str _); [apply heap_unchanged_populate | done].
Qed.

End HeapUnchanged.

Ltac heap_step :=
  first
    [ reflexivity
    | apply heap_unchanged_name_of
    | apply heap_unchanged_call_passing
    | apply heap_unchanged_forward_tokens
    | apply check_heap
    | match goal with
      | |- out_heap (_handle_response_error _ _) = _ =>
          apply heap_unchanged_guard
      | |- out_heap (bind _ _ _) = _ =>
          apply heap_unchanged_bind; [| intros ? ?]
      end ].

Ltac heap_steps := repeat (cbv beta iota zeta; heap_step).

Section CopyBeforeUpdate.
Context {C : Collaborators}.
Variable self : client.
Hypothesis Hframe : to_internal_entity_writes_self_only.

(** The common beginning of the four update operations: the typed object,
    its deep copy, the conversion of the copy, and then steps that leave
    the store alone. *)
Lemma copy_then_convert_frame {B} (cls : pyclass) (ns : option string)
    (entity : loc) (kw : kwargs)
    (k : loc -> description * kwargs -> M B) (h : heap) (l : loc) :
  (forall q p h', out_heap (k q p h') = h') ->
  l ∈ dom h ->
  out_heap
    (bind (create_properties_from_dict_if_needed entity cls)
       (fun q0 =>
          bind (deepcopy_obj q0)
            (fun q =>
               bind (lift_heap (_to_internal_entity cls q ns (Some kw)))
                 (k q))) h) !! l
  = h !! l.
Proof.
  intros Hk Hl.
  (* the typed object: [entity] itself or a new object *)
  assert (exists h1, h ⊆ h1
            /\ out_heap (create_properties_from_dict_if_needed entity cls h) = h1)
    as (h1 & Hsub1 & Hh1).
  { eexists; split; [| reflexivity].
    unfold create_properties_from_dict_if_needed, bind, deref, lift_heap.
    destruct (h !! entity); simpl; [| done].
    destruct (decide _); simpl; [| done].
    apply insert_subseteq, not_elem_of_dom, is_fresh. }
  assert (h1 !! l = h !! l) as Hl1.
  { apply elem_of_dom in Hl as [o Ho]. rewrite Ho.
    by eapply lookup_weaken. }
  assert (l ∈ dom h1) as Hdom1.
  { apply elem_of_dom. rewrite Hl1. by apply elem_of_dom. }
  destruct (out_result (create_properties_from_dict_if_needed entity cls h))
    as [q0 | e] eqn:Hq0.
  2: { rewrite (bind_heap_Raise _ _ _ _ Hq0). by rewrite Hh1. }
  rewrite (bind_heap_Ok _ _ _ _ Hq0), Hh1.
  (* the deep copy *)
  destruct (deepcopy_obj_spec q0 h1) as [Hsub2 Hfresh].
  set (h2 := out_heap (deepcopy_obj q0 h1)) in *.
  assert (h2 !! l = h !! l) as Hl2.
  { rewrite <- Hl1. apply elem_of_dom in Hdom1 as [o Ho]. rewrite Ho.
    by eapply lookup_weaken. }
  destruct (out_result (deepcopy_obj q0 h1)) as [q | e] eqn:Hq.
  2: { rewrite (bind_heap_Raise _ _ _ _ Hq). done. }
  rewrite (bind_heap_Ok _ _ _ _ Hq). fold h2.
  (* the conversion writes to the copy only *)
  assert (out_heap (lift_heap (_to_internal_entity cls q ns (Some kw)) h2) !! l
          = h !! l) as Hl3.
  { rewrite <- Hl2.
    rewrite (proj2 (lift_heap_result _ _)). apply Hframe.
    - apply elem_of_dom. rewrite Hl2. by apply elem_of_dom.
    - intros Hreach. by apply (Hfresh q l eq_refl Hreach). }
  destruct (out_result (lift_heap (_to_internal_entity cls q ns (Some kw)) h2))
    as [p | e] eqn:Hp.
  2: { by rewrite (bind_heap_Raise _ _ _ _ Hp). }
  by rewrite (bind_heap_Ok _ _ _ _ Hp), Hk.
Qed.

(** C8.  Provided the conversion method writes to its own object only,
    [update_queue], [update_topic], [update_subscription] and [update_rule]
    leave every object that existed before the call as it was: the entity
    passed in, whatever it refers to, and everything else. *)
Theorem update_leaves_existing_objects_unchanged :
  forall (topic_name subscription_name : string) (entity : loc) (kw : kwargs)
         (h : heap) (l : loc),
    l ∈ dom h ->
    out_heap (update_queue self entity kw h) !! l = h !! l
    /\ out_heap (update_topic self entity kw h) !! l = h !! l
    /\ out_heap (update_subscription self topic_name entity kw h) !! l = h !! l
    /\ out_heap (update_rule self topic_name subscription_name entity kw h) !! l
       = h !! l.
Proof.
  intros topic_name subscription_name entity kw h l Hl.
  split; [| split; [| split]].
  - unfold update_queue.
    apply (copy_then_convert_frame QueueProperties _ entity kw
             (fun q p => let (to_update, kw) := p in _)); [| done].
    intros q [to_update kw'] h'. heap_steps.
  - unfold update_topic.
    apply (copy_then_convert_frame TopicProperties _ entity kw
             (fun q p => let (to_update, kw) := p in _)); [| done].
    intros q [to_update kw'] h'. heap_steps.
  - unfold update_subscription.
    destruct (out_result (check (_validate_entity_name_type topic_name
                                   (Some "topic_name")) h)) as [[] | e] eqn:Hv.
    + rewrite (bind_heap_Ok _ _ _ _ Hv), check_heap.
      apply (copy_then_convert_frame SubscriptionProperties _ entity kw
               (fun q p => let (to_update, kw) := p in _)); [| done].
      intros q [to_update kw'] h'. heap_steps.
    + by rewrite (bind_heap_Raise _ _ _ _ Hv), check_heap.
  - unfold update_rule.
    destruct (out_result (check (_validate_topic_and_subscription_types
                                   topic_name subscription_name) h))
      as [[] | e] eqn:Hv.
    + rewrite (bind_heap_Ok _ _ _ _ Hv), check_heap.
      apply (copy_then_convert_frame RuleProperties _ entity kw
               (fun q p => let (to_update, kw) := p in _)); [| done].
      intros q [to_update kw'] h'. heap_steps.
    + by rewrite (bind_heap_Raise _ _ _ _ Hv), check_heap.
Qed.

End CopyBeforeUpdate.

(** The environment of the examples obeys the footprint condition. *)
Lemma demo_to_internal_writes_self_only :
  to_internal_entity_writes_self_only (C := Demo.collaborators).
Proof.
  intros cls l ns kw h l' Hdom Hreach. simpl. unfold Demo.to_internal.
  destruct (h !! l); simpl; [| done].
  rewrite lookup_insert_ne; [done |].
  intros ->. apply Hreach. apply rtc_refl.
Qed.

(** Updating the queue of [caller_store]: the rule inside its list of
    authorization rules is as it was. *)
Lemma update_leaves_existing_objects_unchanged_witness :
  out_heap (update_queue (C := Demo.collaborators) (Demo.admin Demo.aad)
              1%positive no_kwargs caller_store) !! 3%positive
  = caller_store !! 3%positive.
Proof.
  apply (update_leaves_existing_objects_unchanged (C := Demo.collaborators)
           (Demo.admin Demo.aad) demo_to_internal_writes_self_only
           "t" "s" 1%positive no_kwargs caller_store 3%positive).
  apply elem_of_dom. by eexists.
Defined.

(** The same update, run: the request is made for the copy, which the
    conversion has marked, and the three objects of the caller are
    untouched; converting the caller's object in place would have marked
    it. *)
Example update_queue_on_caller_store :
  let o := update_queue (C := Demo.collaborators) (Demo.admin Demo.aad)
             1%positive no_kwargs caller_store in
  out_result o = Ok tt
  /\ map rq_names (requests_of (out_trace o)) = [["q"]]
  /\ (forall l, l ∈ [1%positive; 2%positive; 3%positive] ->
                out_heap o !! l = caller_store !! l)
  /\ (o_slots <$> out_heap o !! 6%positive)
     = Some [("name", PStr "q"); ("authorization_rules", PRef 5%positive);
             ("max_delivery_count", PInt 10); ("_internal", PBool true)]
  /\ (Demo.to_internal QueueProperties 1%positive None None caller_store).2
       !! 1%positive <> caller_store !! 1%positive.
Proof.
  repeat split; try by vm_compute.
  intros l Hl. repeat (apply elem_of_cons in Hl as [-> | Hl]; [by vm_compute |]).
  by apply elem_of_nil in Hl.
Qed.

(** ** The copy is produced within the recursion limit *)

Lemma copy_slots_returns (h0 : heap) (n fuel : nat) :
  (forall v h, depth_le h0 n v -> h0 ⊆ h -> is_Some (deepcopy fuel v h)) ->
  forall slots h,
    Forall (fun kv => depth_le h0 n kv.2) slots -> h0 ⊆ h ->
    is_Some (copy_slots (deepcopy fuel) slots h).
Proof.
  intros Hcopy. induction slots as [| [k v] rest IH]; intros h Hall Hsub;
    simpl; [done |].
  apply Forall_cons in Hall as [Hv Hrest].
  destruct (Hcopy v h Hv Hsub) as [[v' h1] Hrun]. rewrite Hrun.
  destruct (deepcopy_ok h fuel _ _ _ _ (reflexivity _) (fresh_closed_refl h) Hrun)
    as (Hsub1 & _).
  destruct (IH h1 Hrest) as [[rest' h2] Hrun2]; [by etrans |].
  by rewrite Hrun2.
Qed.

(** Fuel above the nesting depth is enough. *)
Lemma deepcopy_returns (h0 : heap) (n : nat) :
  forall fuel v h,
    n <= fuel -> depth_le h0 n v -> h0 ⊆ h -> is_Some (deepcopy fuel v h).
Proof.
  induction n as [| n IH]; intros fuel v h Hfuel Hdepth Hsub.
  - destruct v; try done; destruct fuel; done.
  - destruct v; try (destruct fuel; done).
    destruct fuel as [| fuel]; [lia |].
    destruct Hdepth as (o & Ho & Hall). simpl.
    rewrite (lookup_weaken _ _ _ _ Ho Hsub).
    destruct (copy_slots_returns h0 n fuel) with (slots := o_slots o) (h := h)
      as [[slots' h1] Hrun]; [| done | done | by rewrite Hrun].
    intros v' h' Hv' Hsub'. apply IH; [lia | done | done].
Qed.

Lemma deepcopy_ref_is_ref (fuel : nat) (l : loc) (h : heap) (v : pyval)
    (h' : heap) :
  deepcopy fuel (PRef l) h = Some (v, h') -> exists l', v = PRef l'.
Proof.
  destruct fuel; simpl; [done |].
  destruct (h !! l); [| done].
  destruct (copy_slots _ _ _) as [[] |]; [| done].
  intros [= <- <-]. by eexists.
Qed.

(** An object that nests no deeper than the recursion limit is copied. *)
Lemma deepcopy_obj_returns (l : loc) (h : heap) :
  depth_le h recursion_limit (PRef l) ->
  exists l', out_result (deepcopy_obj l h) = Ok l'.
Proof.
  intros Hdepth.
  destruct (deepcopy_returns h recursion_limit recursion_limit (PRef l) h)
    as [[v h'] Hrun]; [done | done | done |].
  destruct (deepcopy_ref_is_ref _ _ _ _ _ Hrun) as [l' ->].
  unfold deepcopy_obj, lift_heap. rewrite Hrun. by eexists.
Qed.

(** * Further properties of the client *)

(** ** Which operations are guarded *)

Section Guarded.
Context {C : Collaborators}.
Variable self : client.
Variable defaults : kwdefaults.

(** X1.  Every request of the read operations, of the create and update
    operations and of [delete_queue] is made inside
    [_handle_response_error]. *)
Theorem requests_inside_guard :
  forall (name topic_name subscription_name rule_name : string) (entity : loc)
         (qa : QueueKw.t) (ta : TopicKw.t) (sa : SubscriptionKw.t)
         (filter : option pyval) (action : pyval) (kw : kwargs) (h : heap),
    let guarded := fun (g : bool) (_ : request) => g = true in
    all_requests guarded (out_trace (get_queue self name kw h))
    /\ all_requests guarded (out_trace (get_queue_runtime_properties self name kw h))
    /\ all_requests guarded (out_trace (get_topic self name kw h))
    /\ all_requests guarded (out_trace (get_topic_runtime_properties self name kw h))
    /\ all_requests guarded
         (out_trace (get_subscription self topic_name subscription_name kw h))
    /\ all_requests guarded
         (out_trace (get_subscription_runtime_properties self topic_name
                       subscription_name kw h))
    /\ all_requests guarded
         (out_trace (get_rule self topic_name subscription_name rule_name kw h))
    /\ all_requests guarded (out_trace (create_queue self name qa kw h))
    /\ all_requests guarded (out_trace (create_topic self name ta kw h))
    /\ all_requests guarded
         (out_trace (create_subscription self topic_name subscription_name sa kw h))
    /\ all_requests guarded
         (out_trace (create_rule self defaults topic_name subscription_name
                       rule_name filter action kw h))
    /\ all_requests guarded (out_trace (update_queue self entity kw h))
    /\ all_requests guarded (out_trace (update_topic self entity kw h))
    /\ all_requests guarded
         (out_trace (update_subscription self topic_name entity kw h))
    /\ all_requests guarded
         (out_trace (update_rule self topic_name subscription_name entity kw h))
    /\ all_requests guarded (out_trace (delete_queue self name kw h)).
Proof.
  intros. subst guarded.
  repeat match goal with |- _ /\ _ => split end;
    unfold get_queue, get_queue_runtime_properties, get_topic,
      get_topic_runtime_properties, get_subscription,
      get_subscription_runtime_properties, get_rule, create_queue,
      create_topic, create_subscription, create_rule, update_queue,
      update_topic, update_subscription, update_rule, delete_queue,
      _get_entity_element, _get_subscription_element, _get_rule_element;
    trace_steps.
Qed.

End Guarded.

(** ** Exceptions of the service *)

Section Surfaces.
Context {C : Collaborators}.
Variable self : client.

Lemma surfaces_silent {A} (f : exn -> exn) (o : outcome A) :
  out_trace o = [] -> surfaces self f o.
Proof. intros Ho g r e Hin. rewrite Ho in Hin. destruct Hin. Qed.

Lemma surfaces_tokens {A} (f : exn -> exn) (o : outcome A) :
  token_phase o -> surfaces self f o.
Proof. intros Ho g r e Hin. by apply not_in_token_phase in Hin. Qed.

Lemma surfaces_bind {A B} (f : exn -> exn) (m : M A) (k : A -> M B) h :
  surfaces self f (m h) -> (forall a h', surfaces self f (k a h')) ->
  surfaces self f (bind m k h).
Proof.
  intros Hm Hk g r e Hin He.
  apply in_trace_bind in Hin as [Hin | (a & Ha & Hin)].
  - apply (bind_result_Raise _ _ _ _ (Hm _ _ _ Hin He)).
  - rewrite (bind_result_Ok _ _ _ _ Ha). by eapply Hk.
Qed.

Lemma surfaces_call r h : surfaces self id (call self r h).
Proof. intros g r' e [[= _ <-] | []]. simpl. by intros ->. Qed.

Lemma surfaces_call_passing keyword r h :
  surfaces self id (call_passing self keyword r h).
Proof.
  unfold call_passing. destruct (kw_other (rq_kwargs r) !! keyword).
  - by apply surfaces_silent.
  - apply surfaces_call.
Qed.

Lemma surfaces_guard {A} (m : M A) h :
  surfaces self id (m h) ->
  surfaces self translate_error (_handle_response_error m h).
Proof.
  intros Hm g r e Hin He. apply in_trace_guard in Hin as [_ [g' Hin]].
  unfold _handle_response_error; simpl. by rewrite (Hm _ _ _ Hin He).
Qed.

Lemma surfaces_forward_tokens f entity kw h :
  surfaces self f (_create_forward_to_header_tokens self entity kw h).
Proof. apply surfaces_tokens, token_phase_forward_tokens. Qed.

Lemma name_of_silent l h : out_trace (name_of l h) = [].
Proof.
  unfold name_of, bind, deref.
  pose proof (lift_heap_silent (A := pyobj)) as Hs.
  destruct (out_result (lift_heap _ h)) eqn:Hr; rewrite Hs; [| done].
  simpl. by destruct (getattr _ _) as [[] |].
Qed.

Lemma content_of_silent e h : out_trace (content_of e h) = [].
Proof. unfold content_of. by destruct (content e). Qed.

End Surfaces.

Ltac surfaces_step :=
  first
    [ apply surfaces_call
    | apply surfaces_call_passing
    | apply surfaces_forward_tokens
    | apply surfaces_silent;
        first [ apply lift_heap_silent | apply check_silent
              | apply create_properties_silent | apply name_of_silent
              | apply content_of_silent | reflexivity ]
    | match goal with
      | |- surfaces _ _ (_handle_response_error _ _) => apply surfaces_guard
      | |- surfaces _ _ (bind _ _ _) => apply surfaces_bind; [| intros ? ?]
      | |- surfaces _ _ ((let '(_, _) := ?p in _) _) => destruct p
      | |- surfaces _ _ (match ?x with _ => _ end _) => destruct x
      end ].

Ltac surfaces_steps :=
  repeat (cbv beta iota zeta delta [kwargs_pop]; surfaces_step).

Section ServiceErrors.
Context {C : Collaborators}.
Variable self : client.
Variable defaults : kwdefaults.

(** X2.  When the service raises on the request of a read, a create, an
    update or [delete_queue], the caller receives that exception translated
    by [_handle_response_error]. *)
Theorem service_error_is_translated :
  forall (name topic_name subscription_name rule_name : string) (entity : loc)
         (qa : QueueKw.t) (ta : TopicKw.t) (sa : SubscriptionKw.t)
         (filter : option pyval) (action : pyval) (kw : kwargs) (h : heap),
    surfaces self translate_error (get_queue self name kw h)
    /\ surfaces self translate_error (get_queue_runtime_properties self name kw h)
    /\ surfaces self translate_error (get_topic self name kw h)
    /\ surfaces self translate_error (get_topic_runtime_properties self name kw h)
    /\ surfaces self translate_error
         (get_subscription self topic_name subscription_name kw h)
    /\ surfaces self translate_error
         (get_subscription_runtime_properties self topic_name subscription_name
            kw h)
    /\ surfaces self translate_error
         (get_rule self topic_name subscription_name rule_name kw h)
    /\ surfaces self translate_error (create_queue self name qa kw h)
    /\ surfaces self translate_error (create_topic self name ta kw h)
    /\ surfaces self translate_error
         (create_subscription self topic_name subscription_name sa kw h)
    /\ surfaces self translate_error
         (create_rule self defaults topic_name subscription_name rule_name
            filter action kw h)
    /\ surfaces self translate_error (update_queue self entity kw h)
    /\ surfaces self translate_error (update_topic self entity kw h)
    /\ surfaces self translate_error
         (update_subscription self topic_name entity kw h)
    /\ surfaces self translate_error
         (update_rule self topic_name subscription_name entity kw h)
    /\ surfaces self translate_error (delete_queue self name kw h).
Proof.
  intros.
  repeat match goal with |- surfaces _ _ _ /\ _ => split end;
    unfold get_queue, get_queue_runtime_properties, get_topic,
      get_topic_runtime_properties, get_subscription,
      get_subscription_runtime_properties, get_rule, create_queue,
      create_topic, create_subscription, create_rule, update_queue,
      update_topic, update_subscription, update_rule, delete_queue,
      _get_entity_element, _get_subscription_element, _get_rule_element;
    surfaces_steps.
Qed.

(** X3.  When the service raises on the request of [delete_topic],
    [delete_subscription], [delete_rule] or [get_namespace_properties], the
    caller receives that exception as it is. *)
Theorem service_error_is_not_translated :
  forall (topic_name subscription_name rule_name : string) (kw : kwargs)
         (h : heap),
    surfaces self id (delete_topic self topic_name kw h)
    /\ surfaces self id (delete_subscription self topic_name subscription_name kw h)
    /\ surfaces self id
         (delete_rule self topic_name subscription_name rule_name kw h)
    /\ surfaces self id (get_namespace_properties self kw h).
Proof.
  intros.
  repeat match goal with |- surfaces _ _ _ /\ _ => split end;
    unfold delete_topic, delete_subscription, delete_rule,
      get_namespace_properties;
    surfaces_steps.
Qed.

End ServiceErrors.

(** Deleting a queue that the service does not know: the 404 of the service
    reaches the caller translated. *)
Lemma service_error_is_translated_witness :
  out_result (delete_queue (C := Demo.collaborators) (Demo.admin Demo.aad)
                "does-not-exist" no_kwargs ∅)
  = Raise (Demo.translate (HttpResponseError 404)).
Proof.
  eapply (service_error_is_translated (C := Demo.collaborators)
            (Demo.admin Demo.aad) Demo.kwdefaults0
            "does-not-exist" "t" "s" "r" 1%positive QueueKw.defaults
            TopicKw.defaults SubscriptionKw.defaults None PNone no_kwargs ∅).
  - left. reflexivity.
  - reflexivity.
Defined.

(** Deleting a subscription that the service does not know: the 404 of the
    service reaches the caller untranslated. *)
Lemma service_error_is_not_translated_witness :
  out_result (delete_subscription (C := Demo.collaborators)
                (Demo.admin Demo.aad) "t" "does-not-exist" no_kwargs ∅)
  = Raise (HttpResponseError 404).
Proof.
  eapply (service_error_is_not_translated (C := Demo.collaborators)
            (Demo.admin Demo.aad) "t" "does-not-exist" "r" no_kwargs ∅).
  - left. reflexivity.
  - reflexivity.
Defined.

(** ** How often the client asks the service and the credential *)

Section Counting.
Context {C : Collaborators}.
Variable self : client.

Lemma requests_of_app tr1 tr2 :
  requests_of (tr1 ++ tr2) = requests_of tr1 ++ requests_of tr2.
Proof. unfold requests_of. apply omap_app. Qed.

Lemma quiet_silent {A} (o : outcome A) : out_trace o = [] -> quiet o.
Proof. unfold quiet. by intros ->. Qed.

Lemma quiet_tokens {A} (o : outcome A) : token_phase o -> quiet o.
Proof. intros [Ho _]. by apply requests_of_tokens. Qed.

Lemma quiet_bind {A B} (m : M A) (k : A -> M B) h :
  quiet (m h) -> (forall a h', quiet (k a h')) -> quiet (bind m k h).
Proof.
  unfold quiet, bind. intros Hm Hk.
  destruct (out_result (m h)); simpl; [| done].
  by rewrite requests_of_app, Hm, Hk.
Qed.

Lemma at_most_one_quiet {A} (o : outcome A) : quiet o -> at_most_one_request o.
Proof. unfold quiet, at_most_one_request. intros ->. simpl. lia. Qed.

Lemma at_most_one_bind_l {A B} (m : M A) (k : A -> M B) h :
  quiet (m h) -> (forall a h', at_most_one_request (k a h')) ->
  at_most_one_request (bind m k h).
Proof.
  unfold quiet, at_most_one_request, bind. intros Hm Hk.
  destruct (out_result (m h)); simpl.
  - rewrite requests_of_app, Hm. apply Hk.
  - rewrite Hm. simpl. lia.
Qed.

Lemma at_most_one_bind_r {A B} (m : M A) (k : A -> M B) h :
  at_most_one_request (m h) -> (forall a h', quiet (k a h')) ->
  at_most_one_request (bind m k h).
Proof.
  unfold quiet, at_most_one_request, bind. intros Hm Hk.
  destruct (out_result (m h)); simpl; [| done].
  by rewrite requests_of_app, Hk, app_nil_r.
Qed.

Lemma at_most_one_call r h : at_most_one_request (call self r h).
Proof. unfold at_most_one_request. simpl. lia. Qed.

Lemma at_most_one_call_passing keyword r h :
  at_most_one_request (call_passing self keyword r h).
Proof.
  unfold call_passing. destruct (kw_other (rq_kwargs r) !! keyword).
  - unfold at_most_one_request. simpl. lia.
  - apply at_most_one_call.
Qed.

Lemma requests_of_guard_length tr :
  length (requests_of (map enter_guard tr)) = length (requests_of tr).
Proof.
  induction tr as [| [] tr IH]; simpl; [done | done |].
  unfold requests_of in *. simpl. by rewrite IH.
Qed.

Lemma at_most_one_guard {A} (m : M A) h :
  at_most_one_request (m h) ->
  at_most_one_request (_handle_response_error m h).
Proof.
  unfold at_most_one_request, _handle_response_error; simpl.
  by rewrite requests_of_guard_length.
Qed.

End Counting.

Ltac quiet_step :=
  first
    [ apply quiet_tokens, token_phase_forward_tokens
    | apply quiet_silent;
        first [ apply lift_heap_silent | apply check_silent
              | apply create_properties_silent | apply name_of_silent
              | apply content_of_silent | reflexivity ]
    | match goal with
      | |- quiet (bind _ _ _) => apply quiet_bind; [| intros ? ?]
      | |- quiet ((let '(_, _) := ?p in _) _) => destruct p
      | |- quiet (match ?x with _ => _ end _) => destruct x
      end ].

Ltac quiet_steps := repeat (cbv beta iota zeta delta [kwargs_pop]; quiet_step).

Ltac count_step :=
  first
    [ apply at_most_one_call
    | apply at_most_one_call_passing
    | match goal with
      | |- at_most_one_request (_handle_response_error _ _) =>
          apply at_most_one_guard
      | |- at_most_one_request (bind _ _ _) =>
          first [ apply at_most_one_bind_l; [solve [quiet_steps] | intros ? ?]
                | apply at_most_one_bind_r; [| intros ? ?; solve [quiet_steps]] ]
      | |- at_most_one_request ((let '(_, _) := ?p in _) _) => destruct p
      | |- at_most_one_request (match ?x with _ => _ end _) => destruct x
      end
    | apply at_most_one_quiet; solve [quiet_steps] ].

Ltac count_steps := repeat (cbv beta iota zeta delta [kwargs_pop]; count_step).

Section OneRequest.
Context {C : Collaborators}.
Variable self : client.
Variable defaults : kwdefaults.

(** X4.  No operation talks to the service more than once: each read,
    create, update and delete makes at most one request, whatever the
    outcome. *)
Theorem at_most_one_request_per_operation :
  forall (name topic_name subscription_name rule_name : string) (entity : loc)
         (qa : QueueKw.t) (ta : TopicKw.t) (sa : SubscriptionKw.t)
         (filter : option pyval) (action : pyval) (kw : kwargs) (h : heap),
    at_most_one_request (get_queue self name kw h)
    /\ at_most_one_request (get_queue_runtime_properties self name kw h)
    /\ at_most_one_request (get_topic self name kw h)
    /\ at_most_one_request (get_topic_runtime_properties self name kw h)
    /\ at_most_one_request
         (get_subscription self topic_name subscription_name kw h)
    /\ at_most_one_request
         (get_subscription_runtime_properties self topic_name subscription_name
            kw h)
    /\ at_most_one_request
         (get_rule self topic_name subscription_name rule_name kw h)
    /\ at_most_one_request (create_queue self name qa kw h)
    /\ at_most_one_request (create_topic self name ta kw h)
    /\ at_most_one_request
         (create_subscription self topic_name subscription_name sa kw h)
    /\ at_most_one_request
         (create_rule self defaults topic_name subscription_name rule_name
            filter action kw h)
    /\ at_most_one_request (update_queue self entity kw h)
    /\ at_most_one_request (update_topic self entity kw h)
    /\ at_most_one_request (update_subscription self topic_name entity kw h)
    /\ at_most_one_request
         (update_rule self topic_name subscription_name entity kw h)
    /\ at_most_one_request (delete_queue self name kw h)
    /\ at_most_one_request (delete_topic self name kw h)
    /\ at_most_one_request
         (delete_subscription self topic_name subscription_name kw h)
    /\ at_most_one_request
         (delete_rule self topic_name subscription_name rule_name kw h)
    /\ at_most_one_request (get_namespace_properties self kw h).
Proof.
  intros.
  repeat match goal with |- at_most_one_request _ /\ _ => split end;
    unfold get_queue, get_queue_runtime_properties, get_topic,
      get_topic_runtime_properties, get_subscription,
      get_subscription_runtime_properties, get_rule, create_queue,
      create_topic, create_subscription, create_rule, update_queue,
      update_topic, update_subscription, update_rule, delete_queue,
      delete_topic, delete_subscription, delete_rule,
      get_namespace_properties,
      _get_entity_element, _get_subscription_element, _get_rule_element;
    count_steps.
Qed.

End OneRequest.

Lemma request_phase_silent {A} (o : outcome A) :
  out_trace o = [] -> request_phase o.
Proof. unfold request_phase. by intros ->. Qed.

Ltac phase_step :=
  first
    [ apply request_phase_call
    | apply request_phase_call_passing
    | apply request_phase_silent;
        first [ apply lift_heap_silent | apply check_silent
              | apply create_properties_silent | apply name_of_silent
              | apply content_of_silent | reflexivity ]
    | match goal with
      | |- request_phase (_handle_response_error _ _) =>
          apply request_phase_guard
      | |- request_phase (bind _ _ _) =>
          apply request_phase_bind; [| intros ? ?]
      | |- request_phase ((let '(_, _) := ?p in _) _) => destruct p
      | |- request_phase (match ?x with _ => _ end _) => destruct x
      end ].

Ltac phase_steps := repeat (cbv beta iota zeta delta [kwargs_pop]; phase_step).

Section TokenFree.
Context {C : Collaborators}.
Variable self : client.
Variable defaults : kwdefaults.

(** X5.  Only the four operations on queues and subscriptions that may
    forward call [get_token] on the credential themselves, for the
    supplementary headers: the code of the reads, of the operations on
    topics and rules, of the deletions and of [get_namespace_properties]
    makes no such call, and all it does towards the outside is its
    request.  What the authentication policy inside the generated client
    asks of the credential for that request is outside this statement. *)
Theorem no_supplementary_token_without_forwarding :
  forall (name topic_name subscription_name rule_name : string) (entity : loc)
         (ta : TopicKw.t) (filter : option pyval) (action : pyval)
         (kw : kwargs) (h : heap),
    request_phase (get_queue self name kw h)
    /\ request_phase (get_queue_runtime_properties self name kw h)
    /\ request_phase (get_topic self name kw h)
    /\ request_phase (get_topic_runtime_properties self name kw h)
    /\ request_phase (get_subscription self topic_name subscription_name kw h)
    /\ request_phase
         (get_subscription_runtime_properties self topic_name subscription_name
            kw h)
    /\ request_phase (get_rule self topic_name subscription_name rule_name kw h)
    /\ request_phase (create_topic self name ta kw h)
    /\ request_phase
         (create_rule self defaults topic_name subscription_name rule_name
            filter action kw h)
    /\ request_phase (update_topic self entity kw h)
    /\ request_phase (update_rule self topic_name subscription_name entity kw h)
    /\ request_phase (delete_queue self name kw h)
    /\ request_phase (delete_topic self name kw h)
    /\ request_phase (delete_subscription self topic_name subscription_name kw h)
    /\ request_phase
         (delete_rule self topic_name subscription_name rule_name kw h)
    /\ request_phase (get_namespace_properties self kw h).
Proof.
  intros.
  repeat match goal with |- request_phase _ /\ _ => split end;
    unfold get_queue, get_queue_runtime_properties, get_topic,
      get_topic_runtime_properties, get_subscription,
      get_subscription_runtime_properties, get_rule,
      create_topic, create_rule, update_topic, update_rule, delete_queue,
      delete_topic, delete_subscription, delete_rule,
      get_namespace_properties,
      _get_entity_element, _get_subscription_element, _get_rule_element;
    phase_steps.
Qed.

End TokenFree.

(** ** More on the supplementary tokens *)

Section MoreForwardTokens.
Context {C : Collaborators}.
Variable self : client.

Lemma populate_keeps uri header kw h kw' :
  out_result (_populate_header_within_kwargs self uri header kw h) = Ok kw' ->
  exists token, kw' = kwargs_set_header header token kw.
Proof.
  rewrite populate_header_outcome. cbv zeta.
  destruct (get_token _ _); [| done]. intros [= <-]. by eexists.
Qed.

Lemma forward_step_keeps (target : option string) (header : string)
    (kw : kwargs) (h : heap) (kw' : kwargs) :
  out_result
    (match target with
     | Some uri =>
         if truthy_str (Some uri)
         then _populate_header_within_kwargs self uri header kw
         else ret kw
     | None => ret kw
     end h) = Ok kw' ->
  kw_other kw' = kw_other kw
  /\ (is_Some (kw_headers kw) -> is_Some (kw_headers kw'))
  /\ (forall header', header' <> header ->
                      header_of kw' header' = header_of kw header').
Proof.
  destruct target as [uri |]; [destruct (truthy_str (Some uri)) |];
    try (intros [= <-]; done).
  intros (token & ->)%populate_keeps. split; [done |]. split; [by eexists |].
  intros header' Hne. by apply header_of_set_ne.
Qed.

(** X6.  [_create_forward_to_header_tokens] touches the two supplementary
    headers only: when it returns, the caller's other keywords are as they
    were, every other header is as it was, and there is a [headers]
    entry. *)
Theorem forward_tokens_keep_caller_keywords :
  forall (entity : description) (kw : kwargs) (h : heap) (kw' : kwargs),
    out_result (_create_forward_to_header_tokens self entity kw h) = Ok kw' ->
    kw_other kw' = kw_other kw
    /\ is_Some (kw_headers kw')
    /\ (forall header,
           header <> SUPPLEMENTARY_AUTHORIZATION_HEADER ->
           header <> DEAD_LETTER_SUPPLEMENTARY_AUTHORIZATION_HEADER ->
           header_of kw' header = header_of kw header).
Proof.
  intros entity kw h kw'. unfold _create_forward_to_header_tokens.
  destruct (out_result
              (match forward_to entity with
               | Some uri =>
                   if truthy_str (Some uri)
                   then _populate_header_within_kwargs self uri
                          SUPPLEMENTARY_AUTHORIZATION_HEADER
                          (kwargs_ensure_headers kw)
                   else ret (kwargs_ensure_headers kw)
               | None => ret (kwargs_ensure_headers kw)
               end h)) as [kw1 | e] eqn:Hfirst.
  2: { by rewrite (bind_result_Raise _ _ _ _ Hfirst). }
  rewrite (bind_result_Ok _ _ _ _ Hfirst). intros Hsecond.
  apply forward_step_keeps in Hfirst as (Ho1 & Hh1 & Hk1).
  apply forward_step_keeps in Hsecond as (Ho2 & Hh2 & Hk2).
  split; [by rewrite Ho2, Ho1 |]. split.
  - apply Hh2, Hh1. by eexists.
  - intros header Hs Hd. rewrite Hk2, Hk1; done.
Qed.

(** X7.  An entity without forward targets needs no token: when both
    targets are absent or empty, [_create_forward_to_header_tokens] asks
    the credential for nothing and only makes sure that the keywords have a
    [headers] entry. *)
Theorem forward_tokens_without_targets :
  forall (entity : description) (kw : kwargs) (h : heap),
    truthy_str (forward_to entity) = false ->
    truthy_str (forward_dead_lettered_messages_to entity) = false ->
    _create_forward_to_header_tokens self entity kw h
    = ret (kwargs_ensure_headers kw) h.
Proof.
  intros entity kw h Hf Hd. unfold _create_forward_to_header_tokens.
  rewrite (forward_step_absent self _ _ _ Hf). unfold bind at 1.
  cbn [ret out_result out_heap out_trace].
  by rewrite (forward_step_absent self _ _ _ Hd).
Qed.

End MoreForwardTokens.

(** A description whose forward target is the empty string. *)
Lemma forward_tokens_without_targets_witness :
  out_trace (_create_forward_to_header_tokens (C := Demo.collaborators)
               (Demo.admin Demo.failing)
               {| forward_to := Some ""; forward_dead_lettered_messages_to := None;
                  d_fields := [] |} no_kwargs ∅) = [].
Proof.
  rewrite (forward_tokens_without_targets (C := Demo.collaborators)
             (Demo.admin Demo.failing)
             {| forward_to := Some ""; forward_dead_lettered_messages_to := None;
                d_fields := [] |} no_kwargs ∅ eq_refl eq_refl).
  reflexivity.
Defined.

(** A caller's own header survives, next to the supplementary one. *)
Lemma forward_tokens_keep_caller_keywords_witness :
  let kw := {| kw_headers := Some {[ "x-ms-client" := "mine" ]};
               kw_other := {[ "timeout" := PInt 30 ]} |} in
  let entity := {| forward_to := Some "sb://ns/a";
                   forward_dead_lettered_messages_to := None; d_fields := [] |} in
  let kw' := kwargs_set_header "ServiceBusSupplementaryAuthorization"
               "sig:sb://ns/a" kw in
  kw_other kw' = kw_other kw /\ header_of kw' "x-ms-client" = Some "mine".
Proof.
  intros kw entity kw'.
  destruct (forward_tokens_keep_caller_keywords (C := Demo.collaborators)
              (Demo.admin Demo.shared_key) entity kw ∅ kw' eq_refl)
    as (Hother & _ & Hheaders).
  split; [exact Hother |]. by rewrite Hheaders.
Defined.

Section TokenFailures.
Context {C : Collaborators}.
Variable self : client.

Lemma token_failure_request_phase {A} (o : outcome A) :
  request_phase o -> token_failure_surfaces (_credential self) o.
Proof.
  unfold request_phase. rewrite forallb_forall.
  intros Ho scope Hin. by apply Ho in Hin.
Qed.

Lemma token_failure_bind {A B} (m : M A) (k : A -> M B) h :
  token_failure_surfaces (_credential self) (m h) ->
  (forall a h', token_failure_surfaces (_credential self) (k a h')) ->
  token_failure_surfaces (_credential self) (bind m k h).
Proof.
  intros Hm Hk scope Hin.
  apply in_trace_bind in Hin as [Hin | (a & Ha & Hin)].
  - destruct (Hm _ Hin) as (e & He & Hr). exists e. split; [done |].
    by apply bind_result_Raise.
  - destruct (Hk _ _ _ Hin) as (e & He & Hr). exists e. split; [done |].
    by rewrite (bind_result_Ok _ _ _ _ Ha).
Qed.

Lemma token_failure_populate uri header kw h :
  token_failure_surfaces (_credential self)
    (_populate_header_within_kwargs self uri header kw h).
Proof.
  rewrite populate_header_outcome. cbv zeta.
  destruct (get_token _ _) as [t | e] eqn:Htok; intros scope [[=] | []].
  subst scope. by exists e.
Qed.

Lemma token_failure_ret {A} (a : A) h :
  token_failure_surfaces (_credential self) (ret a h).
Proof. intros scope []. Qed.

Lemma token_failure_forward_tokens entity kw h :
  token_failure_surfaces (_credential self)
    (_create_forward_to_header_tokens self entity kw h).
Proof.
  unfold _create_forward_to_header_tokens. apply token_failure_bind.
  - destruct (forward_to entity); [| apply token_failure_ret].
    destruct (truthy_str _);
      [apply token_failure_populate | apply token_failure_ret].
  - intros kw' h'.
    destruct (forward_dead_lettered_messages_to entity);
      [| apply token_failure_ret].
    destruct (truthy_str _);
      [apply token_failure_populate | apply token_failure_ret].
Qed.

End TokenFailures.

Ltac token_failure_step :=
  first
    [ apply token_failure_forward_tokens
    | apply token_failure_request_phase; solve [phase_steps]
    | match goal with
      | |- token_failure_surfaces _ (bind _ _ _) =>
          apply token_failure_bind; [| intros ? ?]
      | |- token_failure_surfaces _ ((let '(_, _) := ?p in _) _) => destruct p
      | |- token_failure_surfaces _ (match ?x with _ => _ end _) => destruct x
      end ].

Ltac token_failure_steps :=
  repeat (cbv beta iota zeta delta [kwargs_pop]; token_failure_step).

Section TokenFailureSurfaces.
Context {C : Collaborators}.
Variable self : client.

(** X8.  In [create_queue], [update_queue], [create_subscription] and
    [update_subscription], when the credential fails to issue a
    supplementary token, the operation raises the exception of the
    credential itself: the acquisition is outside
    [_handle_response_error], so nothing translates it. *)
Theorem token_failure_is_not_translated :
  forall (queue_name topic_name subscription_name : string) (entity : loc)
         (qa : QueueKw.t) (sa : SubscriptionKw.t) (kw : kwargs) (h : heap),
    token_failure_surfaces (_credential self)
      (create_queue self queue_name qa kw h)
    /\ token_failure_surfaces (_credential self) (update_queue self entity kw h)
    /\ token_failure_surfaces (_credential self)
         (create_subscription self topic_name subscription_name sa kw h)
    /\ token_failure_surfaces (_credential self)
         (update_subscription self topic_name entity kw h).
Proof.
  intros.
  repeat match goal with |- token_failure_surfaces _ _ /\ _ => split end;
    unfold create_queue, update_queue, create_subscription,
      update_subscription;
    token_failure_steps.
Qed.

End TokenFailureSurfaces.

(** Updating a queue that forwards, with a credential that fails: the
    failure of the credential is what the caller sees. *)
Lemma token_failure_is_not_translated_witness :
  let h := {[ 1%positive := {| o_class := QueueProperties;
                               o_slots := [("name", PStr "q");
                                           ("forward_to", PStr "sb://ns/t")] |} ]} in
  exists e,
    get_token Demo.failing "https://servicebus.azure.net//.default" = Raise e
    /\ out_result (update_queue (C := Demo.collaborators)
                     (Demo.admin Demo.failing) 1%positive no_kwargs h)
       = Raise e.
Proof.
  intros h.
  apply (proj1 (proj2 (token_failure_is_not_translated (C := Demo.collaborators)
                         (Demo.admin Demo.failing) "q" "t" "s" 1%positive
                         QueueKw.defaults SubscriptionKw.defaults no_kwargs h))).
  left. by vm_compute.
Defined.

(** ** Reads that find the entity, and writes that get no entity back *)

Section ReadsAndWrites.
Context {C : Collaborators}.
Variable self : client.
Variable defaults : kwdefaults.

Lemma get_entity_element_heap name kw h :
  out_heap (_get_entity_element self name kw h) = h.
Proof.
  unfold _get_entity_element. destruct (bind_enrich kw). heap_steps.
Qed.

Lemma get_subscription_element_heap topic_name subscription_name kw h :
  out_heap (_get_subscription_element self topic_name subscription_name kw h) = h.
Proof.
  unfold _get_subscription_element. destruct (bind_enrich kw). heap_steps.
Qed.

Lemma get_rule_element_heap topic_name subscription_name rule_name kw h :
  out_heap (_get_rule_element self topic_name subscription_name rule_name kw h)
  = h.
Proof.
  unfold _get_rule_element. heap_steps.
Qed.

(** X9.  [get_topic_runtime_properties] and
    [get_subscription_runtime_properties] raise [ResourceNotFoundError]
    when the fetched element decodes to an entry without content. *)
Theorem runtime_get_without_content_raises_not_found :
  forall (topic_name subscription_name : string) (kw : kwargs) (h : heap),
    (forall ele,
        out_result (_get_entity_element self topic_name kw h) = Ok ele ->
        content (deserialize TopicDescriptionEntry ele) = None ->
        out_result (get_topic_runtime_properties self topic_name kw h)
        = Raise (ResourceNotFoundError
                   ("Topic " +:+ topic_name +:+ " does not exist")))
    /\ (forall ele,
        out_result (_get_subscription_element self topic_name subscription_name
                      kw h) = Ok ele ->
        content (deserialize SubscriptionDescriptionEntry ele) = None ->
        out_result (get_subscription_runtime_properties self topic_name
                      subscription_name kw h)
        = Raise (subscription_not_found topic_name subscription_name)).
Proof.
  intros. split; intros ele Hfetch Hcontent.
  - unfold get_topic_runtime_properties.
    rewrite (bind_result_Ok _ _ _ _ Hfetch). cbv beta zeta. by rewrite Hcontent.
  - unfold get_subscription_runtime_properties.
    rewrite (bind_result_Ok _ _ _ _ Hfetch). cbv beta zeta. by rewrite Hcontent.
Qed.

(** What a read returns once the element is fetched and has content. *)
Lemma get_builds_object (fetch : M ElementTree) (decode : ElementTree -> entry)
    (cls : pyclass) (name : string) (missing : exn) (h : heap)
    (ele : ElementTree) (d : description) :
  out_heap (fetch h) = h ->
  out_result (fetch h) = Ok ele ->
  content (decode ele) = Some d ->
  let o :=
    bind fetch
      (fun entry_ele =>
         match content (decode entry_ele) with
         | None => raise missing
         | Some description => alloc (_from_internal_entity cls name description)
         end) h in
  out_result o = Ok (fresh (dom h))
  /\ out_heap o = <[fresh (dom h) := _from_internal_entity cls name d]> h
  /\ out_trace o = out_trace (fetch h).
Proof.
  intros Hheap Hfetch Hcontent o. subst o. unfold bind. rewrite Hfetch, Hheap.
  cbv beta zeta. rewrite Hcontent, alloc_outcome. simpl.
  by rewrite app_nil_r.
Qed.

(** X10.  A read that finds the entity returns a new object, built by
    [_from_internal_entity] of the class asked for from the name that the
    caller gave and the description in the response; the objects that
    existed are untouched and nothing but the fetch talks to the
    service. *)
Theorem get_returns_new_object :
  forall (name topic_name subscription_name : string) (kw : kwargs) (h : heap)
         (ele : ElementTree) (d : description),
    let l := fresh (dom h) in
    let built := fun (o : outcome loc) (obj : pyobj) (tr : list event) =>
      out_result o = Ok l /\ out_heap o = <[l := obj]> h /\ out_trace o = tr in
    (out_result (_get_entity_element self name kw h) = Ok ele ->
     (content (deserialize QueueDescriptionEntry ele) = Some d ->
      built (get_queue self name kw h)
        (_from_internal_entity QueueProperties name d)
        (out_trace (_get_entity_element self name kw h))
      /\ built (get_queue_runtime_properties self name kw h)
           (_from_internal_entity QueueRuntimeProperties name d)
           (out_trace (_get_entity_element self name kw h)))
     /\ (content (deserialize TopicDescriptionEntry ele) = Some d ->
         built (get_topic self name kw h)
           (_from_internal_entity TopicProperties name d)
           (out_trace (_get_entity_element self name kw h))
         /\ built (get_topic_runtime_properties self name kw h)
              (_from_internal_entity TopicRuntimeProperties name d)
              (out_trace (_get_entity_element self name kw h))))
    /\ (out_result (_get_subscription_element self topic_name subscription_name
                      kw h) = Ok ele ->
        content (deserialize SubscriptionDescriptionEntry ele) = Some d ->
        built (get_subscription self topic_name subscription_name kw h)
          (_from_internal_entity SubscriptionProperties subscription_name d)
          (out_trace (_get_subscription_element self topic_name
                        subscription_name kw h))
        /\ built (get_subscription_runtime_properties self topic_name
                    subscription_name kw h)
             (_from_internal_entity SubscriptionRuntimeProperties
                subscription_name d)
             (out_trace (_get_subscription_element self topic_name
                           subscription_name kw h))).
Proof.
  intros. subst built l. cbv beta. split.
  - intros Hfetch. split; intros Hcontent; split;
      by apply (get_builds_object _ _ _ _ _ _ ele);
        [apply get_entity_element_heap | |].
  - intros Hfetch Hcontent. split;
      by apply (get_builds_object _ _ _ _ _ _ ele);
        [apply get_subscription_element_heap | |].
Qed.

Lemma quiet_no_request {A} (o : outcome A) g r :
  quiet o -> ~ In (EvRequest g r) (out_trace o).
Proof.
  unfold quiet, requests_of. intros Ho Hin.
  assert (r ∈ omap (fun ev => match ev with
                              | EvRequest _ r => Some r
                              | EvToken _ _ => None
                              end) (out_trace o)) as Hr.
  { apply list_elem_of_omap. exists (EvRequest g r).
    split; [by apply list_elem_of_In | done]. }
  rewrite Ho in Hr. by apply elem_of_nil in Hr.
Qed.

Lemma fails_on_missing_content_bind {A B} (decode : ElementTree -> entry)
    (m : M A) (k : A -> M B) h :
  quiet (m h) ->
  (forall a h', fails_on_missing_content self decode (k a h')) ->
  fails_on_missing_content self decode (bind m k h).
Proof.
  intros Hm Hk g r ele Hin Hreply Hcontent.
  apply in_trace_bind in Hin as [Hin | (a & Ha & Hin)].
  - by apply quiet_no_request in Hin.
  - rewrite (bind_result_Ok _ _ _ _ Ha). by eapply Hk.
Qed.

(** The end of every create operation: the guarded PUT, the description of
    the decoded entry ([cast] does not check anything), the result. *)
Lemma fails_on_missing_content_put (r0 : request) (cls : entry_class)
    (k : ElementTree -> description -> M loc) (h : heap) :
  (forall ele d h' ev, ~ In ev (out_trace (k ele d h'))) ->
  fails_on_missing_content self (deserialize cls)
    (bind (_handle_response_error (call self r0))
       (fun entry_ele =>
          bind (content_of (deserialize cls entry_ele)) (k entry_ele)) h).
Proof.
  intros Hk g r ele Hin Hreply Hcontent.
  destruct (in_trace_put_then_decode self _ _ _ _ _ _ Hk Hin) as [_ ->].
  unfold bind at 1. unfold _handle_response_error, call.
  cbn [out_result out_heap out_trace]. rewrite Hreply.
  cbn [out_result out_heap out_trace].
  unfold bind, content_of. by rewrite Hcontent.
Qed.

(** X11.  A create operation whose request the service answers with an
    entry without content does not report a missing entity: it raises the
    attribute error of reading the description from [None], after the PUT
    was made. *)
Theorem create_without_content_raises_attribute_error :
  forall (name topic_name subscription_name rule_name : string)
         (qa : QueueKw.t) (ta : TopicKw.t) (sa : SubscriptionKw.t)
         (filter : option pyval) (action : pyval) (kw : kwargs) (h : heap),
    fails_on_missing_content self (deserialize QueueDescriptionEntry)
      (create_queue self name qa kw h)
    /\ fails_on_missing_content self (deserialize TopicDescriptionEntry)
         (create_topic self name ta kw h)
    /\ fails_on_missing_content self (deserialize SubscriptionDescriptionEntry)
         (create_subscription self topic_name subscription_name sa kw h)
    /\ fails_on_missing_content self (deserialize RuleDescriptionEntry)
         (create_rule self defaults topic_name subscription_name rule_name
            filter action kw h).
Proof.
  intros. split; [| split; [| split]].
  - unfold create_queue. cbv beta iota zeta delta [kwargs_pop].
    apply fails_on_missing_content_bind; [by quiet_steps |].
    intros queue h1.
    apply fails_on_missing_content_bind; [by quiet_steps |].
    intros [to_create kw1] h2.
    apply fails_on_missing_content_bind; [by quiet_steps |].
    intros kw2 h3.
    apply (fails_on_missing_content_put _ _ (fun _ d => alloc _)).
    intros ? ? ? ?. apply in_trace_lift_heap.
  - unfold create_topic. cbv beta iota zeta delta [kwargs_pop].
    apply fails_on_missing_content_bind; [by quiet_steps |].
    intros topic h1.
    apply fails_on_missing_content_bind; [by quiet_steps |].
    intros [to_create kw1] h2.
    apply (fails_on_missing_content_put _ _ (fun _ d => alloc _)).
    intros ? ? ? ?. apply in_trace_lift_heap.
  - unfold create_subscription. cbv beta iota zeta delta [kwargs_pop].
    apply fails_on_missing_content_bind; [by quiet_steps |].
    intros [] h0.
    apply fails_on_missing_content_bind; [by quiet_steps |].
    intros subscription h1.
    apply fails_on_missing_content_bind; [by quiet_steps |].
    intros [to_create kw1] h2.
    apply fails_on_missing_content_bind; [by quiet_steps |].
    intros kw2 h3.
    apply (fails_on_missing_content_put _ _ (fun _ d => alloc _)).
    intros ? ? ? ?. apply in_trace_lift_heap.
  - unfold create_rule. cbv beta iota zeta.
    apply fails_on_missing_content_bind; [by quiet_steps |].
    intros [] h0.
    apply fails_on_missing_content_bind; [by quiet_steps |].
    intros rule h1.
    apply fails_on_missing_content_bind; [by quiet_steps |].
    intros [to_create kw1] h2.
    apply fails_on_missing_content_bind; [by quiet_steps |].
    intros body h3.
    apply (fails_on_missing_content_put _ _
             (fun ele d =>
                bind (alloc (_from_internal_entity RuleProperties rule_name d))
                  (fun result =>
                     bind (lift_heap (fun h =>
                             (Ok tt, deserialize_rule_key_values ele result h)))
                          (fun _ => ret result)))).
    clear. intros ele d' h'' ev
      [Hev | (? & _ & [Hev | (? & _ & [])]%in_trace_bind)]%in_trace_bind;
      by destruct (in_trace_lift_heap _ _ _ Hev).
Qed.

End ReadsAndWrites.

(** Asking for the runtime properties of a topic that does not exist. *)
Lemma runtime_get_without_content_raises_not_found_witness :
  out_result (get_topic_runtime_properties (C := Demo.collaborators)
                (Demo.admin Demo.aad) "does-not-exist" no_kwargs ∅)
  = Raise (ResourceNotFoundError "Topic does-not-exist does not exist").
Proof.
  apply (proj1 (runtime_get_without_content_raises_not_found
                  (C := Demo.collaborators) (Demo.admin Demo.aad)
                  "does-not-exist" "s" no_kwargs ∅)
           (Element "entry" [] "" []));
    reflexivity.
Defined.

(** Reading the queue "orders" into an empty store. *)
Lemma get_returns_new_object_witness :
  let o := get_queue (C := Demo.collaborators) (Populated.admin Demo.aad)
             "orders" no_kwargs ∅ in
  out_result o = Ok 1%positive
  /\ out_heap o
     = {[ 1%positive := {| o_class := QueueProperties;
                           o_slots := [("name", PStr "orders")] |} ]}.
Proof.
  intros o.
  destruct (proj1 (proj1 (get_returns_new_object (C := Demo.collaborators)
                            (Populated.admin Demo.aad) "orders" "t" "s"
                            no_kwargs ∅
                            (Element "entry" [] "orders"
                               [Element "content" [] "" []])
                            {| forward_to := Some "";
                               forward_dead_lettered_messages_to := None;
                               d_fields := [] |})
                     eq_refl) eq_refl) as [(Hr & Hh & _) _].
  split; [exact Hr | exact Hh].
Defined.

(** Creating a topic on a service that acknowledges without content. *)
Lemma create_without_content_raises_attribute_error_witness :
  out_result (create_topic (C := Demo.collaborators) (Populated.admin Demo.aad)
                "t" TopicKw.defaults no_kwargs ∅)
  = Raise (AttributeError "'NoneType' object has no attribute").
Proof.
  eapply (proj1 (proj2 (create_without_content_raises_attribute_error
                          (C := Demo.collaborators) (Populated.admin Demo.aad)
                          Demo.kwdefaults0 "t" "t" "s" "r" QueueKw.defaults
                          TopicKw.defaults SubscriptionKw.defaults None PNone
                          no_kwargs ∅))).
  - left. reflexivity.
  - reflexivity.
  - reflexivity.
Defined.

(** ** Keywords of the caller *)

Section Keywords.
Context {C : Collaborators}.
Variable self : client.
Variable defaults : kwdefaults.

Lemma all_requests_bind_Ok {A B} (P : bool -> request -> Prop) (m : M A)
    (k : A -> M B) h :
  all_requests P (out_trace (m h)) ->
  (forall a, out_result (m h) = Ok a ->
             all_requests P (out_trace (k a (out_heap (m h))))) ->
  all_requests P (out_trace (bind m k h)).
Proof.
  intros Hm Hk. unfold bind.
  destruct (out_result (m h)) as [a |]; simpl; [| done].
  apply all_requests_app; [done | by apply Hk].
Qed.

Lemma forward_tokens_kw_other entity kw h kw' :
  out_result (_create_forward_to_header_tokens self entity kw h) = Ok kw' ->
  kw_other kw' = kw_other kw.
Proof.
  unfold _create_forward_to_header_tokens.
  destruct (out_result
              (match forward_to entity with
               | Some uri =>
                   if truthy_str (Some uri)
                   then _populate_header_within_kwargs self uri
                          SUPPLEMENTARY_AUTHORIZATION_HEADER
                          (kwargs_ensure_headers kw)
                   else ret (kwargs_ensure_headers kw)
               | None => ret (kwargs_ensure_headers kw)
               end h)) as [kw1 | e] eqn:Hfirst.
  2: { by rewrite (bind_result_Raise _ _ _ _ Hfirst). }
  rewrite (bind_result_Ok _ _ _ _ Hfirst). intros Hsecond.
  apply forward_step_keeps in Hfirst as (Ho1 & _).
  apply forward_step_keeps in Hsecond as (Ho2 & _).
  by rewrite Ho2, Ho1.
Qed.

(** The end of a create operation, for a property of its one request. *)
Lemma all_requests_put_then_decode (P : bool -> request -> Prop) (r0 : request)
    (cls : entry_class) (k : ElementTree -> description -> M loc) (h : heap) :
  P true r0 ->
  (forall ele d h', out_trace (k ele d h') = []) ->
  all_requests P
    (out_trace
       (bind (_handle_response_error (call self r0))
          (fun entry_ele =>
             bind (content_of (deserialize cls entry_ele)) (k entry_ele)) h)).
Proof.
  intros Hr Hk. apply all_requests_bind.
  - apply all_requests_guard, all_requests_call, Hr.
  - intros ele h'. apply all_requests_bind; [apply all_requests_content_of |].
    intros d h''. rewrite Hk. constructor.
Qed.

(** X12.  The [status] keyword of a create operation is taken out of the
    caller's keywords for the properties object: the request of
    [create_queue], [create_topic] and [create_subscription] never forwards
    a [status] keyword to the generated client. *)
Theorem create_consumes_status_keyword :
  forall (name topic_name subscription_name : string)
         (qa : QueueKw.t) (ta : TopicKw.t) (sa : SubscriptionKw.t)
         (kw : kwargs) (h : heap),
    all_requests (without_keyword "status")
      (out_trace (create_queue self name qa kw h))
    /\ all_requests (without_keyword "status")
         (out_trace (create_topic self name ta kw h))
    /\ all_requests (without_keyword "status")
         (out_trace (create_subscription self topic_name subscription_name sa
                       kw h)).
Proof.
  intros. split; [| split].
  - unfold create_queue. cbv beta iota zeta delta [kwargs_pop].
    apply all_requests_bind; [apply all_requests_alloc |]. intros queue h1.
    apply all_requests_bind; [apply all_requests_lift_heap |].
    intros [to_create kw1] h2.
    apply all_requests_bind_Ok; [apply all_requests_forward_tokens |].
    intros kw2 Hkw2. apply forward_tokens_kw_other in Hkw2.
    apply (all_requests_put_then_decode _ _ _ (fun _ d => alloc _)).
    + unfold without_keyword. simpl. rewrite Hkw2. simpl.
      apply lookup_delete_eq.
    + intros. apply lift_heap_silent.
  - unfold create_topic. cbv beta iota zeta delta [kwargs_pop].
    apply all_requests_bind; [apply all_requests_alloc |]. intros topic h1.
    apply all_requests_bind; [apply all_requests_lift_heap |].
    intros [to_create kw1] h2.
    apply (all_requests_put_then_decode _ _ _ (fun _ d => alloc _)).
    + unfold without_keyword. simpl. apply lookup_delete_eq.
    + intros. apply lift_heap_silent.
  - unfold create_subscription. cbv beta iota zeta delta [kwargs_pop].
    apply all_requests_bind; [apply all_requests_check |]. intros [] h0.
    apply all_requests_bind; [apply all_requests_alloc |].
    intros subscription h1.
    apply all_requests_bind; [apply all_requests_lift_heap |].
    intros [to_create kw1] h2.
    apply all_requests_bind_Ok; [apply all_requests_forward_tokens |].
    intros kw2 Hkw2. apply forward_tokens_kw_other in Hkw2.
    apply (all_requests_put_then_decode _ _ _ (fun _ d => alloc _)).
    + unfold without_keyword. simpl. rewrite Hkw2. simpl.
      apply lookup_delete_eq.
    + intros. apply lift_heap_silent.
Qed.

Lemma all_requests_call_passing_absent keyword r h :
  all_requests (without_keyword keyword)
    (out_trace (call_passing self keyword r h)).
Proof.
  unfold call_passing.
  destruct (kw_other (rq_kwargs r) !! keyword) eqn:Hk; [constructor |].
  by apply all_requests_call.
Qed.

Lemma get_entity_element_binds_enrich name kw h :
  all_requests (without_keyword "enrich")
    (out_trace (_get_entity_element self name kw h)).
Proof.
  unfold _get_entity_element, bind_enrich.
  destruct (kw_other kw !! "enrich") eqn:Hk;
    (apply all_requests_bind; [apply all_requests_check |]; intros [] h';
     apply all_requests_guard, all_requests_call;
     unfold without_keyword; simpl); [apply lookup_delete_eq | done].
Qed.

Lemma get_subscription_element_binds_enrich topic_name subscription_name kw h :
  all_requests (without_keyword "enrich")
    (out_trace (_get_subscription_element self topic_name subscription_name
                  kw h)).
Proof.
  unfold _get_subscription_element, bind_enrich.
  destruct (kw_other kw !! "enrich") eqn:Hk;
    (apply all_requests_bind; [apply all_requests_check |]; intros [] h';
     apply all_requests_guard, all_requests_call;
     unfold without_keyword; simpl); [apply lookup_delete_eq | done].
Qed.

End Keywords.

Ltac keyword_step :=
  first
    [ apply get_entity_element_binds_enrich
    | apply get_subscription_element_binds_enrich
    | apply all_requests_call_passing_absent
    | trace_step ].

Ltac keyword_steps :=
  repeat (cbv beta iota zeta delta [kwargs_pop]; keyword_step).

Section OwnKeywords.
Context {C : Collaborators}.
Variable self : client.

(** X13.  A keyword that the client passes itself is never forwarded a
    second time: no request of an update carries [match_condition] among
    the caller's keywords (such a call is a TypeError before it reaches the
    service), and no request of a read carries [enrich] among them. *)
Theorem own_keywords_are_not_forwarded :
  forall (name topic_name subscription_name rule_name : string) (entity : loc)
         (kw : kwargs) (h : heap),
    all_requests (without_keyword "match_condition")
      (out_trace (update_queue self entity kw h))
    /\ all_requests (without_keyword "match_condition")
         (out_trace (update_topic self entity kw h))
    /\ all_requests (without_keyword "match_condition")
         (out_trace (update_subscription self topic_name entity kw h))
    /\ all_requests (without_keyword "match_condition")
         (out_trace (update_rule self topic_name subscription_name entity kw h))
    /\ all_requests (without_keyword "enrich")
         (out_trace (get_queue self name kw h))
    /\ all_requests (without_keyword "enrich")
         (out_trace (get_queue_runtime_properties self name kw h))
    /\ all_requests (without_keyword "enrich")
         (out_trace (get_topic self name kw h))
    /\ all_requests (without_keyword "enrich")
         (out_trace (get_topic_runtime_properties self name kw h))
    /\ all_requests (without_keyword "enrich")
         (out_trace (get_subscription self topic_name subscription_name kw h))
    /\ all_requests (without_keyword "enrich")
         (out_trace (get_subscription_runtime_properties self topic_name
                       subscription_name kw h))
    /\ all_requests (without_keyword "enrich")
         (out_trace (get_rule self topic_name subscription_name rule_name kw h)).
Proof.
  intros.
  repeat match goal with |- _ /\ _ => split end;
    unfold update_queue, update_topic, update_subscription, update_rule,
      get_queue, get_queue_runtime_properties, get_topic,
      get_topic_runtime_properties, get_subscription,
      get_subscription_runtime_properties, get_rule, _get_rule_element;
    keyword_steps.
Qed.

End OwnKeywords.

(** A [status] keyword ends up on the properties object and is not
    forwarded; a [match_condition] keyword of the caller makes an update
    fail before any request. *)
Example keywords_of_the_caller :
  let created :=
    create_queue (C := Demo.collaborators) (Demo.admin Demo.aad) "q"
      QueueKw.defaults
      {| kw_headers := None;
         kw_other := {[ "status" := PStr "Disabled"; "timeout" := PInt 30 ]} |}
      ∅ in
  let updated :=
    update_queue (C := Demo.collaborators) (Demo.admin Demo.aad) 1%positive
      {| kw_headers := None;
         kw_other := {[ "match_condition" := PStr "IfMissing" ]} |}
      caller_store in
  map (fun r => kw_other (rq_kwargs r)) (requests_of (out_trace created))
  = [ {[ "timeout" := PInt 30 ]} ]
  /\ (o_slots <$> out_heap created !! 1%positive) ≫= (fun s => getattr s "status")
     = Some (PStr "Disabled")
  /\ out_trace updated = []
  /\ out_result updated
     = Raise (TypeError
                "got multiple values for keyword argument 'match_condition'").
Proof. repeat split; by vm_compute. Qed.

(** ** Where the requests go *)

Ltac routed_done :=
  try (apply all_requests_call_passing || apply all_requests_call);
  try (eexists; cbn [app]);
  repeat split; try done;
  first [ by eexists | by intros [? [=]] | by intros [=] ].

Section Routing.
Context {C : Collaborators}.
Variable self : client.
Variable defaults : kwdefaults.

(** X15.  Each operation addresses the service as its name says.  Reads
    are GETs and deletions are DELETEs, both without a body; creations and
    updates are PUTs with a body.  Queues and topics go to the entity
    operations, subscriptions and rules to their own, and the names are the
    arguments in the order topic, subscription, rule; an update takes the
    last name from the object. *)
Theorem requests_are_routed :
  forall (name topic_name subscription_name rule_name : string) (entity : loc)
         (qa : QueueKw.t) (ta : TopicKw.t) (sa : SubscriptionKw.t)
         (filter : option pyval) (action : pyval) (kw : kwargs) (h : heap),
    let rule_names := [topic_name; subscription_name; rule_name] in
    (all_requests (routed entity_ops GET [name])
       (out_trace (get_queue self name kw h))
     /\ all_requests (routed entity_ops GET [name])
          (out_trace (get_queue_runtime_properties self name kw h))
     /\ all_requests (routed entity_ops GET [name])
          (out_trace (get_topic self name kw h))
     /\ all_requests (routed entity_ops GET [name])
          (out_trace (get_topic_runtime_properties self name kw h))
     /\ all_requests (routed subscription_ops GET [topic_name; subscription_name])
          (out_trace (get_subscription self topic_name subscription_name kw h))
     /\ all_requests (routed subscription_ops GET [topic_name; subscription_name])
          (out_trace (get_subscription_runtime_properties self topic_name
                        subscription_name kw h))
     /\ all_requests (routed rule_ops GET rule_names)
          (out_trace (get_rule self topic_name subscription_name rule_name kw h))
     /\ all_requests (routed namespace_ops GET [])
          (out_trace (get_namespace_properties self kw h)))
    /\ (all_requests (routed entity_ops PUT [name])
          (out_trace (create_queue self name qa kw h))
        /\ all_requests (routed entity_ops PUT [name])
             (out_trace (create_topic self name ta kw h))
        /\ all_requests (routed subscription_ops PUT [topic_name; subscription_name])
             (out_trace (create_subscription self topic_name subscription_name
                           sa kw h))
        /\ all_requests (routed rule_ops PUT rule_names)
             (out_trace (create_rule self defaults topic_name subscription_name
                           rule_name filter action kw h)))
    /\ (all_requests (routed_below entity_ops [])
          (out_trace (update_queue self entity kw h))
        /\ all_requests (routed_below entity_ops [])
             (out_trace (update_topic self entity kw h))
        /\ all_requests (routed_below subscription_ops [topic_name])
             (out_trace (update_subscription self topic_name entity kw h))
        /\ all_requests (routed_below rule_ops [topic_name; subscription_name])
             (out_trace (update_rule self topic_name subscription_name entity
                           kw h)))
    /\ (all_requests (routed entity_ops DELETE [name])
          (out_trace (delete_queue self name kw h))
        /\ all_requests (routed entity_ops DELETE [name])
             (out_trace (delete_topic self name kw h))
        /\ all_requests (routed subscription_ops DELETE [topic_name; subscription_name])
             (out_trace (delete_subscription self topic_name subscription_name
                           kw h))
        /\ all_requests (routed rule_ops DELETE rule_names)
             (out_trace (delete_rule self topic_name subscription_name rule_name
                           kw h))).
Proof.
  intros. subst rule_names.
  repeat match goal with |- _ /\ _ => split end;
    unfold get_queue, get_queue_runtime_properties, get_topic,
      get_topic_runtime_properties, get_subscription,
      get_subscription_runtime_properties, get_rule, get_namespace_properties,
      create_queue, create_topic, create_subscription, create_rule,
      update_queue, update_topic, update_subscription, update_rule,
      delete_queue, delete_topic, delete_subscription, delete_rule,
      _get_entity_element, _get_subscription_element, _get_rule_element,
      routed_below;
    trace_steps; routed_done.
Qed.

End Routing.

(** ** The empty name of [delete_queue] *)

Section EmptyName.
Context {C : Collaborators}.
Variable self : client.

(** X16.  [delete_queue] never asks the service to delete the queue with
    the empty name: once the validator has accepted the empty string, the
    operation raises a [ValueError] without a request.  The other
    deletions have no such check: [delete_topic] then asks the service for
    the empty name. *)
Theorem delete_queue_refuses_empty_name :
  forall (queue_name : string) (kw : kwargs) (h : heap),
    all_requests (fun _ r => rq_names r <> [""])
      (out_trace (delete_queue self queue_name kw h))
    /\ (_validate_entity_name_type "" None = None ->
        rejected_locally (delete_queue self "" kw) h
          (ValueError "queue_name must not be None or empty")
        /\ map rq_names (requests_of (out_trace (delete_topic self "" kw h)))
           = [[""]]).
Proof.
  intros queue_name kw h. split.
  - unfold delete_queue. apply all_requests_bind; [apply all_requests_check |].
    intros _ h'. unfold truthy_str.
    destruct (String.eqb_spec queue_name "") as [-> | Hname]; simpl.
    + apply all_requests_nil.
    + apply all_requests_bind; [| intros; apply all_requests_ret].
      apply all_requests_guard, all_requests_call. simpl. congruence.
  - intros Hvalid. unfold rejected_locally, delete_queue, delete_topic.
    rewrite Hvalid. repeat split.
    unfold bind, check, call, ret. cbn [out_result out_heap out_trace app].
    by destruct (_impl self _).
Qed.

End EmptyName.

Lemma delete_queue_refuses_empty_name_witness :
  rejected_locally
    (delete_queue (C := Demo.collaborators) (Demo.admin Demo.aad) "" no_kwargs)
    Demo.heap0 (ValueError "queue_name must not be None or empty")
  /\ map rq_names
       (requests_of
          (out_trace (delete_topic (C := Demo.collaborators)
                        (Demo.admin Demo.aad) "" no_kwargs Demo.heap0)))
     = [[""]].
Proof.
  apply (delete_queue_refuses_empty_name (C := Demo.collaborators)
           (Demo.admin Demo.aad) "" no_kwargs Demo.heap0).
  reflexivity.
Defined.

(** ** Reads and deletions leave the store alone *)

Section ReadOnly.
Context {C : Collaborators}.
Variable self : client.

Lemma alloc_grows_store (o : pyobj) (h : heap) : h ⊆ out_heap (alloc o h).
Proof.
  rewrite alloc_outcome. simpl. apply insert_subseteq, not_elem_of_dom, is_fresh.
Qed.

Lemma read_grows_store (fetch : M ElementTree) (decode : ElementTree -> entry)
    (cls : pyclass) (name : string) (missing : exn) (h : heap) :
  out_heap (fetch h) = h ->
  h ⊆ out_heap
        (bind fetch
           (fun entry_ele =>
              match content (decode entry_ele) with
              | None => raise missing
              | Some description =>
                  alloc (_from_internal_entity cls name description)
              end) h).
Proof.
  intros Hfetch. destruct (out_result (fetch h)) as [ele | e] eqn:Hr.
  - rewrite (bind_heap_Ok _ _ _ _ Hr), Hfetch.
    destruct (content (decode ele)); [apply alloc_grows_store | done].
  - by rewrite (bind_heap_Raise _ _ _ _ Hr), Hfetch.
Qed.

(** X17.  The reads of queues, topics, subscriptions and of the namespace
    change no object that exists: the store afterwards holds what it held
    before, and at most the new object of the result besides.  A deletion
    leaves the store exactly as it was.  This holds for every outcome of
    the call. *)
Theorem reads_and_deletions_keep_store :
  forall (name topic_name subscription_name rule_name : string)
         (kw : kwargs) (h : heap),
    (h ⊆ out_heap (get_queue self name kw h)
     /\ h ⊆ out_heap (get_queue_runtime_properties self name kw h)
     /\ h ⊆ out_heap (get_topic self name kw h)
     /\ h ⊆ out_heap (get_topic_runtime_properties self name kw h)
     /\ h ⊆ out_heap (get_subscription self topic_name subscription_name kw h)
     /\ h ⊆ out_heap (get_subscription_runtime_properties self topic_name
                        subscription_name kw h)
     /\ h ⊆ out_heap (get_namespace_properties self kw h))
    /\ (out_heap (delete_queue self name kw h) = h
        /\ out_heap (delete_topic self name kw h) = h
        /\ out_heap (delete_subscription self topic_name subscription_name kw h)
           = h
        /\ out_heap (delete_rule self topic_name subscription_name rule_name
                       kw h) = h).
Proof.
  intros. split; [| split; [| split; [| split]]].
  - repeat match goal with |- _ ⊆ _ /\ _ => split end;
      try (apply read_grows_store;
           first [ apply get_entity_element_heap
                 | apply get_subscription_element_heap ]).
    unfold get_namespace_properties, bind, call, content_of.
    cbn [out_result out_heap out_trace].
    destruct (_impl self _) as [ele | e]; [| done].
    cbn [out_result out_heap out_trace].
    destruct (content (deserialize NamespacePropertiesEntry ele)); [| done].
    cbn [out_result out_heap out_trace ret]. apply alloc_grows_store.
  - unfold delete_queue. apply heap_unchanged_bind; [apply check_heap |].
    intros _ h'. destruct (negb _); heap_steps.
  - unfold delete_topic. heap_steps.
  - unfold delete_subscription. heap_steps.
  - unfold delete_rule. heap_steps.
Qed.

End ReadOnly.

(** ** An operation that returns has been answered *)

Section Answered.
Context {C : Collaborators}.
Variable self : client.

Lemma requests_of_guard tr : requests_of (map enter_guard tr) = requests_of tr.
Proof.
  induction tr as [| [] tr IH]; [done | exact IH |].
  change (r :: requests_of (map enter_guard tr) = r :: requests_of tr).
  by rewrite IH.
Qed.

Lemma answered_raise {A} e h : answered_once self (raise (A := A) e h).
Proof. by intros a. Qed.

Lemma answered_call r h : answered_once self (call self r h).
Proof. intros ele Hr. by exists r, ele. Qed.

Lemma answered_call_passing keyword r h :
  answered_once self (call_passing self keyword r h).
Proof.
  unfold call_passing. destruct (kw_other (rq_kwargs r) !! keyword).
  - apply answered_raise.
  - apply answered_call.
Qed.

Lemma answered_guard {A} (m : M A) h :
  answered_once self (m h) ->
  answered_once self (_handle_response_error m h).
Proof.
  intros Hm a. unfold _handle_response_error. simpl.
  rewrite requests_of_guard.
  destruct (out_result (m h)) as [a' |] eqn:Hr; [| done].
  intros _. by apply (Hm a').
Qed.

Lemma answered_bind_l {A B} (m : M A) (k : A -> M B) h :
  quiet (m h) -> (forall a h', answered_once self (k a h')) ->
  answered_once self (bind m k h).
Proof.
  unfold quiet. intros Hm Hk b. unfold bind.
  destruct (out_result (m h)) as [a |]; simpl; [| done].
  rewrite requests_of_app, Hm. apply Hk.
Qed.

Lemma answered_bind_r {A B} (m : M A) (k : A -> M B) h :
  answered_once self (m h) -> (forall a h', quiet (k a h')) ->
  answered_once self (bind m k h).
Proof.
  unfold quiet. intros Hm Hk b. unfold bind.
  destruct (out_result (m h)) as [a |] eqn:Hr; simpl; [| done].
  intros _. rewrite requests_of_app, Hk, app_nil_r. by apply (Hm a).
Qed.

End Answered.

Ltac answered_step :=
  first
    [ apply answered_call
    | apply answered_call_passing
    | match goal with
      | |- answered_once _ (raise _ _) => apply answered_raise
      | |- answered_once _ (_handle_response_error _ _) => apply answered_guard
      | |- answered_once _ (bind _ _ _) =>
          first [ apply answered_bind_l; [solve [quiet_steps] | intros ? ?]
                | apply answered_bind_r; [| intros ? ?; solve [quiet_steps]] ]
      | |- answered_once _ ((let '(_, _) := ?p in _) _) => destruct p
      | |- answered_once _ (match ?x with _ => _ end _) => destruct x
      end ].

Ltac answered_steps :=
  repeat (cbv beta iota zeta delta [kwargs_pop]; answered_step).

Section AnsweredOperations.
Context {C : Collaborators}.
Variable self : client.
Variable defaults : kwdefaults.

(** X18.  An operation that returns normally has talked to the service
    exactly once, and the service answered that request: no read, create,
    update or delete returns a result without having asked, or after a
    request that failed. *)
Theorem returned_operation_was_answered :
  forall (name topic_name subscription_name rule_name : string) (entity : loc)
         (qa : QueueKw.t) (ta : TopicKw.t) (sa : SubscriptionKw.t)
         (filter : option pyval) (action : pyval) (kw : kwargs) (h : heap),
    (answered_once self (get_queue self name kw h)
     /\ answered_once self (get_queue_runtime_properties self name kw h)
     /\ answered_once self (get_topic self name kw h)
     /\ answered_once self (get_topic_runtime_properties self name kw h)
     /\ answered_once self
          (get_subscription self topic_name subscription_name kw h)
     /\ answered_once self
          (get_subscription_runtime_properties self topic_name
             subscription_name kw h)
     /\ answered_once self
          (get_rule self topic_name subscription_name rule_name kw h)
     /\ answered_once self (get_namespace_properties self kw h))
    /\ (answered_once self (create_queue self name qa kw h)
        /\ answered_once self (create_topic self name ta kw h)
        /\ answered_once self
             (create_subscription self topic_name subscription_name sa kw h)
        /\ answered_once self
             (create_rule self defaults topic_name subscription_name rule_name
                filter action kw h))
    /\ (answered_once self (update_queue self entity kw h)
        /\ answered_once self (update_topic self entity kw h)
        /\ answered_once self (update_subscription self topic_name entity kw h)
        /\ answered_once self
             (update_rule self topic_name subscription_name entity kw h))
    /\ (answered_once self (delete_queue self name kw h)
        /\ answered_once self (delete_topic self name kw h)
        /\ answered_once self
             (delete_subscription self topic_name subscription_name kw h)
        /\ answered_once self
             (delete_rule self topic_name subscription_name rule_name kw h)).
Proof.
  intros.
  repeat match goal with |- _ /\ _ => split end;
    unfold get_queue, get_queue_runtime_properties, get_topic,
      get_topic_runtime_properties, get_subscription,
      get_subscription_runtime_properties, get_rule, create_queue,
      create_topic, create_subscription, create_rule, update_queue,
      update_topic, update_subscription, update_rule, delete_queue,
      delete_topic, delete_subscription, delete_rule,
      get_namespace_properties,
      _get_entity_element, _get_subscription_element, _get_rule_element;
    answered_steps.
Qed.

End AnsweredOperations.

(** Creating a queue in the empty namespace returns, after the one PUT
    that the service answered. *)
Lemma returned_operation_was_answered_witness :
  exists r ele,
    requests_of
      (out_trace (create_queue (C := Demo.collaborators) (Demo.admin Demo.aad)
                    "orders" QueueKw.defaults no_kwargs ∅)) = [r]
    /\ Demo.empty_namespace r = Ok ele.
Proof.
  pose proof (returned_operation_was_answered (C := Demo.collaborators)
                (Demo.admin Demo.aad) Demo.kwdefaults0 "orders" "t" "s" "r"
                1%positive QueueKw.defaults TopicKw.defaults
                SubscriptionKw.defaults None PNone no_kwargs ∅)
    as (_ & (Hcreate & _) & _).
  apply (Hcreate 2%positive). vm_compute. reflexivity.
Defined.

(** ** What a create operation returns *)

Section Returned.
Context {C : Collaborators}.
Variable self : client.

Lemma returns_built_bind {A} cls build (m : M A) (k : A -> M loc) h :
  (forall a h', returns_built self cls build (k a h')) ->
  returns_built self cls build (bind m k h).
Proof.
  intros Hk l. unfold bind.
  destruct (out_result (m h)) as [a |]; cbn [out_result out_heap out_trace];
    [| done].
  intros Hres. destruct (Hk a _ l Hres) as (g & r & ele & d & Hin & Hrest).
  exists g, r, ele, d. split; [| done]. apply in_or_app. by right.
Qed.

(** The end of a create operation and of [get_namespace_properties]: the
    request, the description of the decoded entry, the new object. *)
Lemma returns_built_decode cls build (m : M ElementTree) h :
  (forall ele, out_result (m h) = Ok ele ->
     exists g r, In (EvRequest g r) (out_trace (m h)) /\ _impl self r = Ok ele) ->
  returns_built self cls build
    (bind m
       (fun entry_ele =>
          bind (content_of (deserialize cls entry_ele))
            (fun d => alloc (build (title (deserialize cls entry_ele)) d))) h).
Proof.
  intros Hm l Hres.
  destruct (out_result (m h)) as [ele | e] eqn:Hr.
  2: { by rewrite (bind_result_Raise _ _ _ _ Hr) in Hres. }
  destruct (Hm ele eq_refl) as (g & r & Hin & Hreply).
  rewrite (bind_result_Ok _ _ _ _ Hr) in Hres.
  rewrite (bind_heap_Ok _ _ _ _ Hr), (bind_trace_Ok _ _ _ _ Hr).
  unfold content_of in *.
  destruct (content (deserialize cls ele)) as [d |] eqn:Hcontent; [| done].
  unfold bind, ret in *. cbn [out_result out_heap out_trace] in *.
  rewrite alloc_outcome in *. cbn [out_result out_heap out_trace] in *.
  injection Hres as <-. exists g, r, ele, d.
  split; [apply in_or_app; by left |].
  split; [done |]. split; [done |]. apply lookup_insert_eq.
Qed.

Lemma answered_by_call r h ele :
  out_result (call self r h) = Ok ele ->
  exists g r', In (EvRequest g r') (out_trace (call self r h))
               /\ _impl self r' = Ok ele.
Proof. intros Hr. exists false, r. split; [by left | done]. Qed.

Lemma answered_by_guarded_call r h ele :
  out_result (_handle_response_error (call self r) h) = Ok ele ->
  exists g r', In (EvRequest g r')
                 (out_trace (_handle_response_error (call self r) h))
               /\ _impl self r' = Ok ele.
Proof.
  unfold _handle_response_error, call. cbn [out_result out_heap out_trace map].
  intros Hr. exists true, r. split; [by left |].
  by destruct (_impl self r) as [ele' |]; [injection Hr as -> |].
Qed.

(** X19.  What [create_queue], [create_topic] and [create_subscription]
    return is built from the answer of the service, not from the arguments:
    the new object is [_from_internal_entity] of the name that the caller
    gave and the description in the entry that answered the PUT.
    [get_namespace_properties] builds its result from the title and the
    description of the answer. *)
Theorem create_returns_what_the_service_answered :
  forall (name topic_name subscription_name : string)
         (qa : QueueKw.t) (ta : TopicKw.t) (sa : SubscriptionKw.t)
         (kw : kwargs) (h : heap),
    returns_built self QueueDescriptionEntry
      (fun _ => _from_internal_entity QueueProperties name)
      (create_queue self name qa kw h)
    /\ returns_built self TopicDescriptionEntry
         (fun _ => _from_internal_entity TopicProperties name)
         (create_topic self name ta kw h)
    /\ returns_built self SubscriptionDescriptionEntry
         (fun _ => _from_internal_entity SubscriptionProperties subscription_name)
         (create_subscription self topic_name subscription_name sa kw h)
    /\ returns_built self NamespacePropertiesEntry
         (_from_internal_entity NamespaceProperties)
         (get_namespace_properties self kw h).
Proof.
  intros. split; [| split; [| split]].
  - unfold create_queue. cbv beta iota zeta delta [kwargs_pop].
    destruct (kw_other kw !! "status");
      (apply returns_built_bind; intros queue h1;
       apply returns_built_bind; intros [to_create kw1] h2;
       apply returns_built_bind; intros kw2 h3;
       apply (returns_built_decode QueueDescriptionEntry
                (fun _ => _from_internal_entity QueueProperties name));
       apply answered_by_guarded_call).
  - unfold create_topic. cbv beta iota zeta delta [kwargs_pop].
    destruct (kw_other kw !! "status");
      (apply returns_built_bind; intros topic h1;
       apply returns_built_bind; intros [to_create kw1] h2;
       apply (returns_built_decode TopicDescriptionEntry
                (fun _ => _from_internal_entity TopicProperties name));
       apply answered_by_guarded_call).
  - unfold create_subscription. cbv beta iota zeta delta [kwargs_pop].
    apply returns_built_bind; intros _ h0.
    destruct (kw_other kw !! "status");
      (apply returns_built_bind; intros subscription h1;
       apply returns_built_bind; intros [to_create kw1] h2;
       apply returns_built_bind; intros kw2 h3;
       apply (returns_built_decode SubscriptionDescriptionEntry
                (fun _ => _from_internal_entity SubscriptionProperties
                            subscription_name));
       apply answered_by_guarded_call).
  - unfold get_namespace_properties.
    apply (returns_built_decode NamespacePropertiesEntry
             (_from_internal_entity NamespaceProperties)).
    apply answered_by_call.
Qed.

End Returned.

(** A queue created with a forward target in the empty namespace: the
    object returned holds what the service answered, and nothing of the
    target. *)
Lemma create_returns_what_the_service_answered_witness :
  let o := create_queue (C := Demo.collaborators) (Demo.admin Demo.aad) "orders"
             QueueKw.defaults no_kwargs ∅ in
  exists g r ele d,
    In (EvRequest g r) (out_trace o) /\ Demo.empty_namespace r = Ok ele
    /\ content (Demo.decode QueueDescriptionEntry ele) = Some d
    /\ out_heap o !! 2%positive
       = Some {| o_class := QueueProperties;
                 o_slots := ("name", PStr "orders") :: d_fields d |}.
Proof.
  pose proof (create_returns_what_the_service_answered
                (C := Demo.collaborators) (Demo.admin Demo.aad) "orders" "t" "s"
                QueueKw.defaults TopicKw.defaults SubscriptionKw.defaults
                no_kwargs ∅) as (Hcreate & _).
  intros o. apply (Hcreate 2%positive). vm_compute. reflexivity.
Defined.

(** * From the call to the request *)

(** ** Updates and the if-present precondition *)

Section Updates.
Context {C : Collaborators}.
Variable self : client.




End Updates.


(** ** Supplementary tokens come before the request *)

Section SoleRequest.
Context {C : Collaborators}.
Variable self : client.

Lemma silent_bind {A B} (m : M A) (k : A -> M B) h :
  out_trace (m h) = [] -> (forall a h', out_trace (k a h') = []) ->
  out_trace (bind m k h) = [].
Proof.
  intros Hm Hk. unfold bind.
  destruct (out_result (m h)); cbn [out_trace]; rewrite Hm; [apply Hk | done].
Qed.







End SoleRequest.

Ltac silent_step :=
  first
    [ apply lift_heap_silent | apply check_silent
    | apply create_properties_silent | apply name_of_silent
    | apply content_of_silent | reflexivity
    | match goal with
      | |- out_trace (bind _ _ _) = [] => apply silent_bind; [| intros ? ?]
      end ].

Ltac silent_steps := repeat (cbv beta iota zeta; silent_step).



Section TokensBeforeRequest.
Context {C : Collaborators}.
Variable self : client.








End TokensBeforeRequest.

Section TokensPrecedeMutation.
Context {C : Collaborators}.
Variable self : client.


End TokensPrecedeMutation.


(** ** A create operation, step by step *)

Section CreateSteps.
Context {C : Collaborators}.
Variable self : client.

Lemma bind_trace_check {B} (v : option exn) (k : unit -> M B) h :
  v = None -> out_trace (bind (check v) k h) = out_trace (k tt h).
Proof. by intros ->. Qed.

Lemma bind_trace_alloc {B} (o : pyobj) (k : loc -> M B) h :
  out_trace (bind (alloc o) k h)
  = out_trace (k (fresh (dom h)) (<[fresh (dom h) := o]> h)).
Proof. reflexivity. Qed.

Lemma bind_trace_lift_heap {A B} (f : heap -> result A * heap) (k : A -> M B)
    h a h' :
  f h = (Ok a, h') -> out_trace (bind (lift_heap f) k h) = out_trace (k a h').
Proof. intros Hf. unfold bind, lift_heap. by rewrite Hf. Qed.

Lemma bind_trace_forward_tokens {B} entity kw (k : kwargs -> M B) h kw' :
  out_result (_create_forward_to_header_tokens self entity kw h) = Ok kw' ->
  out_trace (bind (_create_forward_to_header_tokens self entity kw) k h)
  = out_trace (_create_forward_to_header_tokens self entity kw h)
      ++ out_trace (k kw' h).
Proof.
  intros Hres. rewrite (bind_trace_Ok _ _ _ _ Hres).
  by rewrite heap_unchanged_forward_tokens.
Qed.

(** A guarded request followed by steps that stay inside the program. *)
Lemma put_trace {B} (r0 : request) (k : ElementTree -> M B) h :
  (forall ele h', out_trace (k ele h') = []) ->
  out_trace (bind (_handle_response_error (call self r0)) k h)
  = [EvRequest true r0].
Proof.
  intros Hk. unfold bind, _handle_response_error, call.
  cbn [out_result out_heap out_trace map enter_guard].
  destruct (_impl self r0); cbn [out_trace]; [| done].
  by rewrite Hk.
Qed.

Lemma requests_after_forward_tokens entity kw h (r : request) :
  requests_of
    (out_trace (_create_forward_to_header_tokens self entity kw h)
       ++ [EvRequest true r]) = [r].
Proof.
  rewrite requests_of_app, requests_of_tokens; [done |].
  apply token_phase_forward_tokens.
Qed.

End CreateSteps.

(** ** Forward targets are normalized, and then sent *)

Section NormalizedTargets.
Context {C : Collaborators}.
Variable self : client.

(** C6.  [create_queue] and [create_subscription] normalize both forward
    targets, a bare name to the path rooted at the client's namespace and
    an absolute path to itself, and build the properties object from the
    normalized values.  The description converted from that object is what
    is serialized and sent: every request carries it, and whenever the
    conversion and the token step succeed the operation makes exactly the
    one PUT whose body is that serialization. *)
Theorem forward_targets_normalized_before_serialization :
  forall (queue_name topic_name subscription_name : string)
         (qa : QueueKw.t) (sa : SubscriptionKw.t) (kw : kwargs) (h : heap),
    let ns := fully_qualified_namespace self in
    let normalize := fun p => _normalize_entity_path_to_full_path_if_needed p ns in
    let l := fresh (dom h) in
    let queue :=
      new_QueueProperties queue_name qa (kwargs_pop "status" kw).1
        (normalize (QueueKw.forward_to qa))
        (normalize (QueueKw.forward_dead_lettered_messages_to qa)) in
    let subscription :=
      new_SubscriptionProperties subscription_name sa (kwargs_pop "status" kw).1
        (normalize (SubscriptionKw.forward_to sa))
        (normalize (SubscriptionKw.forward_dead_lettered_messages_to sa)) in
    (forall p, is_absolute_path p = false ->
               normalize (Some p) = Some (rooted_path ns p))
    /\ (forall p, is_absolute_path p = true -> normalize (Some p) = Some p)
    /\ getattr (o_slots queue) "forward_to"
       = Some (of_optional_str (normalize (QueueKw.forward_to qa)))
    /\ getattr (o_slots queue) "forward_dead_lettered_messages_to"
       = Some (of_optional_str
                 (normalize (QueueKw.forward_dead_lettered_messages_to qa)))
    /\ getattr (o_slots subscription) "forward_to"
       = Some (of_optional_str (normalize (SubscriptionKw.forward_to sa)))
    /\ getattr (o_slots subscription) "forward_dead_lettered_messages_to"
       = Some (of_optional_str
                 (normalize (SubscriptionKw.forward_dead_lettered_messages_to sa)))
    /\ (forall g r,
           In (EvRequest g r)
              (out_trace (create_queue self queue_name qa kw h)) ->
           exists d k h',
             _to_internal_entity QueueProperties l (Some ns) None
               (<[l := queue]> h) = (Ok (d, k), h')
             /\ rq_body r = Some (serialize CreateQueueBody d))
    /\ (forall g r,
           In (EvRequest g r)
              (out_trace (create_subscription self topic_name subscription_name
                            sa kw h)) ->
           exists d k h',
             _to_internal_entity SubscriptionProperties l (Some ns) None
               (<[l := subscription]> h) = (Ok (d, k), h')
             /\ rq_body r = Some (serialize CreateSubscriptionBody d))
    /\ (forall d k h' kw',
           _to_internal_entity QueueProperties l (Some ns) None
             (<[l := queue]> h) = (Ok (d, k), h') ->
           out_result (_create_forward_to_header_tokens self d
                         (kwargs_pop "status" kw).2 h') = Ok kw' ->
           requests_of (out_trace (create_queue self queue_name qa kw h))
           = [ {| rq_group := entity_ops; rq_verb := PUT;
                  rq_names := [queue_name];
                  rq_body := Some (serialize CreateQueueBody d);
                  rq_enrich := None; rq_match_condition := None;
                  rq_kwargs := kw' |} ])
    /\ (forall d k h' kw',
           _validate_entity_name_type topic_name (Some "topic_name") = None ->
           _to_internal_entity SubscriptionProperties l (Some ns) None
             (<[l := subscription]> h) = (Ok (d, k), h') ->
           out_result (_create_forward_to_header_tokens self d
                         (kwargs_pop "status" kw).2 h') = Ok kw' ->
           requests_of
             (out_trace (create_subscription self topic_name subscription_name
                           sa kw h))
           = [ {| rq_group := subscription_ops; rq_verb := PUT;
                  rq_names := [topic_name; subscription_name];
                  rq_body := Some (serialize CreateSubscriptionBody d);
                  rq_enrich := None; rq_match_condition := None;
                  rq_kwargs := kw' |} ]).
Proof.
  intros.
  destruct (create_bodies_from_normalized_targets self queue_name topic_name
              subscription_name qa sa kw h) as [Hqueue Hsubscription].
  subst normalize.
  repeat match goal with |- _ /\ _ => split end; try reflexivity.
  - intros p Hp. simpl. by rewrite Hp.
  - intros p Hp. simpl. by rewrite Hp.
  - exact Hqueue.
  - exact Hsubscription.
  - intros d k h' kw' Hconv Htokens. unfold create_queue.
    cbv beta iota zeta delta [kwargs_pop].
    rewrite bind_trace_alloc.
    rewrite (bind_trace_lift_heap _ _ _ _ _ Hconv). cbv beta iota.
    rewrite (bind_trace_forward_tokens _ _ _ _ _ _ Htokens).
    rewrite put_trace; [apply requests_after_forward_tokens |].
    intros ele h''. silent_steps.
  - intros d k h' kw' Hvalid Hconv Htokens. unfold create_subscription.
    cbv beta iota zeta delta [kwargs_pop].
    rewrite (bind_trace_check _ _ _ Hvalid).
    rewrite bind_trace_alloc.
    rewrite (bind_trace_lift_heap _ _ _ _ _ Hconv). cbv beta iota.
    rewrite (bind_trace_forward_tokens _ _ _ _ _ _ Htokens).
    rewrite put_trace; [apply requests_after_forward_tokens |].
    intros ele h''. silent_steps.
Qed.

End NormalizedTargets.

(** Creating the queue "q" that forwards to the bare name "target": the one
    request carries the serialization of a description whose target is the
    path rooted at the namespace. *)
Lemma forward_targets_normalized_before_serialization_witness :
  exists d kw',
    requests_of
      (out_trace (create_queue (C := Demo.collaborators)
                    (Demo.admin Demo.shared_key) "q" forwarding_to_target
                    no_kwargs ∅))
    = [ {| rq_group := entity_ops; rq_verb := PUT; rq_names := ["q"];
           rq_body := Some (Demo.encode CreateQueueBody d);
           rq_enrich := None; rq_match_condition := None;
           rq_kwargs := kw' |} ]
    /\ forward_to d = Some "sb://ns.servicebus.windows.net/target".
Proof.
  pose proof (forward_targets_normalized_before_serialization
                (C := Demo.collaborators) (Demo.admin Demo.shared_key)
                "q" "t" "s" forwarding_to_target SubscriptionKw.defaults
                no_kwargs ∅)
    as (_ & _ & _ & _ & _ & _ & _ & _ & Hcreate & _).
  eexists _, _. split.
  - eapply Hcreate; vm_compute; reflexivity.
  - reflexivity.
Defined.

(** ** The default filter of create_rule, from the call to the request *)

Section DefinitionTimeFilter.
Context {C : Collaborators}.
Variable self : client.
Variable defaults : kwdefaults.

(** C9, amended.  A call of [create_rule] without a filter argument builds
    the rule around the object kept in the keyword defaults of the
    function: the one [TrueRuleFilter] instance that the class body built,
    the same at every call.  Once the names are accepted, that rule object
    is converted, and when the conversion succeeds the call makes exactly
    the one PUT whose body is derived from it. *)
Theorem create_rule_uses_definition_time_filter :
  forall (topic_name subscription_name rule_name : string) (action : pyval)
         (kw : kwargs) (h : heap),
    let l := fresh (dom h) in
    let filter := PRef (create_rule_filter defaults) in
    let rule := new_RuleProperties rule_name filter action in
    bind_filter defaults None = filter
    /\ getattr (o_slots rule) "filter" = Some filter
    /\ (forall h0,
           exists d, out_result (exec_class_body h0) = Ok d
                     /\ (create_rule_filter d ∉ dom h0)
                     /\ out_heap (exec_class_body h0) !! create_rule_filter d
                        = Some new_TrueRuleFilter)
    /\ (h !! create_rule_filter defaults = Some new_TrueRuleFilter ->
        <[l := rule]> h !! create_rule_filter defaults = Some new_TrueRuleFilter)
    /\ (forall g r,
           In (EvRequest g r)
              (out_trace (create_rule self defaults topic_name subscription_name
                            rule_name None action kw h)) ->
           exists d k h',
             _to_internal_entity RuleProperties l None None (<[l := rule]> h)
             = (Ok (d, k), h')
             /\ rq_body r
                = Some (serialize_rule_key_values
                          (serialize CreateRuleBody d) h' l))
    /\ (forall d k h',
           _validate_topic_and_subscription_types topic_name subscription_name
           = None ->
           _to_internal_entity RuleProperties l None None (<[l := rule]> h)
           = (Ok (d, k), h') ->
           out_trace (create_rule self defaults topic_name subscription_name
                        rule_name None action kw h)
           = [EvRequest true
                {| rq_group := rule_ops; rq_verb := PUT;
                   rq_names := [topic_name; subscription_name; rule_name];
                   rq_body :=
                     Some (serialize_rule_key_values
                             (serialize CreateRuleBody d) h' l);
                   rq_enrich := None; rq_match_condition := None;
                   rq_kwargs := kw |}]).
Proof.
  intros.
  pose proof (create_rule_body_from_default_filter self defaults topic_name
                subscription_name rule_name action kw h) as Hbody.
  repeat match goal with |- _ /\ _ => split end; try reflexivity.
  - intros h0. exists {| create_rule_filter := fresh (dom h0) |}.
    split; [reflexivity |]. split; [apply is_fresh |].
    cbn. apply lookup_insert_eq.
  - intros Hd. rewrite lookup_insert_ne; [done |].
    intros Heq. apply (is_fresh (dom h)). fold l. rewrite Heq.
    apply elem_of_dom. by eexists.
  - exact Hbody.
  - intros d k h' Hvalid Hconv. unfold create_rule, bind_filter.
    cbv beta iota zeta.
    rewrite (bind_trace_check _ _ _ Hvalid).
    rewrite bind_trace_alloc.
    rewrite (bind_trace_lift_heap _ _ _ _ _ Hconv). cbv beta iota.
    rewrite (bind_trace_lift_heap
               (fun h0 => (Ok (serialize_rule_key_values
                                 (serialize CreateRuleBody d) h0 l), h0))
               _ h' _ h' eq_refl).
    apply put_trace. intros ele h''. silent_steps.
Qed.

End DefinitionTimeFilter.

(** The first call of [create_rule] without a filter after the class body
    has run: the one request carries a rule whose filter is the object at
    location 1, the [TrueRuleFilter] that the class body built. *)
Lemma create_rule_uses_definition_time_filter_witness :
  exists d,
    out_trace (create_rule (C := Demo.collaborators) (Demo.admin Demo.aad)
                 Demo.kwdefaults0 "t" "s" "r1" None PNone no_kwargs Demo.heap0)
    = [EvRequest true
         {| rq_group := rule_ops; rq_verb := PUT; rq_names := ["t"; "s"; "r1"];
            rq_body := Some (Demo.encode CreateRuleBody d);
            rq_enrich := None; rq_match_condition := None;
            rq_kwargs := no_kwargs |}]
    /\ getattr (d_fields d) "filter"
       = Some (PRef (create_rule_filter Demo.kwdefaults0))
    /\ Demo.heap0 !! create_rule_filter Demo.kwdefaults0
       = Some new_TrueRuleFilter.
Proof.
  pose proof (create_rule_uses_definition_time_filter (C := Demo.collaborators)
                (Demo.admin Demo.aad) Demo.kwdefaults0 "t" "s" "r1" PNone
                no_kwargs Demo.heap0)
    as (_ & _ & _ & _ & _ & Hcreate).
  eexists. split; [| split].
  - eapply Hcreate; [reflexivity | vm_compute; reflexivity].
  - reflexivity.
  - reflexivity.
Defined.
